(** * Agent orchestration core: a shallow embedding and its properties

    The development follows the TypeScript sources of the repository:

    - [GitHub]    : the review-status poller, [getPRStatus] (two revisions of
                    the same module are kept side by side, as in the sources);
    - [JS]        : the fragment of JavaScript values and string primitives
                    the agent-message translator relies on;
    - [Activity]  : src/lib/activity.ts ([summarizeToolUse],
                    [processAgentMessage]);
    - [Worktree]  : src/lib/worktree.ts ([removeWorktree], [createWorktree]);
    - [Prompt]    : src/lib/prompt.ts ([sanitizePromptValue], [renderPrompt]).

    Strings are sequences of code units; the embedding covers the code units
    U+0000 .. U+00FF (one [ascii] each). *)

From Stdlib Require Import ZArith Lia Ascii String List.
From stdpp Require Import base option strings list gmap pretty.

Open Scope string_scope.
Open Scope list_scope.
Open Scope Z_scope.

(** The line-feed and carriage-return code units. *)
Definition LF : ascii := ascii_of_nat 10.
Definition CR : ascii := ascii_of_nat 13.
Definition nl : string := String LF "".

(* ================================================================== *)
(** * Review-status poller *)
(* ================================================================== *)

Module GitHub.

(** ** Octokit payloads (the fields [getPRStatus] reads) *)

(** [pulls.get] data: [merged], [mergeable] ([null] is [None]),
    [head.ref] and [head.sha]. *)
Record pull := {
  pull_merged : bool;
  pull_mergeable : option bool;
  head_ref : string;
  head_sha : string;
}.

(** One entry of [statuses] in the combined status. [description] may be
    [null]. *)
Record status_entry := {
  status_state : string;
  status_context : string;
  status_description : option string;
}.

(** [repos.getCombinedStatusForRef] data. *)
Record combined_status := {
  combined_state : string;
  statuses : list status_entry;
}.

(** One entry of [check_runs]. [conclusion] is [null] until completion. *)
Record check_run := {
  check_name : string;
  check_status : string;
  check_conclusion : option string;
}.

(** [checks.listForRef] data. *)
Record check_list := {
  check_runs : list check_run;
}.

Inductive CiStatus := CiSuccess | CiFailure | CiPending.

Record PRStatus := {
  merged : bool;
  mergeable : option bool;
  branch : string;
  ciStatus : CiStatus;
  ciDetails : string;
}.

#[global] Instance CiStatus_eq_dec : EqDecision CiStatus.
Proof. solve_decision. Defined.

(** ** Errors *)

(** What a rejected promise carries: an HTTP error with its status code, a
    network failure without one, any other [Error], or the error that
    [withRetry] propagates once its attempts are used up. *)
Inductive error :=
| RequestError (status : Z) (message : string)
| NetworkError (message : string)
| Error (message : string)
| RetriesExhausted (label : string) (last : error).

(** ** The client *)

Record Octokit := { auth : string }.

(** [getGitHubClient] (lines 184-198): returns the cached client, or builds
    one from [process.env.GITHUB_TOKEN]; an unset or empty token throws. The
    second component is the module variable [_client] afterwards. *)
Definition getGitHubClient (GITHUB_TOKEN : option string)
    (_client : option Octokit) : (error + Octokit) * option Octokit :=
  match _client with
  | Some c => (inr c, _client)
  | None =>
      match GITHUB_TOKEN with
      | Some (String a t as token) =>
          let c := {| auth := token |} in (inr c, Some c)
      | _ =>
          (inl (Error ("GITHUB_TOKEN environment variable is not set." +:+ nl +:+
                       "Create one at: https://github.com/settings/tokens" +:+ nl +:+
                       "Then: export GITHUB_TOKEN=ghp_...")),
           None)
      end
  end.

(** ** Asynchronous computations

    An [async] function is a tree of requests to the review system. A request
    is answered with its payload or with an error; the answers are not under
    the program's control, so a run is taken against an arbitrary [world]. *)

Inductive request : Type -> Type :=
| pulls_get (octokit : Octokit) (owner repo : string) (pull_number : Z)
    : request pull
| repos_getCombinedStatusForRef (octokit : Octokit) (owner repo ref : string)
    : request combined_status
| checks_listForRef (octokit : Octokit) (owner repo ref : string)
    : request check_list.

(** Effects of the retry executor that yield no value. *)
Inductive notice :=
| Warn (label : string) (attempt : nat)
| Backoff (attempt : nat).

Inductive promise (A : Type) : Type :=
| Resolve (a : A)
| Reject (e : error)
| Request {R : Type} (q : request R) (k : error + R -> promise A)
| Notice (n : notice) (k : promise A).

Arguments Resolve {A} a.
Arguments Reject {A} e.
Arguments Request {A R} q k.
Arguments Notice {A} n k.

Fixpoint bind {A B} (p : promise A) (f : A -> promise B) : promise B :=
  match p with
  | Resolve a => f a
  | Reject e => Reject e
  | Request q k => Request q (fun r => bind (k r) f)
  | Notice n k => Notice n (bind k f)
  end.

#[global] Instance promise_ret : MRet promise := @Resolve.
#[global] Instance promise_bind : MBind promise :=
  fun A B f p => bind p f.

(** [await octokit.rest...(...)]: one request; an error answer rejects. *)
Definition call {R} (q : request R) : promise R :=
  Request q (fun r => match r with inl e => Reject e | inr v => Resolve v end).

(** Runs a promise until it settles, whichever way. *)
Fixpoint settle {A} (p : promise A) : promise (error + A) :=
  match p with
  | Resolve a => Resolve (inr a)
  | Reject e => Resolve (inl e)
  | Request q k => Request q (fun r => settle (k r))
  | Notice n k => Notice n (settle k)
  end.

(** [Promise.all([a, b])]. Both operations are started and run to
    settlement; the embedding fixes the schedule in which [a] settles before
    [b] starts answering, and the first rejection in array order wins. *)
Definition Promise_all2 {A B} (a : promise A) (b : promise B) : promise (A * B) :=
  ra ← settle a;
  rb ← settle b;
  match ra, rb with
  | inr x, inr y => Resolve (x, y)
  | inl e, _ => Reject e
  | _, inl e => Reject e
  end.

(** ** Runs *)

Inductive event :=
| Asked {R : Type} (q : request R) (answer : error + R)
| Noticed (n : notice).

Record world (S : Type) := {
  respond : forall R, request R -> S -> (error + R) * S;
}.
Arguments respond {S} w {R} q s.

(** [run w p s]: the settled value, the final world state and the events in
    the order they happened. *)
Fixpoint run {S A} (w : world S) (p : promise A) (s : S)
    : (error + A) * S * list event :=
  match p with
  | Resolve a => (inr a, s, [])
  | Reject e => (inl e, s, [])
  | Request q k =>
      let '(r, s1) := respond w q s in
      let '(res, s2, tr) := run w (k r) s1 in
      (res, s2, Asked q r :: tr)
  | Notice n k =>
      let '(res, s1, tr) := run w k s in
      (res, s1, Noticed n :: tr)
  end.

(** ** Retry executor *)

(** Modelled from the spec: [withRetry] of ./retry is imported by the poller
    but its source is not part of the slice; section 4.1 of the specification
    gives its contract. An error is transient when it carries status 429 or a
    5xx status, or is a bare network failure. *)
Definition isTransient (e : error) : bool :=
  match e with
  | RequestError status _ =>
      (status =? 429) || ((500 <=? status) && (status <=? 599))
  | NetworkError _ => true
  | _ => false
  end.

(** Modelled from the spec: the attempt ceiling of [withRetry]. *)
Definition MAX_ATTEMPTS : nat := 3.

(** Modelled from the spec: [withRetry] after [attempt - 1] failed attempts,
    with [remaining] further attempts allowed after this one. A fatal error
    propagates at once; a transient one is retried after a warning and a
    backoff, and the last one is propagated with the label. *)
Fixpoint withRetry_from {A} (remaining attempt : nat)
    (operation : promise A) (label : string) : promise A :=
  r ← settle operation;
  match r with
  | inr v => Resolve v
  | inl e =>
      if isTransient e then
        match remaining with
        | O => Reject (RetriesExhausted label e)
        | S n =>
            Notice (Warn label attempt)
              (Notice (Backoff attempt)
                 (withRetry_from n (S attempt) operation label))
        end
      else Reject e
  end.

(** Modelled from the spec: [withRetry(operation, label)]. *)
Definition withRetry {A} (operation : promise A) (label : string) : promise A :=
  withRetry_from (Nat.pred MAX_ATTEMPTS) 1 operation label.

(** ** Shared pieces of both revisions *)

(** [arr.push(x)]. *)
Definition push {A} (arr : list A) (x : A) : list A := arr ++ [x].

(** [s.state === "failure" || s.state === "error"]. *)
Definition status_failed (s : status_entry) : bool :=
  (status_state s =? "failure")%string || (status_state s =? "error")%string.

(** [c.conclusion === "failure" || c.conclusion === "timed_out"]. *)
Definition check_failed (c : check_run) : bool :=
  match check_conclusion c with
  | Some k => (k =? "failure")%string || (k =? "timed_out")%string
  | None => false
  end.

(** [c.status === "completed"]. *)
Definition check_completed (c : check_run) : bool :=
  (check_status c =? "completed")%string.

(** The test of [allChecksPass]: completed, with conclusion success or
    skipped. *)
Definition checks_pass (c : check_run) : bool :=
  check_completed c &&
  match check_conclusion c with
  | Some k => (k =? "success")%string || (k =? "skipped")%string
  | None => false
  end.

(** The template [`${status.context}: ${status.description ?? "failed"}`]. *)
Definition status_detail (s : status_entry) : string :=
  status_context s +:+ ": " +:+ default "failed" (status_description s).

(** The template [`${check.name}: ${check.conclusion}`]; [null] prints as
    the text null. *)
Definition check_detail (c : check_run) : string :=
  check_name c +:+ ": " +:+ default "null" (check_conclusion c).

(** The loop over [statusResult.data.statuses] pushing failure details. *)
Definition push_status_failures (failureDetails : list string)
    (l : list status_entry) : list string :=
  fold_left
    (fun acc status =>
       if status_failed status then push acc (status_detail status) else acc)
    l failureDetails.

(** The loop over [checks] pushing failure details. *)
Definition push_check_failures (failureDetails : list string)
    (l : list check_run) : list string :=
  fold_left
    (fun acc check =>
       if check_failed check then push acc (check_detail check) else acc)
    l failureDetails.

Definition FALLBACK_DETAIL : string := "CI checks failed (see PR for details)".

(** The closing lines shared by both revisions: the fallback message and
    the returned record. *)
Definition finish (pr : pull) (ciStatus : CiStatus)
    (failureDetails : list string) : PRStatus :=
  let failureDetails :=
    if bool_decide (ciStatus = CiFailure) && (length failureDetails =? 0)%nat
    then push failureDetails FALLBACK_DETAIL
    else failureDetails in
  {| merged := false;
     mergeable := pull_mergeable pr;
     branch := head_ref pr;
     ciStatus := ciStatus;
     ciDetails := String.concat nl failureDetails |}.

(** The record returned for a merged pull request. *)
Definition merged_status (pr : pull) : PRStatus :=
  {| merged := true;
     mergeable := None;
     branch := head_ref pr;
     ciStatus := CiSuccess;
     ciDetails := "" |}.

(** ** Observations on runs and scripted worlds *)

(** An event that queries CI: the combined status or the check runs. *)
Definition is_ci_query (ev : event) : bool :=
  match ev with
  | Asked q _ =>
      match q with
      | pulls_get _ _ _ _ => false
      | repos_getCombinedStatusForRef _ _ _ _ => true
      | checks_listForRef _ _ _ _ => true
      end
  | Noticed _ => false
  end.

(** A review system that fails its first [failures] requests with status
    503 and then answers every request with the given payloads. The state
    counts the requests seen so far. *)
Definition flaky_world (failures : nat) (pr : pull) (sr : combined_status)
    (cr : check_list) : world nat :=
  {| respond := fun R (q : request R) (seen : nat) =>
       if (seen <? failures)%nat
       then (inl (RequestError 503 "Service Unavailable"), Datatypes.S seen)
       else
         (match q in request R return error + R with
          | pulls_get _ _ _ _ => inr pr
          | repos_getCombinedStatusForRef _ _ _ _ => inr sr
          | checks_listForRef _ _ _ _ => inr cr
          end, Datatypes.S seen) |}.

Definition client0 : option Octokit := Some {| auth := "ghp_token" |}.

Definition open_pull : pull :=
  {| pull_merged := false; pull_mergeable := Some true;
     head_ref := "worktree-eng-12"; head_sha := "3f9c2ab" |}.

Definition merged_pull : pull :=
  {| pull_merged := true; pull_mergeable := None;
     head_ref := "worktree-eng-12"; head_sha := "3f9c2ab" |}.

(** Legacy aggregate pending with one context still pending. *)
Definition legacy_pending : combined_status :=
  {| combined_state := "pending";
     statuses := [ {| status_state := "pending"; status_context := "ci/deploy";
                      status_description := None |} ] |}.

(** Legacy aggregate failure with one failing and one passing context. *)
Definition legacy_failure : combined_status :=
  {| combined_state := "failure";
     statuses := [ {| status_state := "success"; status_context := "ci/lint";
                      status_description := Some "ok" |};
                   {| status_state := "error"; status_context := "ci/deploy";
                      status_description := None |} ] |}.

(** A combined status whose aggregate is pending although one entry failed. *)
Definition legacy_failed_entry_pending_aggregate : combined_status :=
  {| combined_state := "pending";
     statuses := [ {| status_state := "failure"; status_context := "ci/legacy";
                      status_description := None |} ] |}.

(** One check failed quickly while another is still running. *)
Definition checks_fast_failure : check_list :=
  {| check_runs := [ {| check_name := "build"; check_status := "completed";
                        check_conclusion := Some "failure" |};
                     {| check_name := "e2e"; check_status := "in_progress";
                        check_conclusion := None |} ] |}.

(** One completed, failed check. *)
Definition checks_one_failure : check_list :=
  {| check_runs := [ {| check_name := "build"; check_status := "completed";
                        check_conclusion := Some "failure" |} ] |}.

(** No check run at all. *)
Definition checks_none : check_list := {| check_runs := [] |}.

(** A combined status whose aggregate is failure and that lists no entry. *)
Definition legacy_failure_without_entries : combined_status :=
  {| combined_state := "failure"; statuses := [] |}.

(** ** Revision with the retry executor (part_000, lines 176-353) *)

Module Retrying.

(** Lines 300-352: the synchronous tail of [getPRStatus], from the two
    fetched results to the returned record. *)
Definition aggregate (pr : pull) (statusResult : combined_status)
    (checksResult : check_list) : PRStatus :=
  let statusState := combined_state statusResult in
  let checks := check_runs checksResult in
  let ciStatus := CiPending in
  let failureDetails : list string := [] in
  (* Check legacy status API *)
  let '(ciStatus, failureDetails) :=
    if (statusState =? "failure")%string
    then (CiFailure, push_status_failures failureDetails (statuses statusResult))
    else (ciStatus, failureDetails) in
  (* Check Checks API *)
  let hasFailedCheck := existsb check_failed checks in
  let allChecksComplete := forallb check_completed checks in
  let allChecksPass :=
    forallb
      (fun c =>
         check_completed c &&
         match check_conclusion c with
         | Some k => (k =? "success")%string || (k =? "skipped")%string
         | None => false
         end)
      checks in
  let '(ciStatus, failureDetails) :=
    if hasFailedCheck
    then (CiFailure, push_check_failures failureDetails checks)
    else if (statusState =? "success")%string && allChecksComplete && allChecksPass
    then (CiSuccess, failureDetails)
    else (ciStatus, failureDetails) in
  finish pr ciStatus failureDetails.

Definition getPRStatus (GITHUB_TOKEN : option string) (_client : option Octokit)
    (owner repo : string) (prNumber : Z) : promise PRStatus :=
  match fst (getGitHubClient GITHUB_TOKEN _client) with
  | inl e => Reject e
  | inr octokit =>
      pr ← withRetry (call (pulls_get octokit owner repo prNumber))
             ("getPR #" +:+ pretty prNumber);
      if pull_merged pr then Resolve (merged_status pr)
      else
        let sha := head_sha pr in
        res ← Promise_all2
                (withRetry (call (repos_getCombinedStatusForRef octokit owner repo sha))
                   ("getStatus #" +:+ pretty prNumber))
                (withRetry (call (checks_listForRef octokit owner repo sha))
                   ("getChecks #" +:+ pretty prNumber));
        let '(statusResult, checksResult) := res in
        Resolve (aggregate pr statusResult checksResult)
  end.

End Retrying.

(** ** Revision that waits for every source to settle (part_000, lines 1-175) *)

Module Settled.

(** Lines 117-174: the synchronous tail of [getPRStatus]. *)
Definition aggregate (pr : pull) (statusResult : combined_status)
    (checksResult : check_list) : PRStatus :=
  let statusState := combined_state statusResult in
  let checks := check_runs checksResult in
  let failureDetails : list string := [] in
  let allStatusesFinal :=
    forallb (fun s => negb (status_state s =? "pending")%string)
      (statuses statusResult) in
  let allChecksComplete := forallb check_completed checks in
  let allSettled := allStatusesFinal && allChecksComplete in
  let ciStatus := CiPending in
  let '(ciStatus, failureDetails) :=
    if negb allSettled then
      (* Something is still running: wait for next poll *)
      (CiPending, failureDetails)
    else
      let hasStatusFailure :=
        (statusState =? "failure")%string || (statusState =? "error")%string in
      let hasCheckFailure := existsb check_failed checks in
      if hasStatusFailure || hasCheckFailure then
        let failureDetails :=
          push_status_failures failureDetails (statuses statusResult) in
        let failureDetails := push_check_failures failureDetails checks in
        (CiFailure, failureDetails)
      else (CiSuccess, failureDetails) in
  finish pr ciStatus failureDetails.

Definition getPRStatus (GITHUB_TOKEN : option string) (_client : option Octokit)
    (owner repo : string) (prNumber : Z) : promise PRStatus :=
  match fst (getGitHubClient GITHUB_TOKEN _client) with
  | inl e => Reject e
  | inr octokit =>
      pr ← call (pulls_get octokit owner repo prNumber);
      if pull_merged pr then Resolve (merged_status pr)
      else
        let sha := head_sha pr in
        res ← Promise_all2
                (call (repos_getCombinedStatusForRef octokit owner repo sha))
                (call (checks_listForRef octokit owner repo sha));
        let '(statusResult, checksResult) := res in
        Resolve (aggregate pr statusResult checksResult)
  end.

End Settled.

End GitHub.

(* ================================================================== *)
(** * The JavaScript fragment of the message translator *)
(* ================================================================== *)

Module JS.

(** ** Exceptions *)

Inductive exn :=
| TypeError (message : string)
| PlainError (message : string).

Inductive result (A : Type) : Type :=
| Ok (a : A)
| Throw (e : exn).
Arguments Ok {A} a.
Arguments Throw {A} e.

#[global] Instance result_ret : MRet result := @Ok.
#[global] Instance result_bind : MBind result :=
  fun A B f r => match r with Ok a => f a | Throw e => Throw e end.

(** ** The engine

    Numbers are IEEE doubles and the translator only converts, divides,
    rounds and prints them; these operations are an interface of the engine.
    The engine also fixes the property key that a member inherited from
    [Object.prototype] converts to (the printed form of a built-in function),
    which is what indexing an object with such a member looks up. *)
Class Engine := {
  number : Type;
  NaN : number;
  Number_of_nat : nat -> number;
  Number_toString : number -> string;
  Number_truthy : number -> bool;
  StringToNumber : string -> number;
  Number_divide : number -> number -> number;
  Math_round : number -> number;
  prototype_member_key : string -> option string;
  Number_truthy_of_nat :
    forall n, Number_truthy (Number_of_nat n) = negb (Nat.eqb n 0);
}.

Section Values.
Context {E : Engine}.

(** ** Values

    The values a message of the agent stream is made of: what [JSON.parse]
    produces, and [undefined]. An object is the list of its own properties;
    a lookup takes the first entry for a key. *)
#[warnings="-register-all"] Inductive value :=
| VUndefined
| VNull
| VBoolean (b : bool)
| VNumber (n : number)
| VString (s : string)
| VArray (elements : list value)
| VObject (properties : list (string * value)).

(** [v === "literal"]. *)
Definition strict_eq_string (v : value) (lit : string) : bool :=
  match v with
  | VString s => (s =? lit)%string
  | _ => false
  end.

(** [v == null]: null or undefined. *)
Definition nullish (v : value) : bool :=
  match v with
  | VUndefined | VNull => true
  | _ => false
  end.

(** [a ?? b]. *)
Definition coalesce (a b : value) : value := if nullish a then b else a.

Definition ToBoolean (v : value) : bool :=
  match v with
  | VUndefined | VNull => false
  | VBoolean b => b
  | VNumber n => Number_truthy n
  | VString s => negb (s =? "")%string
  | VArray _ | VObject _ => true
  end.

(** [a || b]. *)
Definition or_else (a b : value) : value := if ToBoolean a then a else b.

(** [v !== null && typeof v === "object"]. *)
Definition is_object (v : value) : bool :=
  match v with
  | VArray _ | VObject _ => true
  | _ => false
  end.

Definition isArray (v : value) : bool :=
  match v with
  | VArray _ => true
  | _ => false
  end.

Fixpoint own_property (key : string) (properties : list (string * value))
    : option value :=
  match properties with
  | [] => None
  | (k, v) :: rest =>
      if (k =? key)%string then Some v else own_property key rest
  end.

(** [v[key]] and [v.key], for the keys the translator reads: [length] and
    names that are neither array indices nor members of a built-in
    prototype. Reading a property of [null] or [undefined] throws. *)
Definition get (v : value) (key : string) : result value :=
  match v with
  | VUndefined =>
      Throw (TypeError ("Cannot read properties of undefined (reading '"
                        +:+ key +:+ "')"))
  | VNull =>
      Throw (TypeError ("Cannot read properties of null (reading '"
                        +:+ key +:+ "')"))
  | VBoolean _ | VNumber _ => Ok VUndefined
  | VString s =>
      if (key =? "length")%string
      then Ok (VNumber (Number_of_nat (String.length s)))
      else Ok VUndefined
  | VArray l =>
      if (key =? "length")%string
      then Ok (VNumber (Number_of_nat (length l)))
      else Ok VUndefined
  | VObject ps => Ok (default VUndefined (own_property key ps))
  end.

(** [key in v], for the same keys: a [TypeError] on a primitive. *)
Definition has_property (key : string) (v : value) : result bool :=
  match v with
  | VObject ps => Ok (bool_decide (is_Some (own_property key ps)))
  | VArray _ => Ok (key =? "length")%string
  | _ => Throw (TypeError "Cannot use 'in' operator to search for a key in a primitive")
  end.

(** ** Conversions *)

(** [ToString]. An array joins its elements with a comma, printing [null]
    and [undefined] as the empty string. An object prints through
    [Object.prototype.toString] unless it has an own property [toString]:
    that property is no function, the inherited [valueOf] returns the object
    itself, and the conversion throws. *)
Fixpoint ToString (v : value) : result string :=
  match v with
  | VUndefined => Ok "undefined"
  | VNull => Ok "null"
  | VBoolean b => Ok (if b then "true" else "false")
  | VNumber n => Ok (Number_toString n)
  | VString s => Ok s
  | VArray l =>
      parts ← (fix elements (l : list value) : result (list string) :=
                 match l with
                 | [] => Ok []
                 | x :: rest =>
                     s ← (if nullish x then Ok "" else ToString x);
                     ss ← elements rest;
                     Ok (s :: ss)
                 end) l;
      Ok (String.concat "," parts)
  | VObject ps =>
      match own_property "toString" ps with
      | Some _ => Throw (TypeError "Cannot convert object to primitive value")
      | None => Ok "[object Object]"
      end
  end.

(** [ToNumber]; objects and arrays go through their primitive, which is
    their string. *)
Definition ToNumber (v : value) : result number :=
  match v with
  | VUndefined => Ok NaN
  | VNull => Ok (Number_of_nat 0)
  | VBoolean b => Ok (Number_of_nat (if b then 1 else 0))
  | VNumber n => Ok n
  | VString s => Ok (StringToNumber s)
  | VArray _ | VObject _ => s ← ToString v; Ok (StringToNumber s)
  end.

(** The elements of an array as [join] prints them. *)
Fixpoint join_elements (l : list value) : result (list string) :=
  match l with
  | [] => Ok []
  | x :: rest =>
      s ← (if nullish x then Ok "" else ToString x);
      ss ← join_elements rest;
      Ok (s :: ss)
  end.

(** [v.join(sep)]: only arrays have the method. *)
Definition join (v : value) (sep : string) : result string :=
  match v with
  | VArray l => parts ← join_elements l; Ok (String.concat sep parts)
  | VUndefined | VNull =>
      Throw (TypeError "Cannot read properties of null or undefined (reading 'join')")
  | _ => Throw (TypeError "join is not a function")
  end.

(** [v.slice(0, n)]: strings and arrays have the method. *)
Definition slice_to (v : value) (n : nat) : result value :=
  match v with
  | VString s => Ok (VString (substring 0 n s))
  | VArray l => Ok (VArray (take n l))
  | VUndefined | VNull =>
      Throw (TypeError "Cannot read properties of null or undefined (reading 'slice')")
  | _ => Throw (TypeError "slice is not a function")
  end.

End Values.

(** ** String primitives *)

(** [s.startsWith(p)]. *)
Definition startsWith (s p : string) : bool := String.prefix p s.

(** [s.slice(n)] for [0 <= n]. *)
Fixpoint slice_from (s : string) (n : nat) : string :=
  match n, s with
  | O, _ => s
  | Datatypes.S n, String _ s => slice_from s n
  | Datatypes.S _, EmptyString => EmptyString
  end.

(** [s.replace(/^\//, "")]. *)
Definition strip_leading_slash (s : string) : string :=
  match s with
  | String "/" rest => rest
  | _ => s
  end.

(** [s.split(sep)] for a non-empty separator: [cur] holds the piece being
    read, reversed; [skip] counts the code units of a matched separator still
    to pass over. *)
Fixpoint split_from (sep : string) (skip : nat) (cur : list ascii) (s : string)
    : list string :=
  match s with
  | EmptyString => [string_of_list_ascii (rev cur)]
  | String c rest =>
      match skip with
      | Datatypes.S k => split_from sep k cur rest
      | O =>
          if String.prefix sep s
          then string_of_list_ascii (rev cur)
               :: split_from sep (Nat.pred (String.length sep)) [] rest
          else split_from sep O (c :: cur) rest
      end
  end.

Definition split (s sep : string) : list string := split_from sep O [] s.

(** [\s] of a regular expression, which is also what [trim] removes: white
    space and line terminators (those below U+0100). *)
Definition is_whitespace (c : ascii) : bool :=
  let n := nat_of_ascii c in
  ((9 <=? n) && (n <=? 13) || (n =? 32) || (n =? 160))%nat.

Fixpoint trimStart (s : string) : string :=
  match s with
  | String c rest => if is_whitespace c then trimStart rest else s
  | EmptyString => s
  end.

Fixpoint trimEnd (s : string) : string :=
  match s with
  | String c rest =>
      match trimEnd rest with
      | EmptyString => if is_whitespace c then EmptyString else String c EmptyString
      | kept => String c kept
      end
  | EmptyString => EmptyString
  end.

(** [s.trim()]. *)
Definition trim (s : string) : string := trimEnd (trimStart s).

(** ** An engine over the integers

    Integers with a not-a-number element; enough to run the translator on
    messages whose numbers are integers of magnitude below 1e21 (which print
    in plain decimal) and whose numeric strings are unsigned decimal
    digits. *)
Definition digits_value (s : string) : option Z :=
  (fix go (s : string) (acc : Z) : option Z :=
     match s with
     | EmptyString => Some acc
     | String c rest =>
         let d := Z.of_nat (nat_of_ascii c) - 48 in
         if (0 <=? d) && (d <=? 9) then go rest (10 * acc + d) else None
     end) s 0.

Definition integer_truthy (n : option Z) : bool :=
  match n with Some z => negb (z =? 0) | None => false end.

Lemma integer_truthy_of_nat n :
  integer_truthy (Some (Z.of_nat n)) = negb (Nat.eqb n 0).
Proof. destruct n; reflexivity. Qed.

#[global] Instance integer_engine : Engine := {|
  number := option Z;
  NaN := None;
  Number_of_nat := fun n => Some (Z.of_nat n);
  Number_toString := fun n =>
    match n with Some z => pretty z | None => "NaN" end;
  Number_truthy := integer_truthy;
  StringToNumber := digits_value;
  Number_divide := fun a b =>
    match a, b with
    | Some x, Some y => if y =? 0 then None else Some ((2 * x + y) / (2 * y))
    | _, _ => None
    end;
  Math_round := fun n => n;
  prototype_member_key := fun name =>
    if (name =? "__proto__")%string then Some "[object Object]"
    else if (name =? "constructor")%string
    then Some "function Object() { [native code] }"
    else if bool_decide (name ∈ ["toString"; "valueOf";
                                 "hasOwnProperty"; "isPrototypeOf";
                                 "propertyIsEnumerable"; "toLocaleString";
                                 "__defineGetter__"; "__defineSetter__";
                                 "__lookupGetter__"; "__lookupSetter__"])
    then Some ("function " +:+ name +:+ "() { [native code] }")
    else None;
  Number_truthy_of_nat := integer_truthy_of_nat;
|}.

End JS.

(* ================================================================== *)
(** * Agent message translator (src/lib/activity.ts) *)
(* ================================================================== *)

Module Activity.
Import JS.

(** Maps tool names to the input field used in their activity summary. *)
Definition TOOL_SUMMARY_FIELDS : gmap string string :=
  list_to_map [
    ("Read", "file_path");
    ("Write", "file_path");
    ("Edit", "file_path");
    ("NotebookEdit", "notebook_path");
    ("Bash", "command");
    ("Glob", "pattern");
    ("Grep", "pattern");
    ("WebFetch", "url");
    ("WebSearch", "query");
    ("TodoWrite", "subject");
    ("TaskCreate", "subject");
    ("TaskUpdate", "taskId");
    ("TaskOutput", "task_id");
    ("TaskStop", "task_id");
    ("TeamCreate", "team_name");
    ("TeamDelete", "team_name");
    ("ToolSearch", "query");
    ("SendMessage", "recipient")
  ].

Inductive ActivityType := Status | ToolUse | Text | Result | Error.

Section Translator.
Context {E : Engine}.

(** [ActivityEntry] of ../state, with the fields the translator sets. An
    absent or [undefined] optional field is [None]. The summary of a text
    block is whatever [slice] returned, hence a value. *)
Record ActivityEntry := {
  timestamp : Z;
  type : ActivityType;
  summary : value;
  detail : option value;
  isSubagent : option bool;
}.

Record SuccessResult := {
  result : value;
  costUsd : value;
  durationMs : value;
  numTurns : value;
}.

(** [AgentMessageResult]: a field is [None] when the returned object does
    not have the property. *)
Record AgentMessageResult := {
  activities : list ActivityEntry;
  sessionId : option value;
  successResult : option SuccessResult;
  errorMessage : option value;
}.

(** Shorten MCP tool names: mcp__server__tool becomes server/tool. The
    method [startsWith] exists on strings only. *)
Definition shortToolName (name : value) : JS.result string :=
  match name with
  | VString name =>
      if startsWith name "mcp__" then
        let parts := split (slice_from name 5) "__" in
        if (2 <=? length parts)%nat
        then Ok (default "undefined" (parts !! (length parts - 2)%nat)
                 +:+ "/"
                 +:+ default "undefined" (parts !! (length parts - 1)%nat))
        else Ok (default "undefined" (parts !! 0%nat))
      else Ok name
  | VUndefined | VNull =>
      Throw (TypeError "Cannot read properties of null or undefined (reading 'startsWith')")
  | _ => Throw (TypeError "name.startsWith is not a function")
  end.

(** [summarizeToolUse(toolName, input, cwd)]. Indexing the table converts
    [toolName] to a property key; a name the table inherits from
    [Object.prototype] yields that member, whose own conversion to a key is
    the engine's. *)
Definition summarizeToolUse (toolName : value) (input : value)
    (cwd : option string) : JS.result string :=
  let inp := if is_object input then input else VObject [] in
  key ← ToString toolName;
  let field :=
    match TOOL_SUMMARY_FIELDS !! key with
    | Some field => Some field
    | None => prototype_member_key key
    end in
  match field with
  | Some field =>
      raw ← get inp field;
      value ← ToString (coalesce raw (VString ""));
      let value :=
        match cwd with
        | Some cwd =>
            if negb (cwd =? "")%string && startsWith value cwd
            then strip_leading_slash (slice_from value (String.length cwd))
            else value
        | None => value
        end in
      Ok (key +:+ ": " +:+ value)
  | None =>
      if strict_eq_string toolName "Task" then
        description ← get inp "description";
        subagent_type ← get inp "subagent_type";
        shown ← ToString (coalesce (coalesce description subagent_type)
                            (VString "subagent"));
        Ok ("Task: " +:+ shown)
      else
        (* Use tool name as badge; shorten MCP tool names for readability *)
        short ← shortToolName toolName;
        Ok (short +:+ ": ")
  end.

(** [Date.now()] is called once per pushed activity and nowhere else:
    [Date_now k] is what its call number [k] of an invocation returns. *)
Variable Date_now : nat -> Z.

(** [activities.push({ timestamp: Date.now(), ... })]. *)
Definition push (activities : list ActivityEntry) (type : ActivityType)
    (summary : value) (detail : option value) (isSubagent : option bool)
    : list ActivityEntry :=
  activities ++ [ {| timestamp := Date_now (length activities);
                     type := type; summary := summary;
                     detail := detail; isSubagent := isSubagent |} ].

(** [for (const x of l)] over a body that may throw. *)
Fixpoint for_of {A B} (l : list A) (acc : B) (body : B -> A -> JS.result B)
    : JS.result B :=
  match l with
  | [] => Ok acc
  | x :: rest => acc ← body acc x; for_of rest acc body
  end.

(** [v || undefined] as an optional field. *)
Definition truthy_or_undefined (v : value) : option value :=
  if ToBoolean v then Some v else None.

(** Map a single SDK agent message to activity entries and structured
    result data. The properties of [msg] are read where the source reads
    them, except [subtype], which is read once ahead of the tests: reading
    a property of a value that already gave its [type] cannot fail. *)
Definition processAgentMessage (message : value) (cwd : option string)
    : JS.result AgentMessageResult :=
  let activities : list ActivityEntry := [] in
  let msg := message in
  msg_type ← get msg "type";
  subtype ← get msg "subtype";
  if strict_eq_string msg_type "system" && strict_eq_string subtype "init"
  then
    let activities := push activities Status (VString "Agent started") None None in
    session_id ← get msg "session_id";
    Ok {| activities := activities; sessionId := Some session_id;
          successResult := None; errorMessage := None |}
  else
  (* Subagent lifecycle: task_started *)
  if strict_eq_string msg_type "system" && strict_eq_string subtype "task_started"
  then
    let taskMsg := message in
    description ← get taskMsg "description";
    task_type ← get taskMsg "task_type";
    what ← ToString (or_else (or_else description task_type) (VString "subagent"));
    let activities :=
      push activities Status (VString ("Spawned: " +:+ what)) None (Some true) in
    Ok {| activities := activities; sessionId := None;
          successResult := None; errorMessage := None |}
  else
  (* Subagent lifecycle: task_notification (completed/failed/stopped) *)
  if strict_eq_string msg_type "system" && strict_eq_string subtype "task_notification"
  then
    let taskMsg := message in
    usage ← get taskMsg "usage";
    durationStr ←
      (if ToBoolean usage then
         duration_ms ← get usage "duration_ms";
         ms ← ToNumber duration_ms;
         tool_uses ← get usage "tool_uses";
         tools ← ToString tool_uses;
         Ok (Number_toString
               (Math_round (Number_divide ms (Number_of_nat 1000)))
             +:+ "s, " +:+ tools +:+ " tools")
       else Ok "");
    let suffix :=
      if negb (durationStr =? "")%string
      then " (" +:+ durationStr +:+ ")" else "" in
    task_status ← get taskMsg "status";
    task_summary ← get taskMsg "summary";
    if strict_eq_string task_status "completed" then
      let activities :=
        push activities Result (VString ("Subagent completed" +:+ suffix))
          (truthy_or_undefined task_summary) (Some true) in
      Ok {| activities := activities; sessionId := None;
            successResult := None; errorMessage := None |}
    else
      shown ← ToString task_status;
      let activities :=
        push activities Error (VString ("Subagent " +:+ shown +:+ suffix))
          (truthy_or_undefined task_summary) (Some true) in
      Ok {| activities := activities; sessionId := None;
            successResult := None; errorMessage := None |}
  else
  msg_message ← get msg "message";
  if strict_eq_string msg_type "assistant" && ToBoolean msg_message then
    let assistantMsg := message in
    parent_tool_use_id ← get assistantMsg "parent_tool_use_id";
    let isSubagent := negb (nullish parent_tool_use_id) in
    let flag := if isSubagent then Some true else None in
    content ← get msg_message "content";
    activities ←
      match content with
      | VArray blocks =>
          for_of blocks activities (fun activities block =>
            block_type ← get block "type";
            is_tool ←
              (if strict_eq_string block_type "tool_use"
               then has_property "name" block else Ok false);
            if (is_tool : bool) then
              name ← get block "name";
              input ← get block "input";
              shown ← summarizeToolUse name input cwd;
              Ok (push activities ToolUse (VString shown) None flag)
            else
              is_text ←
                (if strict_eq_string block_type "text"
                 then has_property "text" block else Ok false);
              if (is_text : bool) then
                block_text ← get block "text";
                head ← slice_to block_text 200;
                Ok (push activities Text head (Some block_text) flag)
              else Ok activities)
      | _ => Ok activities
      end;
    Ok {| activities := activities; sessionId := None;
          successResult := None; errorMessage := None |}
  else
  if strict_eq_string msg_type "result" then
    if strict_eq_string subtype "success" then
      let activities :=
        push activities Result (VString "Agent completed successfully")
          None None in
      msg_result ← get msg "result";
      total_cost_usd ← get msg "total_cost_usd";
      duration_ms ← get msg "duration_ms";
      num_turns ← get msg "num_turns";
      Ok {| activities := activities; sessionId := None;
            successResult :=
              Some {| result := msg_result; costUsd := total_cost_usd;
                      durationMs := duration_ms; numTurns := num_turns |};
            errorMessage := None |}
    else
      let errResult := message in
      errors ← get errResult "errors";
      errors_length ←
        (if nullish errors then Ok VUndefined else get errors "length");
      errorMessage ←
        (if ToBoolean errors_length then
           joined ← join errors "; "; Ok (VString joined)
         else Ok subtype);
      head ← slice_to errorMessage 200;
      shown ← ToString head;
      let activities :=
        push activities Error (VString ("Agent error: " +:+ shown)) None None in
      Ok {| activities := activities; sessionId := None;
            successResult := None; errorMessage := Some errorMessage |}
  else
  Ok {| activities := activities; sessionId := None;
        successResult := None; errorMessage := None |}.

(** Create an error ActivityEntry with the current timestamp. *)
Definition makeErrorActivity (summary : value) : ActivityEntry :=
  {| timestamp := Date_now 0; type := Error; summary := summary;
     detail := None; isSubagent := None |}.

End Translator.

(** ** Message shapes and sample messages *)

Section Shapes.
Context {E : Engine}.

(** The tags [processAgentMessage] recognizes: system/init,
    system/task_started, system/task_notification, assistant with a message,
    and result. *)
Definition recognized (message : value) : Prop :=
  (get message "type" = Ok (VString "system") /\
   (get message "subtype" = Ok (VString "init") \/
    get message "subtype" = Ok (VString "task_started") \/
    get message "subtype" = Ok (VString "task_notification"))) \/
  (get message "type" = Ok (VString "assistant") /\
   exists m, get message "message" = Ok m /\ ToBoolean m = true) \/
  get message "type" = Ok (VString "result").

(** The result of a message that is silently ignored. *)
Definition ignored : AgentMessageResult :=
  {| activities := []; sessionId := None;
     successResult := None; errorMessage := None |}.

End Shapes.

(** A clock that advances by one millisecond per reading. *)
Definition sample_clock (k : nat) : Z := 1700000000000 + Z.of_nat k.

(** A message kind added to the stream after the translator was written. *)
Definition sample_unknown_message : value (E := integer_engine) :=
  VObject [("type", VString "stream_event"); ("uuid", VString "7c1e")].

(** A terminal error with two structured error messages. *)
Definition sample_error_result : value (E := integer_engine) :=
  VObject [("type", VString "result");
           ("subtype", VString "error_during_execution");
           ("errors", VArray [VString "tool crashed"; VString "budget exceeded"])].

(** The input of a file-reading tool inside the working directory /w. *)
Definition sample_read_input : value (E := integer_engine) :=
  VObject [("file_path", VString "/w/src/app.ts")].

End Activity.

(* ================================================================== *)
(** * Worktree lifecycle manager (src/lib/worktree.ts) *)
(* ================================================================== *)

Module Worktree.
Import JS.

(** What [Bun.spawnSync] returns once the child has exited. *)
Record SyncSubprocess := {
  exitCode : Z;
  stderr : string;
}.

(** The host: the repository and the disk, changed by the commands that
    run; [node:fs] and [node:path]. [Bun.spawnSync] either returns the
    exited child or throws, which it does when the child cannot be started
    (the working directory does not exist, git is not installed). *)
Class Host := {
  machine : Type;
  spawnSync :
    list string -> string -> machine -> JS.result SyncSubprocess * machine;
  existsSync : string -> machine -> bool;
  resolve : list string -> string;
}.

(** What a call leaves behind: the commands it ran, with their working
    directory and outcome, the commands that could not be started, and the
    lines handed to [info] and [warn] of ./logger, which record the line and
    return. *)
Inductive entry :=
| Ran (cmd : list string) (cwd : string) (outcome : SyncSubprocess)
| NotStarted (cmd : list string) (cwd : string) (error : exn)
| Info (line : string)
| Warned (line : string).

Section Manager.
Context {H : Host}.

(** Synchronous code over the host: the machine and the journal so far; a
    call returns a value or throws. None of the functions of the module
    catches an exception. *)
Definition io (A : Type) : Type :=
  machine * list entry -> JS.result A * (machine * list entry).

#[global] Instance io_ret : MRet io := fun A a st => (Ok a, st).
#[global] Instance io_bind : MBind io :=
  fun A B f m st =>
    match m st with
    | (Ok a, st1) => f a st1
    | (Throw e, st1) => (Throw e, st1)
    end.

Definition throw {A : Type} (e : exn) : io A := fun st => (Throw e, st).

Definition info (line : string) : io unit :=
  fun '(m, journal) => (Ok tt, (m, journal ++ [Info line])).

Definition warn (line : string) : io unit :=
  fun '(m, journal) => (Ok tt, (m, journal ++ [Warned line])).

Definition Bun_spawnSync (cmd : list string) (cwd : string) : io SyncSubprocess :=
  fun '(m, journal) =>
    match spawnSync cmd cwd m with
    | (Ok outcome, m1) => (Ok outcome, (m1, journal ++ [Ran cmd cwd outcome]))
    | (Throw e, m1) => (Throw e, (m1, journal ++ [NotStarted cmd cwd e]))
    end.

Definition fs_existsSync (path : string) : io bool :=
  fun '(m, journal) => (Ok (existsSync path m), (m, journal)).

Definition worktreePath (projectPath name : string) : string :=
  resolve [projectPath; ".claude"; "worktrees"; name].

(** Run a git command synchronously. Returns stderr text on failure,
    undefined on success. *)
Definition gitSync (projectPath : string) (args : list string)
    : io (option string) :=
  result ← Bun_spawnSync ("git" :: args) projectPath;
  if negb (exitCode result =? 0)
  then mret (Some (trim (stderr result)))
  else mret None.

Definition gitPrune (projectPath : string) : io unit :=
  _ ← gitSync projectPath ["worktree"; "prune"];
  mret tt.

(** [if (err)] on what [gitSync] returned: a non-empty text. *)
Definition truthy (err : option string) : bool :=
  match err with
  | Some text => negb (text =? "")%string
  | None => false
  end.

(** The options object of [removeWorktree]. *)
Record RemoveOptions := {
  keepBranch : option bool;
}.

(** [opts?.keepBranch] as a condition. *)
Definition keepBranch_set (opts : option RemoveOptions) : bool :=
  match opts with
  | Some o => default false (keepBranch o)
  | None => false
  end.

(** Remove a worktree and (optionally) its local branch.
    Best-effort -- logs errors but never throws. *)
Definition removeWorktree (projectPath name : string)
    (opts : option RemoveOptions) : io unit :=
  let wtPath := worktreePath projectPath name in
  _ ← info ("Removing worktree: " +:+ name);
  wtErr ← gitSync projectPath ["worktree"; "remove"; wtPath; "--force"];
  _ ← (if truthy wtErr
       then warn ("Failed to remove worktree '" +:+ name +:+ "': "
                  +:+ default "" wtErr)
       else mret tt);
  _ ← gitPrune projectPath;
  if negb (keepBranch_set opts) then
    let branch := "worktree-" +:+ name in
    brErr ← gitSync projectPath ["branch"; "-D"; branch];
    if truthy brErr
    then warn ("Failed to delete branch '" +:+ branch +:+ "': "
               +:+ default "" brErr)
    else mret tt
  else mret tt.

(** Create an isolated git worktree for an agent. If a stale worktree with
    the same name exists, removes it first. Returns the absolute path of the
    worktree directory. *)
Definition createWorktree (projectPath name : string)
    (fromBranch : option string) : io string :=
  let wtPath := worktreePath projectPath name in
  let fixer := match fromBranch with
               | Some b => negb (b =? "")%string
               | None => false
               end in
  _ ← gitPrune projectPath;
  stale ← fs_existsSync wtPath;
  _ ← (if (stale : bool) then
         _ ← warn ("Stale worktree found at " +:+ wtPath +:+ ", removing...");
         removeWorktree projectPath name (Some {| keepBranch := Some fixer |})
       else mret tt);
  if fixer then
    let fromBranch := default "" fromBranch in
    (* Fixer mode: check out an existing PR branch into the worktree. *)
    _ ← gitSync projectPath ["fetch"; "origin"; fromBranch];
    _ ← info ("Creating worktree: " +:+ name +:+ " (from branch "
              +:+ fromBranch +:+ ")");
    err ← gitSync projectPath ["worktree"; "add"; wtPath; fromBranch];
    if truthy err
    then throw (PlainError ("Failed to create worktree '" +:+ name
                            +:+ "': " +:+ default "" err))
    else mret wtPath
  else
    (* Executor mode: create a fresh branch from HEAD. *)
    let branch := "worktree-" +:+ name in
    _ ← gitSync projectPath ["branch"; "-D"; branch];
    _ ← info ("Creating worktree: " +:+ name);
    err ← gitSync projectPath ["worktree"; "add"; wtPath; "-b"; branch];
    if truthy err
    then throw (PlainError ("Failed to create worktree '" +:+ name
                            +:+ "': " +:+ default "" err))
    else mret wtPath.

(** The git commands of a journal that were started, in order, without
    their outcome. *)
Definition commands (journal : list entry) : list (list string * string) :=
  omap (fun e => match e with
                 | Ran cmd cwd _ => Some (cmd, cwd)
                 | _ => None
                 end) journal.

(** The warnings of a journal, in order. *)
Definition warnings (journal : list entry) : list string :=
  omap (fun e => match e with
                 | Warned line => Some line
                 | _ => None
                 end) journal.

End Manager.

(** A host on which git starts and every git command fails: exit code 128
    and a message on stderr. The machine counts the commands run. *)
#[global] Instance failing_host : Host := {|
  machine := nat;
  spawnSync := fun cmd cwd n =>
    (Ok {| exitCode := 128; stderr := "fatal: not a git repository" +:+ nl |},
     Datatypes.S n);
  existsSync := fun path n => false;
  resolve := fun segments => String.concat "/" segments;
|}.

(** A host on which the project directory is the only directory missing:
    a child with that working directory cannot be started. The machine
    counts the attempts. *)
Definition missing_directory_host (missing : string) : Host := {|
  machine := nat;
  spawnSync := fun cmd cwd n =>
    (if (cwd =? missing)%string
     then Throw (PlainError
                   ("ENOENT: no such file or directory, posix_spawn 'git'"))
     else Ok {| exitCode := 0; stderr := "" |},
     Datatypes.S n);
  existsSync := fun path n => false;
  resolve := fun segments => String.concat "/" segments;
|}.

(** A host with a leftover worktree directory at [stale_path], on which
    git starts and every command succeeds except command number [failing],
    which prints [message] to stderr and exits with [code]. The machine
    counts the commands run. *)
Definition stale_host (stale_path : string) (failing : nat) (code : Z)
    (message : string) : Host := {|
  machine := nat;
  spawnSync := fun cmd cwd n =>
    (Ok (if (n =? failing)%nat
         then {| exitCode := code; stderr := message |}
         else {| exitCode := 0; stderr := "" |}),
     Datatypes.S n);
  existsSync := fun path n => (path =? stale_path)%string;
  resolve := fun segments => String.concat "/" segments;
|}.

End Worktree.

(* ================================================================== *)
(** * Prompt templates (src/lib/prompt.ts) *)
(* ================================================================== *)

Module Prompt.
Import JS.

(** [value.replace(/[\r\n]+/g, " ")]: every maximal run of carriage returns
    and line feeds becomes one space. [inside] tells that the previous code
    unit belonged to such a run. *)
Definition is_newline (c : ascii) : bool :=
  Ascii.eqb c CR || Ascii.eqb c LF.

Fixpoint collapse_newlines_from (inside : bool) (s : string) : string :=
  match s with
  | EmptyString => EmptyString
  | String c rest =>
      if is_newline c
      then if inside then collapse_newlines_from true rest
           else String " " (collapse_newlines_from true rest)
      else String c (collapse_newlines_from false rest)
  end.

Definition collapse_newlines (s : string) : string :=
  collapse_newlines_from false s.

Fixpoint drop_hashes (s : string) : string :=
  match s with
  | String "#" rest => drop_hashes rest
  | _ => s
  end.

(** [value.replace(/^\s*#+\s*/, "")]: when the first code unit after the
    leading white space is a hash sign, that white space, the hash signs and
    the white space after them are removed; otherwise nothing is. *)
Definition strip_leading_heading (s : string) : string :=
  match trimStart s with
  | String "#" rest => trimStart (drop_hashes rest)
  | _ => s
  end.

(** Sanitize a value before substituting it into a prompt template.
    Collapses newlines to spaces and strips leading markdown heading markers
    to prevent prompt injection via multiline config values. *)
Definition sanitizePromptValue (value : string) : string :=
  trim (strip_leading_heading (collapse_newlines value)).

(** [GetSubstitution] for a string pattern (no captures): in the replacement
    text, a dollar sign followed by a dollar sign, a backquote, an ampersand
    or a quote stands for a dollar sign, the text before the match, the
    match, and the text after the match. *)
Fixpoint GetSubstitution (matched before after : string) (template : string)
    : string :=
  match template with
  | String "$" (String "$" rest) =>
      String "$" (GetSubstitution matched before after rest)
  | String "$" (String "`" rest) =>
      before +:+ GetSubstitution matched before after rest
  | String "$" (String "&" rest) =>
      matched +:+ GetSubstitution matched before after rest
  | String "$" (String "'" rest) =>
      after +:+ GetSubstitution matched before after rest
  | String c rest => String c (GetSubstitution matched before after rest)
  | EmptyString => EmptyString
  end.

(** [str.replaceAll(pattern, replacement)] for a non-empty string pattern:
    [s] is what remains of [str] from position [pos]; [skip] counts the code
    units of a match still to pass over. *)
Fixpoint replaceAll_from (str pattern replacement : string)
    (pos skip : nat) (s : string) : string :=
  match s with
  | EmptyString => EmptyString
  | String c rest =>
      match skip with
      | Datatypes.S k =>
          replaceAll_from str pattern replacement (Datatypes.S pos) k rest
      | O =>
          if String.prefix pattern s
          then GetSubstitution pattern (substring 0 pos str)
                 (slice_from s (String.length pattern)) replacement
               +:+ replaceAll_from str pattern replacement (Datatypes.S pos)
                     (Nat.pred (String.length pattern)) rest
          else String c
                 (replaceAll_from str pattern replacement (Datatypes.S pos) O rest)
      end
  end.

Definition replaceAll (str pattern replacement : string) : string :=
  replaceAll_from str pattern replacement O O str.

(** Substitute {{VARIABLE}} placeholders in a template string. [vars] is
    the list [Object.entries(vars)] iterates, in its order. *)
Definition renderPrompt (template : string) (vars : list (string * string))
    : string :=
  fold_left
    (fun result '(key, value) =>
       replaceAll result ("{{" +:+ key +:+ "}}") (sanitizePromptValue value))
    vars template.

(** ** Simultaneous substitution, for comparison

    One pass over the template: at a placeholder of some key of [vars] (the
    first such key), the sanitized value is copied out and is not read
    again. *)
Fixpoint placeholder_at (vars : list (string * string)) (s : string)
    : option (string * string) :=
  match vars with
  | [] => None
  | (key, value) :: rest =>
      if String.prefix ("{{" +:+ key +:+ "}}") s
      then Some ("{{" +:+ key +:+ "}}", sanitizePromptValue value)
      else placeholder_at rest s
  end.

Fixpoint renderSimultaneously_from (vars : list (string * string))
    (skip : nat) (s : string) : string :=
  match s with
  | EmptyString => EmptyString
  | String c rest =>
      match skip with
      | Datatypes.S k => renderSimultaneously_from vars k rest
      | O =>
          match placeholder_at vars s with
          | Some (placeholder, value) =>
              value +:+ renderSimultaneously_from vars
                          (Nat.pred (String.length placeholder)) rest
          | None => String c (renderSimultaneously_from vars O rest)
          end
      end
  end.

Definition renderSimultaneously (template : string)
    (vars : list (string * string)) : string :=
  renderSimultaneously_from vars O template.

End Prompt.

(* ================================================================== *)
(** * Repository detection ([detectRepo] of the poller's module) *)
(* ================================================================== *)

Module Remote.
Import JS.

(** [s.includes(pattern)]. *)
Fixpoint includes (s pattern : string) : bool :=
  String.prefix pattern s ||
  match s with
  | String _ rest => includes rest pattern
  | EmptyString => false
  end.

(** What [Bun.spawnSync] returns with stdout piped. *)
Record SpawnResult := {
  exitCode : Z;
  stdout : string;
}.

(** The three errors [detectRepo] throws. The text of the first holds a
    dash above U+00FF, so each error is kept by its template and the text
    put into it: an invalid github.repo setting, a failed
    git remote get-url origin, and a remote URL that cannot be parsed. *)
Inductive DetectError :=
| InvalidConfig (configOverride : string)
| NoRemote (projectPath : string)
| Unparsable (url : string).

Record Repo := {
  owner : string;
  repo : string;
}.

(** The longest prefix of code units satisfying [p], and the rest. *)
Fixpoint span (p : ascii -> bool) (s : string) : string * string :=
  match s with
  | String c rest =>
      if p c then let '(taken, remaining) := span p rest in (String c taken, remaining)
      else (EmptyString, s)
  | EmptyString => (EmptyString, EmptyString)
  end.

Definition not_slash (c : ascii) : bool := negb (Ascii.eqb c "/").
Definition not_slash_or_dot (c : ascii) : bool :=
  negb (Ascii.eqb c "/") && negb (Ascii.eqb c ".").

(** A match of  github\.com SEP ([^/]+) \/ ([^/.]+)  starting at the first
    code unit of [s], where SEP is a slash (HTTPS) or a colon (SSH). Both
    groups are greedy; backing off the first group cannot help, since what
    follows a shorter run is no slash. *)
Definition match_here (sep : ascii) (s : string) : option (string * string) :=
  if String.prefix ("github.com" +:+ String sep "") s then
    let '(group1, rest) := span not_slash (slice_from s 11) in
    match group1, rest with
    | String _ _, String "/" rest =>
        match span not_slash_or_dot rest with
        | (String _ _ as group2, _) => Some (group1, group2)
        | _ => None
        end
    | _, _ => None
    end
  else None.

(** [url.match(regex)]: the leftmost match. *)
Fixpoint regex_match (sep : ascii) (s : string) : option (string * string) :=
  match match_here sep s with
  | Some groups => Some groups
  | None =>
      match s with
      | String _ rest => regex_match sep rest
      | EmptyString => None
      end
  end.

(** Detect owner/repo from git remote origin, with config override.
    Supports both HTTPS and SSH remote URLs. [spawnSync] is the host's
    answer to a command; the result comes with the commands that were run. *)
Definition detectRepo (spawnSync : list string -> SpawnResult)
    (projectPath : string) (configOverride : option string)
    : list (list string) * (DetectError + Repo) :=
  match configOverride with
  | Some (String _ _ as configOverride) =>
      let parts := split configOverride "/" in
      match parts !! 0%nat, parts !! 1%nat with
      | Some (String _ _ as owner), Some (String _ _ as repo) =>
          ([], inr {| owner := owner; repo := repo |})
      | _, _ => ([], inl (InvalidConfig configOverride))
      end
  | _ =>
      let cmd := ["git"; "-C"; projectPath; "remote"; "get-url"; "origin"] in
      let result := spawnSync cmd in
      if negb (exitCode result =? 0) then ([cmd], inl (NoRemote projectPath))
      else
        let url := trim (stdout result) in
        (* HTTPS: https://github.com/owner/repo.git *)
        match regex_match "/" url with
        | Some (o, r) => ([cmd], inr {| owner := o; repo := r |})
        | None =>
            (* SSH: git@github.com:owner/repo.git *)
            match regex_match ":" url with
            | Some (o, r) => ([cmd], inr {| owner := o; repo := r |})
            | None => ([cmd], inl (Unparsable url))
            end
        end
  end.

(** A host whose origin is the given URL, printed with a line feed. *)
Definition origin_is (url : string) (cmd : list string) : SpawnResult :=
  {| exitCode := 0; stdout := url +:+ nl |}.

(** A host without a git repository. *)
Definition no_repository (cmd : list string) : SpawnResult :=
  {| exitCode := 128; stdout := "" |}.

End Remote.

(* ================================================================== *)
(** * Scripted review systems *)
(* ================================================================== *)

Module GitHubSamples.
Import GitHub.

(** A review system that gives each kind of request a fixed answer, which
    may be an error. The state counts the requests seen. *)
Definition scripted_world (pull_answer : error + pull)
    (status_answer : error + combined_status)
    (checks_answer : error + check_list) : world nat :=
  {| respond := fun R (q : request R) (seen : nat) =>
       (match q in request R return error + R with
        | pulls_get _ _ _ _ => pull_answer
        | repos_getCombinedStatusForRef _ _ _ _ => status_answer
        | checks_listForRef _ _ _ _ => checks_answer
        end, Datatypes.S seen) |}.

Definition not_found : error := RequestError 404 "Not Found".

(** No legacy status at all: the aggregate of an empty list is pending. *)
Definition legacy_none : combined_status :=
  {| combined_state := "pending"; statuses := [] |}.

(** Every check completed, one of them with a neutral conclusion. *)
Definition checks_all_done : check_list :=
  {| check_runs := [ {| check_name := "build"; check_status := "completed";
                        check_conclusion := Some "success" |};
                     {| check_name := "lint"; check_status := "completed";
                        check_conclusion := Some "neutral" |} ] |}.

End GitHubSamples.

(* ================================================================== *)
(** * Sample messages of the agent stream *)
(* ================================================================== *)

Module ActivitySamples.
Import JS Activity.

(** The first message of a session. *)
Definition sample_init : value (E := integer_engine) :=
  VObject [("type", VString "system"); ("subtype", VString "init");
           ("session_id", VString "sess-41")].

(** The terminal message of a successful run. *)
Definition sample_success : value (E := integer_engine) :=
  VObject [("type", VString "result"); ("subtype", VString "success");
           ("result", VString "done"); ("total_cost_usd", VNumber (Some 2));
           ("duration_ms", VNumber (Some 5400));
           ("num_turns", VNumber (Some 7))].

(** An assistant turn with the given content blocks. *)
Definition sample_assistant (blocks : list (value (E := integer_engine)))
    (parent : value (E := integer_engine)) : value (E := integer_engine) :=
  VObject [("type", VString "assistant");
           ("message", VObject [("role", VString "assistant");
                                ("content", VArray blocks)]);
           ("parent_tool_use_id", parent)].

Definition sample_text_block (text : string) : value (E := integer_engine) :=
  VObject [("type", VString "text"); ("text", VString text)].

Definition sample_text_blocks : list (value (E := integer_engine)) :=
  [sample_text_block "Reading the code"; sample_text_block "Running the tests"].

(** A sub-agent spawned without a description. *)
Definition sample_task_started : value (E := integer_engine) :=
  VObject [("type", VString "system"); ("subtype", VString "task_started");
           ("description", VString ""); ("task_type", VString "Explore")].

(** A sub-agent that failed after 5.4 seconds and three tool calls. *)
Definition sample_usage : value (E := integer_engine) :=
  VObject [("duration_ms", VNumber (Some 5400)); ("tool_uses", VNumber (Some 3))].

Definition sample_task_notification : value (E := integer_engine) :=
  VObject [("type", VString "system"); ("subtype", VString "task_notification");
           ("status", VString "failed"); ("usage", sample_usage);
           ("summary", VString "ran out of turns")].

End ActivitySamples.

(* ================================================================== *)
(** * Properties of the review-status poller *)
(* ================================================================== *)

Module GitHubProps.
Import GitHub.

(** ** Runs of composite promises *)

Section Runs.
Context {S : Type} (w : world S).

Lemma run_bind {A B} (p : promise A) (f : A -> promise B) (s : S) :
  run w (bind p f) s =
  match run w p s with
  | (inr a, s1, t1) =>
      let '(r, s2, t2) := run w (f a) s1 in (r, s2, t1 ++ t2)
  | (inl e, s1, t1) => (inl e, s1, t1)
  end.
Proof.
  revert s; induction p as [a|e|R q k IH|n k IH]; intros s; simpl.
  - destruct (run w (f a) s) as [[r s2] t2]; reflexivity.
  - reflexivity.
  - destruct (respond w q s) as [r s1]. rewrite IH.
    destruct (run w (k r) s1) as [[[e|a] s2] t1]; [reflexivity|].
    destruct (run w (f a) s2) as [[r' s3] t2]; reflexivity.
  - rewrite IH.
    destruct (run w k s) as [[[e|a] s2] t1]; [reflexivity|].
    destruct (run w (f a) s2) as [[r' s3] t2]; reflexivity.
Qed.

Lemma run_mbind {A B} (p : promise A) (f : A -> promise B) (s : S) :
  run w (p ≫= f) s =
  match run w p s with
  | (inr a, s1, t1) =>
      let '(r, s2, t2) := run w (f a) s1 in (r, s2, t1 ++ t2)
  | (inl e, s1, t1) => (inl e, s1, t1)
  end.
Proof. apply run_bind. Qed.

Lemma run_settle {A} (p : promise A) (s : S) :
  run w (settle p) s =
  let '(r, s1, t1) := run w p s in (inr r, s1, t1).
Proof.
  revert s; induction p as [a|e|R q k IH|n k IH]; intros s; simpl;
    try reflexivity.
  - destruct (respond w q s) as [r s1]. rewrite IH.
    destruct (run w (k r) s1) as [[r' s2] t1]; reflexivity.
  - rewrite IH. destruct (run w k s) as [[r' s2] t1]; reflexivity.
Qed.

Lemma run_Promise_all2 {A B} (a : promise A) (b : promise B)
    (s s1 s2 : S) x y t1 t2 :
  run w a s = (inr x, s1, t1) ->
  run w b s1 = (inr y, s2, t2) ->
  run w (Promise_all2 a b) s = (inr (x, y), s2, t1 ++ t2).
Proof.
  intros Ha Hb. unfold Promise_all2.
  rewrite run_mbind, run_settle, Ha.
  rewrite run_mbind, run_settle, Hb. simpl.
  now rewrite app_nil_r.
Qed.

Lemma run_call {R} (q : request R) (s : S) :
  run w (call q) s =
  let '(r, s1) := respond w q s in (r, s1, [Asked q r]).
Proof.
  unfold call; cbn [run]. destruct (respond w q s) as [[e|v] s1]; reflexivity.
Qed.

(** One step of the retry loop around a single call. *)
Lemma run_withRetry_from {R} (q : request R) label remaining attempt s :
  run w (withRetry_from remaining attempt (call q) label) s =
  match respond w q s with
  | (inr v, s1) => (inr v, s1, [Asked q (inr v)])
  | (inl e, s1) =>
      if isTransient e then
        match remaining with
        | O => (inl (RetriesExhausted label e), s1, [Asked q (inl e)])
        | Datatypes.S n =>
            let '(r, s2, t) :=
              run w (withRetry_from n (Datatypes.S attempt) (call q) label) s1 in
            (r, s2, Asked q (inl e) :: Noticed (Warn label attempt)
                      :: Noticed (Backoff attempt) :: t)
        end
      else (inl e, s1, [Asked q (inl e)])
  end.
Proof.
  destruct remaining as [|n]; cbn [withRetry_from];
    rewrite run_mbind, run_settle, run_call;
    destruct (respond w q s) as [[e|v] s1]; try reflexivity;
    destruct (isTransient e); try reflexivity.
  cbn [run].
  destruct (run w (withRetry_from n (Datatypes.S attempt) (call q) label) s1)
    as [[r s2] t]; reflexivity.
Qed.

(** A retried single call issues no other request than that call. *)
Lemma withRetry_from_no_ci_query {R} (q : request R) label remaining attempt s :
  (forall r, is_ci_query (Asked q r) = false) ->
  Forall (fun ev => is_ci_query ev = false)
    (snd (run w (withRetry_from remaining attempt (call q) label) s)).
Proof.
  intros Hq.
  revert attempt s; induction remaining as [|n IH]; intros attempt s;
    rewrite run_withRetry_from;
    destruct (respond w q s) as [[e|v] s1]; simpl;
    try (repeat constructor; apply Hq);
    destruct (isTransient e); simpl; try (repeat constructor; apply Hq).
  specialize (IH (Datatypes.S attempt) s1).
  destruct (run w (withRetry_from n (Datatypes.S attempt) (call q) label) s1)
    as [[r s2] t2]; simpl in *.
  repeat constructor; auto.
Qed.

End Runs.

(** ** Boolean tests against their meaning *)

Lemma existsb_Exists {A} (f : A -> bool) (l : list A) :
  existsb f l = true <-> Exists (fun x => f x = true) l.
Proof.
  induction l as [|x l IH]; simpl.
  - split; [discriminate | intros H; inversion H].
  - rewrite orb_true_iff, IH, Exists_cons. tauto.
Qed.

Lemma forallb_Forall {A} (f : A -> bool) (l : list A) :
  forallb f l = true <-> Forall (fun x => f x = true) l.
Proof.
  induction l as [|x l IH]; simpl.
  - split; [constructor | reflexivity].
  - rewrite andb_true_iff, IH, Forall_cons. tauto.
Qed.

Lemma check_failed_iff c :
  check_failed c = true <->
  check_conclusion c = Some "failure" \/ check_conclusion c = Some "timed_out".
Proof.
  unfold check_failed. destruct (check_conclusion c) as [k|].
  - rewrite orb_true_iff, !String.eqb_eq.
    split; (intros [H|H]; [left|right]; congruence).
  - split; [discriminate | intros [H|H]; discriminate].
Qed.

Lemma check_completed_iff c :
  check_completed c = true <-> check_status c = "completed".
Proof. apply String.eqb_eq. Qed.

Lemma status_failed_iff s :
  status_failed s = true <->
  status_state s = "failure" \/ status_state s = "error".
Proof. unfold status_failed. now rewrite orb_true_iff, !String.eqb_eq. Qed.

(** ** The detail loops as filters *)

Lemma push_status_failures_filter acc l :
  push_status_failures acc l =
  acc ++ map status_detail (List.filter status_failed l).
Proof.
  unfold push_status_failures, push. revert acc.
  induction l as [|x l IH]; intros acc; simpl.
  - now rewrite app_nil_r.
  - rewrite IH. destruct (status_failed x); simpl; [|reflexivity].
    now rewrite <- app_assoc.
Qed.

Lemma push_check_failures_filter acc l :
  push_check_failures acc l =
  acc ++ map check_detail (List.filter check_failed l).
Proof.
  unfold push_check_failures, push. revert acc.
  induction l as [|x l IH]; intros acc; simpl.
  - now rewrite app_nil_r.
  - rewrite IH. destruct (check_failed x); simpl; [|reflexivity].
    now rewrite <- app_assoc.
Qed.

(** ** The verdict of each revision *)

Lemma ciStatus_finish pr v d : ciStatus (finish pr v d) = v.
Proof. reflexivity. Qed.

Lemma merged_finish pr v d : merged (finish pr v d) = false.
Proof. reflexivity. Qed.

Lemma Retrying_verdict pr sr cr :
  ciStatus (Retrying.aggregate pr sr cr) =
  if (combined_state sr =? "failure")%string
     || existsb check_failed (check_runs cr)
  then CiFailure
  else if (combined_state sr =? "success")%string
          && forallb check_completed (check_runs cr)
          && forallb checks_pass (check_runs cr)
  then CiSuccess
  else CiPending.
Proof.
  unfold Retrying.aggregate. fold checks_pass.
  destruct (combined_state sr =? "failure")%string eqn:Hf.
  - apply String.eqb_eq in Hf. rewrite Hf. simpl.
    destruct (existsb check_failed (check_runs cr)); reflexivity.
  - simpl. destruct (existsb check_failed (check_runs cr)); [reflexivity|].
    destruct ((combined_state sr =? "success")%string
              && forallb check_completed (check_runs cr)
              && forallb checks_pass (check_runs cr)); reflexivity.
Qed.

Lemma checks_pass_not_failed c : checks_pass c = true -> check_failed c = false.
Proof.
  unfold checks_pass, check_failed. intros [_ H]%andb_true_iff.
  destruct (check_conclusion c) as [k|]; [|reflexivity].
  apply orb_true_iff in H as [H|H]; apply String.eqb_eq in H; subst;
    reflexivity.
Qed.

Lemma all_pass_none_failed l :
  forallb checks_pass l = true -> existsb check_failed l = false.
Proof.
  induction l as [|c l IH]; simpl; [reflexivity|].
  intros [Hc Hl]%andb_true_iff.
  now rewrite (checks_pass_not_failed c Hc), IH.
Qed.

Lemma checks_pass_iff c :
  checks_pass c = true <->
  check_status c = "completed" /\
  (check_conclusion c = Some "success" \/ check_conclusion c = Some "skipped").
Proof.
  unfold checks_pass. rewrite andb_true_iff, check_completed_iff.
  destruct (check_conclusion c) as [k|].
  - rewrite orb_true_iff, !String.eqb_eq.
    split; (intros [H [H'|H']]; split; [exact H|left|exact H|right]; congruence).
  - split; [intros [_ H]; discriminate | intros [_ [H|H]]; discriminate].
Qed.

Lemma Retrying_not_merged pr sr cr :
  merged (Retrying.aggregate pr sr cr) = false.
Proof.
  unfold Retrying.aggregate.
  destruct (combined_state sr =? "failure")%string;
    destruct (existsb check_failed (check_runs cr)); try reflexivity;
    destruct (_ && _ && _); reflexivity.
Qed.

(** The settle rule on the synchronous tail. *)
Lemma Retrying_settle_rule pr sr cr :
  let v := ciStatus (Retrying.aggregate pr sr cr) in
  let failure_present :=
    combined_state sr = "failure" \/
    Exists (fun c => check_conclusion c = Some "failure" \/
                     check_conclusion c = Some "timed_out") (check_runs cr) in
  let all_green :=
    combined_state sr = "success" /\
    Forall (fun c => check_status c = "completed") (check_runs cr) /\
    Forall (fun c => check_status c = "completed" ->
                     check_conclusion c = Some "success" \/
                     check_conclusion c = Some "skipped") (check_runs cr) in
  (v = CiFailure <-> failure_present) /\
  (v = CiSuccess <-> all_green) /\
  (v = CiPending <-> ~ failure_present /\ ~ all_green).
Proof.
  intros v failure_present all_green.
  assert (Hfp : (combined_state sr =? "failure")%string
                || existsb check_failed (check_runs cr) = true
                <-> failure_present).
  { unfold failure_present.
    rewrite orb_true_iff, String.eqb_eq, existsb_Exists.
    apply or_iff_compat_l. rewrite !Exists_exists.
    split; intros (c & Hin & Hc); exists c; split; auto;
      now apply check_failed_iff. }
  assert (Hag : (combined_state sr =? "success")%string
                && forallb check_completed (check_runs cr)
                && forallb checks_pass (check_runs cr) = true
                <-> all_green).
  { unfold all_green.
    rewrite !andb_true_iff, String.eqb_eq, !forallb_Forall, !Forall_forall.
    split.
    - intros [[Hs Hc] Hp]. split; [exact Hs|]. split.
      + intros c Hin. now apply check_completed_iff, Hc.
      + intros c Hin _. now apply (checks_pass_iff c), Hp.
    - intros (Hs & Hc & Hp). split; [split; [exact Hs|]|].
      + intros c Hin. now apply check_completed_iff, Hc.
      + intros c Hin. apply checks_pass_iff. split; auto. }
  assert (Hexcl : all_green -> ~ failure_present).
  { intros Hg Hf. apply Hag in Hg. apply Hfp in Hf.
    apply andb_true_iff in Hg as [[Hs _]%andb_true_iff Hp].
    apply all_pass_none_failed in Hp. rewrite Hp, orb_false_r in Hf.
    apply String.eqb_eq in Hs, Hf. congruence. }
  subst v. rewrite Retrying_verdict.
  destruct ((combined_state sr =? "failure")%string
            || existsb check_failed (check_runs cr)) eqn:E1;
    [|destruct ((combined_state sr =? "success")%string
                && forallb check_completed (check_runs cr)
                && forallb checks_pass (check_runs cr)) eqn:E2].
  - assert (failure_present) by now apply Hfp.
    split; [|split]; (split; [try discriminate|]); tauto.
  - assert (~ failure_present) by (rewrite <- Hfp; discriminate).
    assert (all_green) by now apply Hag.
    split; [|split]; (split; [try discriminate|]); tauto.
  - assert (~ failure_present) by (rewrite <- Hfp; discriminate).
    assert (~ all_green) by (rewrite <- Hag; discriminate).
    split; [|split]; (split; [try discriminate|]); tauto.
Qed.

Lemma Settled_verdict pr sr cr :
  ciStatus (Settled.aggregate pr sr cr) =
  if negb (forallb (fun s => negb (status_state s =? "pending")%string)
             (statuses sr)
           && forallb check_completed (check_runs cr))
  then CiPending
  else if (combined_state sr =? "failure")%string
          || (combined_state sr =? "error")%string
          || existsb check_failed (check_runs cr)
  then CiFailure
  else CiSuccess.
Proof.
  unfold Settled.aggregate.
  destruct (negb _); [reflexivity|].
  destruct (_ || _ || _); reflexivity.
Qed.

(** ** Runs of [getPRStatus] *)

Section GetPRStatus.
Context {S : Type} (w : world S).
Variables (GITHUB_TOKEN : option string) (_client : option Octokit).
Variables (octokit : Octokit) (owner repo : string) (prNumber : Z).

Lemma Retrying_run_unmerged s0 pr s1 t1 sr s2 t2 cr s3 t3 :
  fst (getGitHubClient GITHUB_TOKEN _client) = inr octokit ->
  run w (withRetry (call (pulls_get octokit owner repo prNumber))
           ("getPR #" +:+ pretty prNumber)) s0 = (inr pr, s1, t1) ->
  pull_merged pr = false ->
  run w (withRetry
           (call (repos_getCombinedStatusForRef octokit owner repo (head_sha pr)))
           ("getStatus #" +:+ pretty prNumber)) s1 = (inr sr, s2, t2) ->
  run w (withRetry (call (checks_listForRef octokit owner repo (head_sha pr)))
           ("getChecks #" +:+ pretty prNumber)) s2 = (inr cr, s3, t3) ->
  run w (Retrying.getPRStatus GITHUB_TOKEN _client owner repo prNumber) s0 =
  (inr (Retrying.aggregate pr sr cr), s3, t1 ++ t2 ++ t3).
Proof.
  intros Hc Hpr Hm Hsr Hcr. unfold Retrying.getPRStatus. rewrite Hc.
  rewrite run_mbind, Hpr, Hm.
  rewrite run_mbind, (run_Promise_all2 w _ _ _ _ _ _ _ _ _ Hsr Hcr).
  cbn [run]. now rewrite app_nil_r.
Qed.

Lemma Retrying_run_merged s0 pr s1 t1 :
  fst (getGitHubClient GITHUB_TOKEN _client) = inr octokit ->
  run w (withRetry (call (pulls_get octokit owner repo prNumber))
           ("getPR #" +:+ pretty prNumber)) s0 = (inr pr, s1, t1) ->
  pull_merged pr = true ->
  run w (Retrying.getPRStatus GITHUB_TOKEN _client owner repo prNumber) s0 =
  (inr (merged_status pr), s1, t1).
Proof.
  intros Hc Hpr Hm. unfold Retrying.getPRStatus. rewrite Hc.
  rewrite run_mbind, Hpr, Hm. cbn [run]. now rewrite app_nil_r.
Qed.

Lemma Settled_run_unmerged s0 pr s1 t1 sr s2 t2 cr s3 t3 :
  fst (getGitHubClient GITHUB_TOKEN _client) = inr octokit ->
  run w (call (pulls_get octokit owner repo prNumber)) s0 = (inr pr, s1, t1) ->
  pull_merged pr = false ->
  run w (call (repos_getCombinedStatusForRef octokit owner repo (head_sha pr)))
    s1 = (inr sr, s2, t2) ->
  run w (call (checks_listForRef octokit owner repo (head_sha pr)))
    s2 = (inr cr, s3, t3) ->
  run w (Settled.getPRStatus GITHUB_TOKEN _client owner repo prNumber) s0 =
  (inr (Settled.aggregate pr sr cr), s3, t1 ++ t2 ++ t3).
Proof.
  intros Hc Hpr Hm Hsr Hcr. unfold Settled.getPRStatus. rewrite Hc.
  rewrite run_mbind, Hpr, Hm.
  rewrite run_mbind, (run_Promise_all2 w _ _ _ _ _ _ _ _ _ Hsr Hcr).
  cbn [run]. now rewrite app_nil_r.
Qed.

End GetPRStatus.

(** ** Failure details are never the empty string *)

Lemma append_nonempty_r a b : b <> "" -> a +:+ b <> "".
Proof. destruct a; simpl; [auto | discriminate]. Qed.

Lemma status_detail_nonempty s : status_detail s <> "".
Proof. unfold status_detail. apply append_nonempty_r. discriminate. Qed.

Lemma check_detail_nonempty c : check_detail c <> "".
Proof. unfold check_detail. apply append_nonempty_r. discriminate. Qed.

Lemma concat_nonempty sep l :
  l <> [] -> Forall (fun x => x <> "") l -> String.concat sep l <> "".
Proof.
  destruct l as [|x [|y l]]; intros Hne Hall; [congruence| |];
    inversion_clear Hall as [|? ? Hx _]; simpl; [exact Hx|].
  destruct x; [congruence | discriminate].
Qed.

Lemma Retrying_details pr sr cr :
  let entries :=
    (if (combined_state sr =? "failure")%string
     then map status_detail (List.filter status_failed (statuses sr))
     else [])
    ++ map check_detail (List.filter check_failed (check_runs cr)) in
  ciStatus (Retrying.aggregate pr sr cr) = CiFailure ->
  ciDetails (Retrying.aggregate pr sr cr) =
  String.concat nl (match entries with [] => [FALLBACK_DETAIL] | _ => entries end).
Proof.
  intros entries. rewrite Retrying_verdict. subst entries.
  unfold Retrying.aggregate. fold checks_pass.
  rewrite push_status_failures_filter. simpl ([] ++ _).
  destruct (combined_state sr =? "failure")%string eqn:Hf; simpl.
  - apply String.eqb_eq in Hf. rewrite Hf. simpl. intros _.
    destruct (existsb check_failed (check_runs cr)) eqn:He.
    + rewrite push_check_failures_filter.
      unfold finish; simpl.
      destruct (map status_detail _ ++ map check_detail _) eqn:E;
        reflexivity.
    + assert (List.filter check_failed (check_runs cr) = []) as ->.
      { clear -He. induction (check_runs cr) as [|c l IH]; simpl in *;
          [reflexivity|].
        apply orb_false_iff in He as [-> He]. auto. }
      simpl. rewrite app_nil_r. unfold finish; simpl.
      destruct (map status_detail _) eqn:E; reflexivity.
  - destruct (existsb check_failed (check_runs cr)) eqn:He.
    + intros _. rewrite push_check_failures_filter. simpl.
      unfold finish; simpl.
      destruct (map check_detail _) eqn:E; reflexivity.
    + destruct (_ && _ && _); discriminate.
Qed.

(** The settle-gated revision lists the failing entries of both sources
    whenever its verdict is failure, whatever the legacy aggregate says. *)
Lemma Settled_details pr sr cr :
  ciStatus (Settled.aggregate pr sr cr) = CiFailure ->
  ciDetails (Settled.aggregate pr sr cr) =
  String.concat nl
    (match map status_detail (List.filter status_failed (statuses sr))
           ++ map check_detail (List.filter check_failed (check_runs cr)) with
     | [] => [FALLBACK_DETAIL]
     | _ :: _ =>
         map status_detail (List.filter status_failed (statuses sr))
         ++ map check_detail (List.filter check_failed (check_runs cr))
     end).
Proof.
  rewrite Settled_verdict. unfold Settled.aggregate.
  destruct (negb _); [discriminate|].
  destruct (_ || _ || _); [intros _ | discriminate].
  rewrite push_check_failures_filter, push_status_failures_filter.
  simpl ([] ++ _). unfold finish; simpl.
  destruct (map status_detail _ ++ map check_detail _); reflexivity.
Qed.

(** ** The claims about [getPRStatus] *)

(** C1, as stated, fails in both directions, because the verdict reads the
    aggregate state of the legacy combined status and never its entries.
    A legacy entry in state failure under an aggregate that is pending, with
    no check run, leaves the verdict pending; an aggregate failure that
    lists no entry, with no check run, makes the verdict failure, reported
    with the fallback message. *)
Lemma Retrying_verdict_reads_aggregate_only :
  Exists (fun s => status_state s = "failure")
    (statuses legacy_failed_entry_pending_aggregate) /\
  run (flaky_world 0 open_pull legacy_failed_entry_pending_aggregate
         checks_none)
    (Retrying.getPRStatus None client0 "acme" "app" 7) 0%nat =
  (inr {| merged := false; mergeable := Some true;
          branch := "worktree-eng-12"; ciStatus := CiPending;
          ciDetails := "" |}, 3%nat,
   [Asked (pulls_get {| auth := "ghp_token" |} "acme" "app" 7)
      (inr open_pull);
    Asked (repos_getCombinedStatusForRef {| auth := "ghp_token" |}
             "acme" "app" "3f9c2ab")
      (inr legacy_failed_entry_pending_aggregate);
    Asked (checks_listForRef {| auth := "ghp_token" |}
             "acme" "app" "3f9c2ab") (inr checks_none)]) /\
  statuses legacy_failure_without_entries = [] /\
  check_runs checks_none = [] /\
  run (flaky_world 0 open_pull legacy_failure_without_entries checks_none)
    (Retrying.getPRStatus None client0 "acme" "app" 7) 0%nat =
  (inr {| merged := false; mergeable := Some true;
          branch := "worktree-eng-12"; ciStatus := CiFailure;
          ciDetails := "CI checks failed (see PR for details)" |}, 3%nat,
   [Asked (pulls_get {| auth := "ghp_token" |} "acme" "app" 7)
      (inr open_pull);
    Asked (repos_getCombinedStatusForRef {| auth := "ghp_token" |}
             "acme" "app" "3f9c2ab") (inr legacy_failure_without_entries);
    Asked (checks_listForRef {| auth := "ghp_token" |}
             "acme" "app" "3f9c2ab") (inr checks_none)]).
Proof.
  split; [|split; [|split; [|split]]].
  - left. reflexivity.
  - reflexivity.
  - reflexivity.
  - reflexivity.
  - reflexivity.
Qed.

(** C1, amended. For a pull request that is not merged, the retry-wrapped
    [getPRStatus] returns, and its CI verdict is failure exactly when the
    aggregate state of the legacy combined status is failure or a check run
    concluded failure or timed_out (the legacy entries are not consulted);
    it is success exactly when the legacy aggregate is success, every check
    is completed and every completed check concluded success or skipped; it
    is pending in every other case. *)
Theorem getPRStatus_settle_rule {S} (w : world S)
    GITHUB_TOKEN _client octokit owner repo prNumber
    s0 pr s1 t1 sr s2 t2 cr s3 t3 :
  fst (getGitHubClient GITHUB_TOKEN _client) = inr octokit ->
  run w (withRetry (call (pulls_get octokit owner repo prNumber))
           ("getPR #" +:+ pretty prNumber)) s0 = (inr pr, s1, t1) ->
  pull_merged pr = false ->
  run w (withRetry
           (call (repos_getCombinedStatusForRef octokit owner repo (head_sha pr)))
           ("getStatus #" +:+ pretty prNumber)) s1 = (inr sr, s2, t2) ->
  run w (withRetry (call (checks_listForRef octokit owner repo (head_sha pr)))
           ("getChecks #" +:+ pretty prNumber)) s2 = (inr cr, s3, t3) ->
  let failure_present :=
    combined_state sr = "failure" \/
    Exists (fun c => check_conclusion c = Some "failure" \/
                     check_conclusion c = Some "timed_out") (check_runs cr) in
  let all_green :=
    combined_state sr = "success" /\
    Forall (fun c => check_status c = "completed") (check_runs cr) /\
    Forall (fun c => check_status c = "completed" ->
                     check_conclusion c = Some "success" \/
                     check_conclusion c = Some "skipped") (check_runs cr) in
  exists st,
    run w (Retrying.getPRStatus GITHUB_TOKEN _client owner repo prNumber) s0 =
      (inr st, s3, t1 ++ t2 ++ t3) /\
    merged st = false /\
    (ciStatus st = CiFailure <-> failure_present) /\
    (ciStatus st = CiSuccess <-> all_green) /\
    (ciStatus st = CiPending <-> ~ failure_present /\ ~ all_green).
Proof.
  intros Hc Hpr Hm Hsr Hcr failure_present all_green.
  exists (Retrying.aggregate pr sr cr). split.
  - eapply Retrying_run_unmerged; eassumption.
  - split; [apply Retrying_not_merged|]. apply Retrying_settle_rule.
Qed.

(** The fast-fail scenario of the specification: legacy status pending, one
    check completed with failure; the first request is answered 503 and
    retried. *)
Lemma getPRStatus_settle_rule_witness :
  exists st,
    fst (fst (run (flaky_world 1 open_pull legacy_pending checks_one_failure)
                (Retrying.getPRStatus None client0 "acme" "app" 7) 0%nat))
      = inr st /\
    ciStatus st = CiFailure.
Proof.
  destruct (getPRStatus_settle_rule
              (flaky_world 1 open_pull legacy_pending checks_one_failure)
              None client0 {| auth := "ghp_token" |} "acme" "app" 7
              0%nat open_pull 2%nat
              [Asked (pulls_get {| auth := "ghp_token" |} "acme" "app" 7)
                 (inl (RequestError 503 "Service Unavailable"));
               Noticed (Warn "getPR #7" 1); Noticed (Backoff 1);
               Asked (pulls_get {| auth := "ghp_token" |} "acme" "app" 7)
                 (inr open_pull)]
              legacy_pending 3%nat
              [Asked (repos_getCombinedStatusForRef {| auth := "ghp_token" |}
                        "acme" "app" "3f9c2ab") (inr legacy_pending)]
              checks_one_failure 4%nat
              [Asked (checks_listForRef {| auth := "ghp_token" |}
                        "acme" "app" "3f9c2ab") (inr checks_one_failure)]
              eq_refl eq_refl eq_refl eq_refl eq_refl)
    as (st & Hrun & _ & Hfail & _).
  exists st. split.
  - rewrite Hrun. reflexivity.
  - apply Hfail. right. constructor. left. reflexivity.
Defined.

(** C6. When the fetched pull request is already merged, [getPRStatus]
    returns merged with CI verdict success and empty details; the run ends
    in the state reached by fetching the pull request, and its events are
    those of that fetch: neither the combined status nor the check runs are
    queried. *)
Theorem getPRStatus_merged_short_circuit {S} (w : world S)
    GITHUB_TOKEN _client octokit owner repo prNumber s0 pr s1 t1 :
  fst (getGitHubClient GITHUB_TOKEN _client) = inr octokit ->
  run w (withRetry (call (pulls_get octokit owner repo prNumber))
           ("getPR #" +:+ pretty prNumber)) s0 = (inr pr, s1, t1) ->
  pull_merged pr = true ->
  run w (Retrying.getPRStatus GITHUB_TOKEN _client owner repo prNumber) s0 =
    (inr {| merged := true; mergeable := None; branch := head_ref pr;
            ciStatus := CiSuccess; ciDetails := "" |}, s1, t1) /\
  Forall (fun ev => is_ci_query ev = false) t1.
Proof.
  intros Hc Hpr Hm. split.
  - eapply Retrying_run_merged; eassumption.
  - pose proof (withRetry_from_no_ci_query w
                  (pulls_get octokit owner repo prNumber)
                  ("getPR #" +:+ pretty prNumber)
                  (Nat.pred MAX_ATTEMPTS) 1 s0 (fun _ => eq_refl)) as H.
    unfold withRetry in Hpr. now rewrite Hpr in H.
Qed.

Lemma getPRStatus_merged_short_circuit_witness :
  run (flaky_world 2 merged_pull legacy_failure checks_fast_failure)
    (Retrying.getPRStatus None client0 "acme" "app" 7) 0%nat =
  (inr {| merged := true; mergeable := None; branch := "worktree-eng-12";
          ciStatus := CiSuccess; ciDetails := "" |}, 3%nat,
   [Asked (pulls_get {| auth := "ghp_token" |} "acme" "app" 7)
      (inl (RequestError 503 "Service Unavailable"));
    Noticed (Warn "getPR #7" 1); Noticed (Backoff 1);
    Asked (pulls_get {| auth := "ghp_token" |} "acme" "app" 7)
      (inl (RequestError 503 "Service Unavailable"));
    Noticed (Warn "getPR #7" 2); Noticed (Backoff 2);
    Asked (pulls_get {| auth := "ghp_token" |} "acme" "app" 7)
      (inr merged_pull)]).
Proof.
  apply (getPRStatus_merged_short_circuit
           (flaky_world 2 merged_pull legacy_failure checks_fast_failure)
           None client0 {| auth := "ghp_token" |} "acme" "app" 7
           0%nat merged_pull 3%nat _ eq_refl eq_refl eq_refl).
Defined.

(** C2, as stated, fails on the retry-wrapped revision: with one legacy
    context still pending and one check still in progress, a check that
    already concluded failure makes the verdict failure. *)
Lemma Retrying_failure_before_settled :
  Exists (fun s => status_state s = "pending") (statuses legacy_pending) /\
  Exists (fun c => check_status c <> "completed")
    (check_runs checks_fast_failure) /\
  run (flaky_world 0 open_pull legacy_pending checks_fast_failure)
    (Retrying.getPRStatus None client0 "acme" "app" 7) 0%nat =
  (inr {| merged := false; mergeable := Some true;
          branch := "worktree-eng-12"; ciStatus := CiFailure;
          ciDetails := "build: failure" |}, 3%nat,
   [Asked (pulls_get {| auth := "ghp_token" |} "acme" "app" 7)
      (inr open_pull);
    Asked (repos_getCombinedStatusForRef {| auth := "ghp_token" |}
             "acme" "app" "3f9c2ab") (inr legacy_pending);
    Asked (checks_listForRef {| auth := "ghp_token" |}
             "acme" "app" "3f9c2ab") (inr checks_fast_failure)]).
Proof.
  split; [|split].
  - left. reflexivity.
  - right. left. discriminate.
  - reflexivity.
Qed.

(** C2, amended. On an unmerged pull request the settle-gated revision of
    [getPRStatus] returns the verdict pending, hence never failure, whenever
    a legacy status entry is still pending or a check run is not completed.
    The retry-wrapped revision has no such gate: on the same two results its
    verdict is failure exactly when the legacy aggregate is failure or a
    check run concluded failure or timed_out, whatever is still running. *)
Theorem getPRStatus_failure_only_when_settled {S} (w : world S)
    GITHUB_TOKEN _client octokit owner repo prNumber
    s0 pr s1 t1 sr s2 t2 cr s3 t3 :
  fst (getGitHubClient GITHUB_TOKEN _client) = inr octokit ->
  run w (call (pulls_get octokit owner repo prNumber)) s0 = (inr pr, s1, t1) ->
  pull_merged pr = false ->
  run w (call (repos_getCombinedStatusForRef octokit owner repo (head_sha pr)))
    s1 = (inr sr, s2, t2) ->
  run w (call (checks_listForRef octokit owner repo (head_sha pr)))
    s2 = (inr cr, s3, t3) ->
  Exists (fun s => status_state s = "pending") (statuses sr) \/
  Exists (fun c => check_status c <> "completed") (check_runs cr) ->
  (exists st,
     run w (Settled.getPRStatus GITHUB_TOKEN _client owner repo prNumber) s0 =
       (inr st, s3, t1 ++ t2 ++ t3) /\
     ciStatus st = CiPending /\ ciStatus st <> CiFailure) /\
  (ciStatus (Retrying.aggregate pr sr cr) = CiFailure <->
   combined_state sr = "failure" \/
   Exists (fun c => check_conclusion c = Some "failure" \/
                    check_conclusion c = Some "timed_out") (check_runs cr)).
Proof.
  intros Hc Hpr Hm Hsr Hcr Hun. split.
  - exists (Settled.aggregate pr sr cr). split.
    + eapply Settled_run_unmerged; eassumption.
    + assert (ciStatus (Settled.aggregate pr sr cr) = CiPending) as ->;
        [|split; [reflexivity | discriminate]].
      rewrite Settled_verdict.
      destruct (forallb (fun s => negb (status_state s =? "pending")%string)
                  (statuses sr)
                && forallb check_completed (check_runs cr)) eqn:E;
        [exfalso | reflexivity].
      apply andb_true_iff in E as [E1 E2].
      rewrite forallb_Forall, Forall_forall in E1.
      rewrite forallb_Forall, Forall_forall in E2.
      destruct Hun as [Hp|Hp]; apply Exists_exists in Hp as (x & Hin & Hx).
      * specialize (E1 x Hin). rewrite Hx in E1. discriminate.
      * apply Hx. now apply check_completed_iff, E2.
  - apply (Retrying_settle_rule pr sr cr).
Qed.

Lemma getPRStatus_failure_only_when_settled_witness :
  exists st,
    fst (fst (run (flaky_world 0 open_pull legacy_pending checks_fast_failure)
                (Settled.getPRStatus None client0 "acme" "app" 7) 0%nat))
      = inr st /\
    ciStatus st = CiPending.
Proof.
  destruct (getPRStatus_failure_only_when_settled
              (flaky_world 0 open_pull legacy_pending checks_fast_failure)
              None client0 {| auth := "ghp_token" |} "acme" "app" 7
              0%nat open_pull 1%nat _ legacy_pending 2%nat _
              checks_fast_failure 3%nat _
              eq_refl eq_refl eq_refl eq_refl eq_refl
              ltac:(left; left; reflexivity))
    as [(st & Hrun & Hp & _) _].
  exists st. split; [rewrite Hrun; reflexivity | exact Hp].
Defined.

(** C7, as stated, fails on inputs whose legacy aggregate is not failure:
    the failing legacy entry is left out of the details although the verdict
    is failure. *)
Lemma Retrying_details_skip_legacy_entry :
  Exists (fun s => status_state s = "failure")
    (statuses legacy_failed_entry_pending_aggregate) /\
  run (flaky_world 0 open_pull legacy_failed_entry_pending_aggregate
         checks_one_failure)
    (Retrying.getPRStatus None client0 "acme" "app" 7) 0%nat =
  (inr {| merged := false; mergeable := Some true;
          branch := "worktree-eng-12"; ciStatus := CiFailure;
          ciDetails := "build: failure" |}, 3%nat,
   [Asked (pulls_get {| auth := "ghp_token" |} "acme" "app" 7)
      (inr open_pull);
    Asked (repos_getCombinedStatusForRef {| auth := "ghp_token" |}
             "acme" "app" "3f9c2ab")
      (inr legacy_failed_entry_pending_aggregate);
    Asked (checks_listForRef {| auth := "ghp_token" |}
             "acme" "app" "3f9c2ab") (inr checks_one_failure)]) /\
  "build: failure" <>
  String.concat nl
    (map status_detail
       (List.filter status_failed
          (statuses legacy_failed_entry_pending_aggregate))
     ++ map check_detail
          (List.filter check_failed (check_runs checks_one_failure))).
Proof.
  split; [|split].
  - left. reflexivity.
  - reflexivity.
  - discriminate.
Qed.

(** C7, amended. Whenever the verdict is failure, the detail field is not
    empty. Its lines are, when the legacy aggregate state is failure, one
    "context: description" line per legacy entry in state failure or error,
    followed by one "name: conclusion" line per check run that concluded
    failure or timed_out; when there is no such line, it is the fallback
    message. *)
Theorem getPRStatus_failure_details {S} (w : world S)
    GITHUB_TOKEN _client octokit owner repo prNumber
    s0 pr s1 t1 sr s2 t2 cr s3 t3 :
  fst (getGitHubClient GITHUB_TOKEN _client) = inr octokit ->
  run w (withRetry (call (pulls_get octokit owner repo prNumber))
           ("getPR #" +:+ pretty prNumber)) s0 = (inr pr, s1, t1) ->
  pull_merged pr = false ->
  run w (withRetry
           (call (repos_getCombinedStatusForRef octokit owner repo (head_sha pr)))
           ("getStatus #" +:+ pretty prNumber)) s1 = (inr sr, s2, t2) ->
  run w (withRetry (call (checks_listForRef octokit owner repo (head_sha pr)))
           ("getChecks #" +:+ pretty prNumber)) s2 = (inr cr, s3, t3) ->
  let legacy_lines :=
    if (combined_state sr =? "failure")%string
    then map (fun s => status_context s +:+ ": " +:+
                       default "failed" (status_description s))
           (List.filter
              (fun s => (status_state s =? "failure")%string
                        || (status_state s =? "error")%string)
              (statuses sr))
    else [] in
  let check_lines :=
    map (fun c => check_name c +:+ ": " +:+ default "null" (check_conclusion c))
      (List.filter check_failed (check_runs cr)) in
  exists st,
    run w (Retrying.getPRStatus GITHUB_TOKEN _client owner repo prNumber) s0 =
      (inr st, s3, t1 ++ t2 ++ t3) /\
    (ciStatus st = CiFailure ->
     ciDetails st <> "" /\
     ciDetails st =
       String.concat nl
         (match legacy_lines ++ check_lines with
          | [] => ["CI checks failed (see PR for details)"]
          | _ :: _ => legacy_lines ++ check_lines
          end)).
Proof.
  intros Hc Hpr Hm Hsr Hcr legacy_lines check_lines.
  exists (Retrying.aggregate pr sr cr). split.
  - eapply Retrying_run_unmerged; eassumption.
  - intros Hf. pose proof (Retrying_details pr sr cr Hf) as Hd.
    split; [|exact Hd].
    rewrite Hd. apply concat_nonempty.
    + destruct (_ ++ _); discriminate.
    + destruct (_ ++ _) eqn:E.
      * repeat constructor. discriminate.
      * rewrite <- E. apply Forall_app. split.
        -- destruct (combined_state sr =? "failure")%string; [|constructor].
           apply Forall_map, Forall_forall. intros x _.
           apply status_detail_nonempty.
        -- apply Forall_map, Forall_forall. intros x _.
           apply check_detail_nonempty.
Qed.

Lemma getPRStatus_failure_details_witness :
  exists st,
    fst (fst (run (flaky_world 0 open_pull legacy_failure checks_fast_failure)
                (Retrying.getPRStatus None client0 "acme" "app" 7) 0%nat))
      = inr st /\
    ciDetails st = "ci/deploy: failed" +:+ nl +:+ "build: failure".
Proof.
  destruct (getPRStatus_failure_details
              (flaky_world 0 open_pull legacy_failure checks_fast_failure)
              None client0 {| auth := "ghp_token" |} "acme" "app" 7
              0%nat open_pull 1%nat _ legacy_failure 2%nat _
              checks_fast_failure 3%nat _
              eq_refl eq_refl eq_refl eq_refl eq_refl)
    as (st & Hrun & Hd).
  exists st. split; [rewrite Hrun; reflexivity|].
  vm_compute in Hrun. injection Hrun as <-.
  destruct (Hd eq_refl) as [_ ->]. reflexivity.
Defined.

End GitHubProps.

(* ================================================================== *)
(** * Properties of the message translator *)
(* ================================================================== *)

Module ActivityProps.
Import JS Activity.

(** ** String primitives *)

Lemma prefix_app (p rest : string) : String.prefix p (p +:+ rest) = true.
Proof.
  induction p as [|c p IH]; simpl.
  - now destruct rest.
  - destruct (Ascii.ascii_dec c c); [exact IH | congruence].
Qed.

Lemma prefix_split (p s : string) :
  String.prefix p s = true -> exists rest, s = p +:+ rest.
Proof.
  revert s; induction p as [|c p IH]; intros s H.
  - exists s. reflexivity.
  - destruct s as [|d s]; simpl in H; [discriminate|].
    destruct (Ascii.ascii_dec c d) as [->|]; [|discriminate].
    destruct (IH s H) as [rest ->]. exists rest. reflexivity.
Qed.

Lemma slice_from_app (p rest : string) :
  slice_from (p +:+ rest) (String.length p) = rest.
Proof.
  induction p as [|c p IH]; simpl; [now destruct rest | exact IH].
Qed.

Lemma prefix_nonempty_of_empty (p : string) :
  p <> "" -> String.prefix p "" = false.
Proof. destruct p; [congruence | reflexivity]. Qed.

Lemma append_empty_r (s : string) : s +:+ "" = s.
Proof.
  induction s as [|c s IH]; [reflexivity|].
  change (String c s +:+ "") with (String c (s +:+ "")). now rewrite IH.
Qed.

Lemma substring_length_le (n : nat) (s : string) :
  (String.length (substring 0 n s) <= n)%nat.
Proof.
  revert s; induction n as [|n IH]; intros [|c s]; simpl; try lia.
  specialize (IH s). lia.
Qed.

Lemma eqb_empty_false (s : string) : s <> "" -> (s =? "")%string = false.
Proof. intros H. now apply String.eqb_neq. Qed.

(** ** Property reads *)

Lemma get_not_nullish {E : Engine} (v : value) (key : string) (x : value) :
  get v key = Ok x -> nullish v = false.
Proof. destruct v; simpl; intros H; try reflexivity; discriminate. Qed.

Lemma get_total {E : Engine} (v : value) (key : string) :
  nullish v = false -> exists x, get v key = Ok x.
Proof.
  destruct v; simpl; intros H; try discriminate; eauto;
    destruct (key =? "length")%string; eauto.
Qed.

Lemma join_elements_strings {E : Engine} (msgs : list string) :
  join_elements (map VString msgs) = Ok msgs.
Proof.
  induction msgs as [|m msgs IH]; simpl; [reflexivity|].
  rewrite IH. reflexivity.
Qed.

(** ** The summary of a tool in the table *)

(** The summary of a listed tool, from the printed raw field value. *)
Lemma summarizeToolUse_listed {E : Engine} toolName field input cwd raw_value raw :
  TOOL_SUMMARY_FIELDS !! toolName = Some field ->
  get (if is_object input then input else VObject []) field = Ok raw_value ->
  ToString (coalesce raw_value (VString "")) = Ok raw ->
  summarizeToolUse (VString toolName) input cwd =
  Ok (toolName +:+ ": " +:+
      match cwd with
      | Some cwd =>
          if negb (cwd =? "")%string && startsWith raw cwd
          then strip_leading_slash (slice_from raw (String.length cwd))
          else raw
      | None => raw
      end).
Proof.
  intros Ht Hg Hs. unfold summarizeToolUse. cbn [ToString mbind result_bind].
  rewrite Ht. cbn [mbind result_bind]. rewrite Hg. cbn [mbind result_bind].
  rewrite Hs. reflexivity.
Qed.

(** C4. For a tool of the summary-field table and the printed raw value of
    its field: without a working directory, or when the raw value does not
    start with it, the summary shows the raw value unchanged; when the raw
    value starts with the working directory, the summary shows what follows
    that prefix, the prefix being removed once (together with the path
    separator that follows it, if any) and never a second time. *)
Theorem summarizeToolUse_strips_cwd_once {E : Engine}
    toolName field input cwd raw_value raw :
  TOOL_SUMMARY_FIELDS !! toolName = Some field ->
  get (if is_object input then input else VObject []) field = Ok raw_value ->
  ToString (coalesce raw_value (VString "")) = Ok raw ->
  (cwd = None \/ (exists c, cwd = Some c /\ ~ exists rest, raw = c +:+ rest) ->
   summarizeToolUse (VString toolName) input cwd =
   Ok (toolName +:+ ": " +:+ raw)) /\
  (forall c rest, cwd = Some c -> raw = c +:+ rest ->
   exists shown,
     summarizeToolUse (VString toolName) input cwd =
     Ok (toolName +:+ ": " +:+ shown) /\
     (c = "" -> shown = raw) /\
     (c <> "" ->
      rest = "/" +:+ shown \/ (shown = rest /\ forall r, rest <> "/" +:+ r))).
Proof.
  intros Ht Hg Hs.
  rewrite (summarizeToolUse_listed _ _ _ cwd _ _ Ht Hg Hs). split.
  - intros [-> | (c & -> & Hno)]; [reflexivity|].
    unfold startsWith.
    destruct (String.prefix c raw) eqn:Hp.
    + exfalso. apply Hno. now apply prefix_split.
    + now rewrite andb_false_r.
  - intros c rest -> ->. unfold startsWith. rewrite prefix_app, andb_true_r.
    destruct (c =? "")%string eqn:Hc; simpl.
    + apply String.eqb_eq in Hc. subst c.
      exists rest. split; [reflexivity|].
      split; [reflexivity | congruence].
    + apply String.eqb_neq in Hc. rewrite slice_from_app.
      exists (strip_leading_slash rest). split; [reflexivity|].
      split; [congruence|]. intros _.
      destruct rest as [|a rest]; simpl.
      * right. split; [reflexivity | discriminate].
      * destruct (Ascii.ascii_dec a "/"%char) as [->|Hne].
        -- left. reflexivity.
        -- right. split.
           ++ destruct a as [[] [] [] [] [] [] [] []]; try reflexivity.
              congruence.
           ++ intros r Hr. injection Hr as Ha _. congruence.
Qed.

(** The end-to-end scenario of the specification: a file under the
    working directory is shown relative to it. *)
Lemma summarizeToolUse_strips_cwd_once_witness :
  summarizeToolUse (VString "Read") sample_read_input (Some "/w") =
  Ok "Read: src/app.ts".
Proof.
  destruct (summarizeToolUse_strips_cwd_once (E := integer_engine)
              "Read" "file_path" sample_read_input (Some "/w")
              (VString "/w/src/app.ts") "/w/src/app.ts"
              eq_refl eq_refl eq_refl) as [_ H].
  destruct (H "/w" "/src/app.ts" eq_refl eq_refl) as (shown & Heq & _ & Hs).
  rewrite Heq.
  destruct (Hs ltac:(discriminate)) as [Hr | [_ Hr]].
  - change ("/" +:+ shown) with (String "/" shown) in Hr.
    injection Hr as <-. reflexivity.
  - exfalso. exact (Hr "src/app.ts" eq_refl).
Defined.

(** C10. For a tool of the summary-field table, when the input is not an
    object, or the field of the table is absent ([undefined]) or [null] in
    it, [summarizeToolUse] does not raise: it returns the tool name, a colon
    and a space, with an empty value part. *)
Theorem summarizeToolUse_missing_field {E : Engine} toolName field input cwd :
  TOOL_SUMMARY_FIELDS !! toolName = Some field ->
  is_object input = false \/
  get input field = Ok VUndefined \/ get input field = Ok VNull ->
  summarizeToolUse (VString toolName) input cwd = Ok (toolName +:+ ": ").
Proof.
  intros Ht H.
  assert (Hraw : exists raw_value,
             get (if is_object input then input else VObject []) field
               = Ok raw_value /\
             coalesce raw_value (VString "") = VString "").
  { destruct (is_object input) eqn:Ho.
    - destruct H as [H | [H | H]]; [discriminate| |];
        rewrite H; eexists; split; reflexivity.
    - exists VUndefined. split; reflexivity. }
  destruct Hraw as (raw_value & Hg & Hco).
  rewrite (summarizeToolUse_listed _ _ _ cwd raw_value "" Ht Hg)
    by now rewrite Hco.
  assert (match cwd with
          | Some cwd0 =>
              if negb (cwd0 =? "")%string && startsWith "" cwd0
              then strip_leading_slash (slice_from "" (String.length cwd0))
              else ""
          | None => ""
          end = "") as ->.
  { destruct cwd as [[|c cwd]|]; reflexivity. }
  reflexivity.
Qed.

Lemma summarizeToolUse_missing_field_witness :
  summarizeToolUse (E := integer_engine) (VString "Bash") VNull (Some "/w")
  = Ok "Bash: ".
Proof.
  apply (summarizeToolUse_missing_field (E := integer_engine)
           "Bash" "command" VNull (Some "/w") eq_refl (or_introl eq_refl)).
Defined.

(** ** Messages *)

Lemma strict_eq_string_true {E : Engine} (v : value) (lit : string) :
  strict_eq_string v lit = true <-> v = VString lit.
Proof.
  destruct v; simpl; try (split; [discriminate | congruence]).
  rewrite String.eqb_eq. split; congruence.
Qed.

Lemma strict_eq_string_other {E : Engine} (a b : string) :
  a <> b -> strict_eq_string (VString a) b = false.
Proof. intros H. now apply String.eqb_neq. Qed.


(** A recognized tag does not make the translator total either: a result
    message without subtype and without errors raises. *)
Lemma processAgentMessage_bare_result_raises :
  processAgentMessage (E := integer_engine) sample_clock
    (VObject [("type", VString "result")]) None =
  Throw (TypeError "Cannot read properties of null or undefined (reading 'slice')").
Proof. reflexivity. Qed.



(** C8. A message of type result whose subtype is a string other than
    success, and whose structured errors are a list of strings (or absent),
    yields exactly one error activity and an errorMessage. The errorMessage
    is the list of structured error messages joined with a semicolon and a
    space when that list is not empty, and the subtype otherwise; the summary
    is "Agent error: " followed by the first 200 characters, at most, of the
    errorMessage. *)
Theorem processAgentMessage_error_result {E : Engine}
    (Date_now : nat -> Z) (message : value) (cwd : option string)
    (sub : string) (errors : value) (msgs : list string) :
  get message "type" = Ok (VString "result") ->
  get message "subtype" = Ok (VString sub) ->
  sub <> "success" ->
  get message "errors" = Ok errors ->
  errors = VArray (map VString msgs) \/ (nullish errors = true /\ msgs = []) ->
  let errorMessage :=
    match msgs with
    | [] => sub
    | _ :: _ => String.concat "; " msgs
    end in
  processAgentMessage Date_now message cwd =
  Ok {| activities :=
          [ {| timestamp := Date_now 0%nat; type := Error;
               summary := VString ("Agent error: " +:+ substring 0 200 errorMessage);
               detail := None; isSubagent := None |} ];
        sessionId := None; successResult := None;
        errorMessage := Some (VString errorMessage) |} /\
  (String.length (substring 0 200 errorMessage) <= 200)%nat.
Proof.
  intros Ht Hst Hsub He Herr errorMessage.
  split; [|apply substring_length_le].
  pose proof (get_not_nullish _ _ _ Ht) as Hn.
  destruct (get_total message "message" Hn) as [m Hm].
  unfold processAgentMessage.
  rewrite Ht; cbn [mbind result_bind]. rewrite Hst; cbn [mbind result_bind].
  cbn [strict_eq_string String.eqb Ascii.eqb Bool.eqb andb].
  rewrite Hm; cbn [mbind result_bind].
  rewrite (strict_eq_string_other sub "success" Hsub).
  rewrite He; cbn [mbind result_bind].
  destruct Herr as [-> | [Hnull ->]].
  - cbn [nullish get String.eqb Ascii.eqb Bool.eqb mbind result_bind ToBoolean].
    rewrite Number_truthy_of_nat, length_map.
    destruct msgs as [|m0 msgs]; cbn [length Nat.eqb negb].
    + reflexivity.
    + cbn [join mbind result_bind]. rewrite join_elements_strings.
      reflexivity.
  - rewrite Hnull. reflexivity.
Qed.

Lemma processAgentMessage_error_result_witness :
  processAgentMessage sample_clock sample_error_result None =
  Ok {| activities :=
          [ {| timestamp := 1700000000000; type := Error;
               summary := VString "Agent error: tool crashed; budget exceeded";
               detail := None; isSubagent := None |} ];
        sessionId := None; successResult := None;
        errorMessage := Some (VString "tool crashed; budget exceeded") |}.
Proof.
  apply (proj1 (processAgentMessage_error_result (E := integer_engine)
                  sample_clock sample_error_result None
                  "error_during_execution"
                  (VArray [VString "tool crashed"; VString "budget exceeded"])
                  ["tool crashed"; "budget exceeded"]
                  eq_refl eq_refl ltac:(discriminate) eq_refl
                  (or_introl eq_refl))).
Defined.

End ActivityProps.

(* ================================================================== *)
(** * Properties of the worktree manager *)
(* ================================================================== *)

Module WorktreeProps.
Import JS Worktree.

Lemma commands_app {H : Host} (a b : list entry) :
  commands (a ++ b) = commands a ++ commands b.
Proof. unfold commands. apply omap_app. Qed.

Lemma warnings_app {H : Host} (a b : list entry) :
  warnings (a ++ b) = warnings a ++ warnings b.
Proof. unfold warnings. apply omap_app. Qed.

(** ** Stepping through code that may throw *)

Lemma io_bind_Ok {H : Host} {A B} (mm : io A) (f : A -> io B) st a st1 :
  mm st = (Ok a, st1) -> (mm ≫= f) st = f a st1.
Proof. intros E. unfold mbind, io_bind. now rewrite E. Qed.

Lemma io_bind_Throw {H : Host} {A B} (mm : io A) (f : A -> io B) st e st1 :
  mm st = (Throw e, st1) -> (mm ≫= f) st = (Throw e, st1).
Proof. intros E. unfold mbind, io_bind. now rewrite E. Qed.

(** What [gitSync] does to the machine and the journal when the child
    starts, and when it does not. *)
Lemma gitSync_run {H : Host} projectPath args m journal outcome m1 :
  spawnSync ("git" :: args) projectPath m = (Ok outcome, m1) ->
  gitSync projectPath args (m, journal) =
  (Ok (if negb (exitCode outcome =? 0)
       then Some (trim (stderr outcome)) else None),
   (m1, journal ++ [Ran ("git" :: args) projectPath outcome])).
Proof.
  intros E. unfold gitSync.
  erewrite io_bind_Ok by (unfold Bun_spawnSync; rewrite E; reflexivity).
  now destruct (negb (exitCode outcome =? 0)).
Qed.

Lemma gitSync_throws {H : Host} projectPath args m journal e m1 :
  spawnSync ("git" :: args) projectPath m = (Throw e, m1) ->
  gitSync projectPath args (m, journal) =
  (Throw e, (m1, journal ++ [NotStarted ("git" :: args) projectPath e])).
Proof.
  intros E. unfold gitSync.
  apply io_bind_Throw. unfold Bun_spawnSync. now rewrite E.
Qed.

Lemma gitPrune_run {H : Host} projectPath m journal outcome m1 :
  spawnSync ["git"; "worktree"; "prune"] projectPath m = (Ok outcome, m1) ->
  gitPrune projectPath (m, journal) =
  (Ok tt, (m1, journal ++ [Ran ["git"; "worktree"; "prune"] projectPath outcome])).
Proof.
  intros E. unfold gitPrune.
  erewrite io_bind_Ok by (apply gitSync_run; exact E). reflexivity.
Qed.

(** A conditional warning. *)
Lemma warn_if_run {H : Host} (cond : bool) line m journal :
  (if cond then warn line else mret tt) (m, journal) =
  (Ok tt, (m, journal ++ if cond then [Warned line] else [])).
Proof.
  destruct cond; [reflexivity|]. cbn. now rewrite app_nil_r.
Qed.

(** [if (err)] on what [gitSync] returned for an exited child: the child
    failed and printed something other than white space. *)
Lemma truthy_gitSync_error (outcome : SyncSubprocess) :
  truthy (if negb (exitCode outcome =? 0)
          then Some (trim (stderr outcome)) else None) =
  negb (exitCode outcome =? 0) && negb (trim (stderr outcome) =? "")%string.
Proof. now destruct (exitCode outcome =? 0). Qed.

Lemma default_gitSync_error (outcome : SyncSubprocess) :
  negb (exitCode outcome =? 0) && negb (trim (stderr outcome) =? "")%string
    = true ->
  default "" (if negb (exitCode outcome =? 0)
              then Some (trim (stderr outcome)) else None)
  = trim (stderr outcome).
Proof. now destruct (exitCode outcome =? 0). Qed.

(** ** A removal whose commands start

    When git can be started for the forced removal, for the prune and, unless
    the branch is kept, for the branch deletion, [removeWorktree] returns
    whatever these commands answer. The journal holds, in this order, the
    info line, the removal, a warning exactly when the removal exited
    non-zero with a stderr that is not blank, the prune (whose failure is
    not reported) and, unless the branch is kept, the deletion of
    worktree-<name> followed by a warning under the same condition. The
    machine is the one the last command left. *)
Lemma removeWorktree_run {H : Host}
    (projectPath name : string) (opts : option RemoveOptions)
    (m : machine) (journal : list entry)
    (o1 o2 o3 : SyncSubprocess) (m1 m2 m3 : machine) :
  let wtPath := worktreePath projectPath name in
  let branch := "worktree-" +:+ name in
  let reported (o : SyncSubprocess) :=
    negb (exitCode o =? 0) && negb (trim (stderr o) =? "")%string in
  let removal := ["git"; "worktree"; "remove"; wtPath; "--force"] in
  let prune := ["git"; "worktree"; "prune"] in
  let deletion := ["git"; "branch"; "-D"; branch] in
  spawnSync removal projectPath m = (Ok o1, m1) ->
  spawnSync prune projectPath m1 = (Ok o2, m2) ->
  (keepBranch_set opts = false ->
   spawnSync deletion projectPath m2 = (Ok o3, m3)) ->
  removeWorktree projectPath name opts (m, journal) =
  (Ok tt,
   (if keepBranch_set opts then m2 else m3,
    journal
    ++ [Info ("Removing worktree: " +:+ name); Ran removal projectPath o1]
    ++ (if reported o1
        then [Warned ("Failed to remove worktree '" +:+ name +:+ "': "
                      +:+ trim (stderr o1))]
        else [])
    ++ [Ran prune projectPath o2]
    ++ (if keepBranch_set opts then []
        else Ran deletion projectPath o3
             :: (if reported o3
                 then [Warned ("Failed to delete branch '" +:+ branch +:+ "': "
                               +:+ trim (stderr o3))]
                 else [])))).
Proof.
  intros wtPath branch reported removal prune deletion E1 E2 E3.
  unfold removeWorktree. cbv zeta. fold wtPath.
  erewrite io_bind_Ok by reflexivity.
  erewrite io_bind_Ok by (apply gitSync_run; exact E1).
  erewrite io_bind_Ok by apply warn_if_run.
  erewrite io_bind_Ok by (apply gitPrune_run; exact E2).
  rewrite truthy_gitSync_error. fold (reported o1).
  assert (W1 : (if reported o1
                then [Warned ("Failed to remove worktree '" +:+ name +:+ "': "
                              +:+ default "" (if negb (exitCode o1 =? 0)
                                              then Some (trim (stderr o1))
                                              else None))]
                else [])
               = (if reported o1
                  then [Warned ("Failed to remove worktree '" +:+ name +:+ "': "
                                +:+ trim (stderr o1))]
                  else [])).
  { destruct (reported o1) eqn:R; [|reflexivity].
    now rewrite default_gitSync_error. }
  rewrite W1.
  destruct (keepBranch_set opts) eqn:K; cbn [negb].
  - cbn. rewrite <- !app_assoc. reflexivity.
  - erewrite io_bind_Ok by (apply gitSync_run; apply E3; reflexivity).
    rewrite warn_if_run, truthy_gitSync_error. fold (reported o3).
    fold branch.
    assert (W3 : (if reported o3
                  then [Warned ("Failed to delete branch '" +:+ branch +:+ "': "
                                +:+ default "" (if negb (exitCode o3 =? 0)
                                                then Some (trim (stderr o3))
                                                else None))]
                  else [])
                 = (if reported o3
                    then [Warned ("Failed to delete branch '" +:+ branch
                                  +:+ "': " +:+ trim (stderr o3))]
                    else [])).
    { destruct (reported o3) eqn:R; [|reflexivity].
      now rewrite default_gitSync_error. }
    rewrite W3. rewrite <- !app_assoc. reflexivity.
Qed.

(** ** A removal whose first command cannot be started

    [removeWorktree] catches nothing: when [Bun.spawnSync] throws for the
    forced removal, that exception leaves [removeWorktree] and no further
    command is attempted. *)
Lemma removeWorktree_throws {H : Host}
    (projectPath name : string) (opts : option RemoveOptions)
    (m : machine) (journal : list entry) (e : exn) (m1 : machine) :
  spawnSync ["git"; "worktree"; "remove"; worktreePath projectPath name; "--force"]
    projectPath m = (Throw e, m1) ->
  removeWorktree projectPath name opts (m, journal) =
  (Throw e,
   (m1, journal
        ++ [Info ("Removing worktree: " +:+ name);
            NotStarted ["git"; "worktree"; "remove";
                        worktreePath projectPath name; "--force"]
              projectPath e])).
Proof.
  intros E. unfold removeWorktree. cbv zeta.
  erewrite io_bind_Ok by reflexivity.
  erewrite io_bind_Throw by (apply gitSync_throws; exact E).
  now rewrite <- app_assoc.
Qed.

(** On a host where every git command fails, the removal still returns;
    the journal holds the three commands and a warning for each of the two
    whose failure is reported. *)
Lemma removeWorktree_on_failing_host :
  removeWorktree (H := failing_host) "/repo" "eng-12" None (0%nat, []) =
  (Ok tt,
   (3%nat,
    [ Info "Removing worktree: eng-12";
      Ran ["git"; "worktree"; "remove"; "/repo/.claude/worktrees/eng-12"; "--force"]
        "/repo"
        {| exitCode := 128; stderr := "fatal: not a git repository" +:+ nl |};
      Warned "Failed to remove worktree 'eng-12': fatal: not a git repository";
      Ran ["git"; "worktree"; "prune"] "/repo"
        {| exitCode := 128; stderr := "fatal: not a git repository" +:+ nl |};
      Ran ["git"; "branch"; "-D"; "worktree-eng-12"] "/repo"
        {| exitCode := 128; stderr := "fatal: not a git repository" +:+ nl |};
      Warned "Failed to delete branch 'worktree-eng-12': fatal: not a git repository" ])).
Proof.
  apply (removeWorktree_run (H := failing_host) "/repo" "eng-12" None 0%nat []
           _ _ _ 1%nat 2%nat 3%nat eq_refl eq_refl (fun _ => eq_refl)).
Qed.

(** C5. [removeWorktree] is documented as never throwing, and has no
    handler around [Bun.spawnSync]: when the project directory does not
    exist, git cannot be started for the forced removal, the exception of
    [Bun.spawnSync] leaves [removeWorktree], and neither the prune nor the
    branch deletion is attempted. *)
Theorem removeWorktree_throws_when_git_cannot_start :
  removeWorktree (H := missing_directory_host "/gone") "/gone" "eng-12" None
    (0%nat, []) =
  (Throw (PlainError "ENOENT: no such file or directory, posix_spawn 'git'"),
   (1%nat,
    [ Info "Removing worktree: eng-12";
      NotStarted
        ["git"; "worktree"; "remove"; "/gone/.claude/worktrees/eng-12"; "--force"]
        "/gone"
        (PlainError "ENOENT: no such file or directory, posix_spawn 'git'") ])).
Proof. reflexivity. Qed.

End WorktreeProps.

(* ================================================================== *)
(** * Properties of the template renderer *)
(* ================================================================== *)

Module PromptProps.
Import JS Prompt.

(** The cases of the repository's test suite for [renderPrompt]. *)
Example renderPrompt_repository_tests :
  renderPrompt "Hello {{NAME}}" [("NAME", "World")] = "Hello World" /\
  renderPrompt "{{A}} + {{B}}" [("A", "foo"); ("B", "bar")] = "foo + bar" /\
  renderPrompt "{{X}} and {{X}}" [("X", "hi")] = "hi and hi" /\
  renderPrompt "{{MISSING}} text" [] = "{{MISSING}} text" /\
  renderPrompt "" [("FOO", "bar")] = "" /\
  renderPrompt "Cost: {{AMOUNT}}" [("AMOUNT", "$1.00")] = "Cost: $1.00" /\
  renderPrompt "{{KEY}}" [("KEY", "foo" +:+ nl +:+ "## EVIL" +:+ nl +:+ "bar")]
    = "foo ## EVIL bar" /\
  renderPrompt "{{KEY}}" [("KEY", "foo" +:+ String CR nl +:+ "bar")] = "foo bar" /\
  renderPrompt "{{KEY}}" [("KEY", "## Heading value")] = "Heading value" /\
  renderPrompt "{{KEY}}" [("KEY", "My Project (v2)")] = "My Project (v2)".
Proof. repeat split; reflexivity. Qed.

(** Rendering with more entries continues from the string rendered so
    far. *)
Lemma renderPrompt_app template vars1 vars2 :
  renderPrompt template (vars1 ++ vars2) =
  renderPrompt (renderPrompt template vars1) vars2.
Proof. unfold renderPrompt. apply fold_left_app. Qed.


End PromptProps.

(* ================================================================== *)
(** * Further properties of the review-status poller *)
(* ================================================================== *)

Module GitHubMore.
Import GitHub GitHubSamples GitHubProps.

(** ** The client *)

(** X1. Once [getGitHubClient] has returned a client, that client is the
    cached one, and every later call returns it again and leaves the cache
    alone, whatever the token has become meanwhile. *)
Theorem getGitHubClient_cached token _client c cache :
  getGitHubClient token _client = (inr c, cache) ->
  cache = Some c /\
  forall token', getGitHubClient token' cache = (inr c, cache).
Proof.
  unfold getGitHubClient.
  destruct _client as [c0|].
  - intros [= <- <-]. split; [reflexivity|]. intros token'. reflexivity.
  - destruct token as [[|a t]|]; intros [= <- <-].
    split; [reflexivity|]. intros token'. reflexivity.
Qed.

Lemma getGitHubClient_cached_witness :
  getGitHubClient None (Some {| auth := "ghp_token" |}) =
  (inr {| auth := "ghp_token" |}, Some {| auth := "ghp_token" |}).
Proof.
  apply (proj2 (getGitHubClient_cached (Some "ghp_token") None
                  {| auth := "ghp_token" |} (Some {| auth := "ghp_token" |})
                  eq_refl) None).
Defined.

(** X2. [getGitHubClient] throws exactly when no client is cached and the
    token is unset or empty; the cache is then still empty. *)
Theorem getGitHubClient_throws_iff token _client :
  (exists e, fst (getGitHubClient token _client) = inl e) <->
  _client = None /\ (token = None \/ token = Some "").
Proof.
  unfold getGitHubClient. split.
  - intros [e He]. destruct _client as [c|]; [discriminate|].
    split; [reflexivity|].
    destruct token as [[|a t]|]; [right | discriminate | left]; reflexivity.
  - intros [-> [-> | ->]]; eexists; reflexivity.
Qed.

Section Runs.
Context {S : Type} (w : world S).


(** X4. In the revision without the retry executor, an error answer to
    [pulls.get] rejects [getPRStatus] with that very error after this one
    request; CI is not queried. *)
Theorem Settled_getPRStatus_pull_error
    token _client octokit owner repo prNumber (s0 s1 : S) e :
  fst (getGitHubClient token _client) = inr octokit ->
  respond w (pulls_get octokit owner repo prNumber) s0 = (inl e, s1) ->
  run w (Settled.getPRStatus token _client owner repo prNumber) s0 =
  (inl e, s1, [Asked (pulls_get octokit owner repo prNumber) (inl e)]).
Proof.
  intros Hc Hr. unfold Settled.getPRStatus. rewrite Hc.
  rewrite run_mbind, run_call, Hr. reflexivity.
Qed.

(** X5. In the same revision, on an unmerged pull request both CI sources
    are queried for the head commit, and an error answer from exactly one of
    them rejects [getPRStatus] with that error: no verdict is built from
    the other source alone. *)
Theorem Settled_getPRStatus_ci_error
    token _client octokit owner repo prNumber (s0 s1 s2 s3 : S) pr
    (status_answer : error + combined_status)
    (checks_answer : error + check_list) e :
  fst (getGitHubClient token _client) = inr octokit ->
  respond w (pulls_get octokit owner repo prNumber) s0 = (inr pr, s1) ->
  pull_merged pr = false ->
  respond w (repos_getCombinedStatusForRef octokit owner repo (head_sha pr)) s1
    = (status_answer, s2) ->
  respond w (checks_listForRef octokit owner repo (head_sha pr)) s2
    = (checks_answer, s3) ->
  (status_answer = inl e /\ exists cr, checks_answer = inr cr) \/
  (checks_answer = inl e /\ exists sr, status_answer = inr sr) ->
  run w (Settled.getPRStatus token _client owner repo prNumber) s0 =
  (inl e, s3,
   [Asked (pulls_get octokit owner repo prNumber) (inr pr);
    Asked (repos_getCombinedStatusForRef octokit owner repo (head_sha pr))
      status_answer;
    Asked (checks_listForRef octokit owner repo (head_sha pr)) checks_answer]).
Proof.
  intros Hc Hpr Hm Hs Hk Hone. unfold Settled.getPRStatus. rewrite Hc.
  rewrite run_mbind, run_call, Hpr, Hm.
  rewrite run_mbind. unfold Promise_all2.
  rewrite run_mbind, run_settle, run_call, Hs.
  rewrite run_mbind, run_settle, run_call, Hk.
  destruct Hone as [[-> [cr ->]] | [-> [sr ->]]]; reflexivity.
Qed.

(** X6. The settle-gated revision returns a merged pull request as merged
    with verdict success and empty details after the single request that
    fetched it. *)
Theorem Settled_getPRStatus_merged
    token _client octokit owner repo prNumber (s0 s1 : S) pr :
  fst (getGitHubClient token _client) = inr octokit ->
  respond w (pulls_get octokit owner repo prNumber) s0 = (inr pr, s1) ->
  pull_merged pr = true ->
  run w (Settled.getPRStatus token _client owner repo prNumber) s0 =
  (inr {| merged := true; mergeable := None; branch := head_ref pr;
          ciStatus := CiSuccess; ciDetails := "" |}, s1,
   [Asked (pulls_get octokit owner repo prNumber) (inr pr)]).
Proof.
  intros Hc Hpr Hm. unfold Settled.getPRStatus. rewrite Hc.
  rewrite run_mbind, run_call, Hpr, Hm. reflexivity.
Qed.

End Runs.


Lemma Settled_getPRStatus_pull_error_witness :
  run (scripted_world (inl not_found) (inr legacy_none) (inr checks_all_done))
    (Settled.getPRStatus None client0 "acme" "app" 7) 0%nat =
  (inl not_found, 1%nat,
   [Asked (pulls_get {| auth := "ghp_token" |} "acme" "app" 7)
      (inl not_found)]).
Proof.
  apply (Settled_getPRStatus_pull_error
           (scripted_world (inl not_found) (inr legacy_none)
              (inr checks_all_done))
           None client0 {| auth := "ghp_token" |} "acme" "app" 7
           0%nat 1%nat not_found eq_refl eq_refl).
Defined.

Lemma Settled_getPRStatus_ci_error_witness :
  fst (fst (run (scripted_world (inr open_pull) (inr legacy_none)
                   (inl not_found))
              (Settled.getPRStatus None client0 "acme" "app" 7) 0%nat))
  = inl not_found.
Proof.
  rewrite (Settled_getPRStatus_ci_error
             (scripted_world (inr open_pull) (inr legacy_none) (inl not_found))
             None client0 {| auth := "ghp_token" |} "acme" "app" 7
             0%nat 1%nat 2%nat 3%nat open_pull
             (inr legacy_none) (inl not_found) not_found
             eq_refl eq_refl eq_refl eq_refl eq_refl
             (or_intror (conj eq_refl (ex_intro _ legacy_none eq_refl)))).
  reflexivity.
Defined.

Lemma Settled_getPRStatus_merged_witness :
  run (scripted_world (inr merged_pull) (inl not_found) (inl not_found))
    (Settled.getPRStatus None client0 "acme" "app" 7) 0%nat =
  (inr {| merged := true; mergeable := None; branch := "worktree-eng-12";
          ciStatus := CiSuccess; ciDetails := "" |}, 1%nat,
   [Asked (pulls_get {| auth := "ghp_token" |} "acme" "app" 7)
      (inr merged_pull)]).
Proof.
  apply (Settled_getPRStatus_merged
           (scripted_world (inr merged_pull) (inl not_found) (inl not_found))
           None client0 {| auth := "ghp_token" |} "acme" "app" 7
           0%nat 1%nat merged_pull eq_refl eq_refl eq_refl).
Defined.

(** ** Verdicts and details *)

(** X7. The verdict of the settle-gated revision on an unmerged pull
    request: pending exactly when a legacy entry is pending or a check is
    not completed; otherwise failure exactly when the legacy aggregate is
    failure or error or a check concluded failure or timed_out; otherwise
    success, whatever the legacy aggregate and the other conclusions
    are. *)
Theorem Settled_getPRStatus_verdict {S} (w : world S)
    token _client octokit owner repo prNumber
    s0 pr s1 t1 sr s2 t2 cr s3 t3 :
  fst (getGitHubClient token _client) = inr octokit ->
  run w (call (pulls_get octokit owner repo prNumber)) s0 = (inr pr, s1, t1) ->
  pull_merged pr = false ->
  run w (call (repos_getCombinedStatusForRef octokit owner repo (head_sha pr)))
    s1 = (inr sr, s2, t2) ->
  run w (call (checks_listForRef octokit owner repo (head_sha pr)))
    s2 = (inr cr, s3, t3) ->
  let unsettled :=
    Exists (fun s => status_state s = "pending") (statuses sr) \/
    Exists (fun c => check_status c <> "completed") (check_runs cr) in
  let failed :=
    combined_state sr = "failure" \/ combined_state sr = "error" \/
    Exists (fun c => check_conclusion c = Some "failure" \/
                     check_conclusion c = Some "timed_out") (check_runs cr) in
  exists st,
    run w (Settled.getPRStatus token _client owner repo prNumber) s0 =
      (inr st, s3, t1 ++ t2 ++ t3) /\
    (ciStatus st = CiPending <-> unsettled) /\
    (ciStatus st = CiFailure <-> ~ unsettled /\ failed) /\
    (ciStatus st = CiSuccess <-> ~ unsettled /\ ~ failed).
Proof.
  intros Hc Hpr Hm Hsr Hcr unsettled failed.
  exists (Settled.aggregate pr sr cr). split.
  - eapply Settled_run_unmerged; eassumption.
  - assert (Hun : forallb (fun s => negb (status_state s =? "pending")%string)
                    (statuses sr)
                  && forallb check_completed (check_runs cr) = false
                  <-> unsettled).
    { unfold unsettled. rewrite andb_false_iff.
      assert (A1 : forallb (fun s => negb (status_state s =? "pending")%string)
                     (statuses sr) = false
                   <-> Exists (fun s => status_state s = "pending") (statuses sr)).
      { induction (statuses sr) as [|x l IH]; simpl.
        - split; [discriminate | intros H; inversion H].
        - rewrite andb_false_iff, IH, Exists_cons, negb_false_iff,
            String.eqb_eq. tauto. }
      assert (A2 : forallb check_completed (check_runs cr) = false
                   <-> Exists (fun c => check_status c <> "completed")
                         (check_runs cr)).
      { induction (check_runs cr) as [|x l IH]; simpl.
        - split; [discriminate | intros H; inversion H].
        - rewrite andb_false_iff, IH, Exists_cons.
          unfold check_completed. rewrite String.eqb_neq. tauto. }
      rewrite A1, A2. tauto. }
    assert (Hf : (combined_state sr =? "failure")%string
                 || (combined_state sr =? "error")%string
                 || existsb check_failed (check_runs cr) = true
                 <-> failed).
    { unfold failed.
      rewrite !orb_true_iff, !String.eqb_eq, existsb_Exists, !Exists_exists.
      split.
      - intros [[H|H]|(c & Hin & H)]; auto.
        right; right. exists c. split; auto. now apply check_failed_iff.
      - intros [H|[H|(c & Hin & H)]]; auto.
        right. exists c. split; auto. now apply check_failed_iff. }
    rewrite Settled_verdict.
    destruct (forallb _ (statuses sr) && forallb _ (check_runs cr)) eqn:E1;
      cbn [negb].
    + assert (~ unsettled) by (rewrite <- Hun; discriminate).
      destruct (_ || _ || _) eqn:E2.
      * assert failed by now apply Hf.
        split; [|split]; (split; [try discriminate|]); tauto.
      * assert (~ failed) by (rewrite <- Hf; discriminate).
        split; [|split]; (split; [try discriminate|]); tauto.
    + assert unsettled by now apply Hun.
      split; [|split]; (split; [try discriminate|]); tauto.
Qed.

(** Checks-only repositories: no legacy status (aggregate pending), every
    check completed and none failed gives success here, where the
    retry-wrapped revision stays pending. *)
Lemma Settled_getPRStatus_verdict_witness :
  exists st,
    fst (fst (run (scripted_world (inr open_pull) (inr legacy_none)
                     (inr checks_all_done))
                (Settled.getPRStatus None client0 "acme" "app" 7) 0%nat))
      = inr st /\
    ciStatus st = CiSuccess /\
    ciStatus (Retrying.aggregate open_pull legacy_none checks_all_done)
      = CiPending.
Proof.
  destruct (Settled_getPRStatus_verdict
              (scripted_world (inr open_pull) (inr legacy_none)
                 (inr checks_all_done))
              None client0 {| auth := "ghp_token" |} "acme" "app" 7
              0%nat open_pull 1%nat _ legacy_none 2%nat _
              checks_all_done 3%nat _
              eq_refl eq_refl eq_refl eq_refl eq_refl)
    as (st & Hrun & _ & _ & Hs).
  exists st. split; [rewrite Hrun; reflexivity|].
  split; [|reflexivity].
  vm_compute in Hrun. injection Hrun as <-. reflexivity.
Defined.

(** X8. In both revisions the detail text of an unmerged pull request is
    empty exactly when the verdict is not failure. *)
Theorem ciDetails_empty_iff pr sr cr :
  (ciDetails (Retrying.aggregate pr sr cr) = "" <->
   ciStatus (Retrying.aggregate pr sr cr) <> CiFailure) /\
  (ciDetails (Settled.aggregate pr sr cr) = "" <->
   ciStatus (Settled.aggregate pr sr cr) <> CiFailure).
Proof.
  assert (Hne : forall lines : list string,
             Forall (fun x => x <> "") lines ->
             String.concat nl
               (match lines with [] => [FALLBACK_DETAIL] | _ :: _ => lines end)
             <> "").
  { intros lines Hall. apply concat_nonempty.
    - destruct lines; discriminate.
    - destruct lines; [repeat constructor; discriminate | exact Hall]. }
  assert (Hlines : forall a b,
             Forall (fun x => x <> "")
               (map status_detail a ++ map check_detail b)).
  { intros a b. apply Forall_app. split; apply Forall_map, Forall_forall;
      intros x _; [apply status_detail_nonempty | apply check_detail_nonempty]. }
  split.
  - destruct (CiStatus_eq_dec (ciStatus (Retrying.aggregate pr sr cr)) CiFailure)
      as [Hf|Hf].
    + split; [|tauto]. intros Hd. exfalso.
      rewrite (Retrying_details pr sr cr Hf) in Hd. revert Hd. apply Hne.
      destruct (combined_state sr =? "failure")%string;
        [apply Hlines | apply (Hlines [])].
    + split; [tauto|]. intros _. revert Hf.
      rewrite Retrying_verdict. unfold Retrying.aggregate. fold checks_pass.
      destruct (combined_state sr =? "failure")%string; [simpl; tauto|].
      simpl. destruct (existsb check_failed (check_runs cr)); [tauto|].
      intros _. destruct (_ && _ && _); reflexivity.
  - destruct (CiStatus_eq_dec (ciStatus (Settled.aggregate pr sr cr)) CiFailure)
      as [Hf|Hf].
    + split; [|tauto]. intros Hd. exfalso.
      rewrite (Settled_details pr sr cr Hf) in Hd. revert Hd. apply Hne.
      apply Hlines.
    + split; [tauto|]. intros _. revert Hf.
      rewrite Settled_verdict. unfold Settled.aggregate.
      destruct (negb _); [reflexivity|].
      destruct (_ || _ || _); [tauto | reflexivity].
Qed.

End GitHubMore.

(* ================================================================== *)
(** * Properties of repository detection *)
(* ================================================================== *)

Module RemoteProps.
Import JS Remote.

(** ** Strings as lists of code units *)

Lemma append_cons (c : ascii) (s t : string) :
  String c s +:+ t = String c (s +:+ t).
Proof. reflexivity. Qed.

Lemma append_nil (t : string) : "" +:+ t = t.
Proof. reflexivity. Qed.

Lemma append_assoc (a b c : string) : (a +:+ b) +:+ c = a +:+ (b +:+ c).
Proof.
  induction a as [|x a IH]; [reflexivity|].
  rewrite !append_cons. now rewrite IH.
Qed.

Lemma prefix_nil (s : string) : String.prefix "" s = true.
Proof. now destruct s. Qed.

Lemma prefix_cons_ne (p : string) (a c : ascii) (s : string) :
  a <> c -> String.prefix (String a p) (String c s) = false.
Proof.
  intros H. simpl. destruct (Ascii.ascii_dec a c); [contradiction | reflexivity].
Qed.

Lemma prefix_cons_eq (p : string) (c : ascii) (s : string) :
  String.prefix (String c p) (String c s) = String.prefix p s.
Proof.
  simpl. destruct (Ascii.ascii_dec c c); [reflexivity | contradiction].
Qed.

Lemma prefix_exact (p s : string) :
  String.prefix p s = true -> exists rest, s = p +:+ rest.
Proof.
  revert s; induction p as [|c p IH]; intros s H.
  - exists s. reflexivity.
  - destruct s as [|d s]; simpl in H; [discriminate|].
    destruct (Ascii.ascii_dec c d) as [->|]; [|discriminate].
    destruct (IH s H) as [rest ->]. exists rest. reflexivity.
Qed.

Lemma prefix_app_local (p rest : string) : String.prefix p (p +:+ rest) = true.
Proof.
  induction p as [|c p IH]; [apply prefix_nil|].
  rewrite append_cons, prefix_cons_eq. exact IH.
Qed.

Lemma prefix_shorter (a b s : string) :
  String.prefix (a +:+ b) s = true -> String.prefix a s = true.
Proof.
  revert s; induction a as [|c a IH]; intros s H.
  - now destruct s.
  - rewrite append_cons in H. destruct s as [|d s]; simpl in *; [discriminate|].
    destruct (Ascii.ascii_dec c d); [auto | discriminate].
Qed.

Lemma append_empty_r_local (s : string) : s +:+ "" = s.
Proof.
  induction s as [|c s IH]; [reflexivity|]. rewrite append_cons. now rewrite IH.
Qed.

(** A string without the code unit [c]. *)
Lemma includes_char_cons (c a : ascii) (s : string) :
  includes (String a s) (String c "") = false ->
  a <> c /\ includes s (String c "") = false.
Proof.
  cbn [includes]. intros [Hp Hi]%orb_false_iff. split; [|exact Hi].
  intros ->. rewrite prefix_cons_eq in Hp. destruct s; discriminate.
Qed.

Lemma span_stops (p : ascii -> bool) (c : ascii) (a t : string) :
  (forall x s', a = String x s' -> True) ->
  p c = false ->
  (forall x, In x (list_ascii_of_string a) -> p x = true) ->
  span p (a +:+ String c t) = (a, String c t).
Proof.
  intros _ Hc. induction a as [|x a IH]; intros Hall.
  - rewrite append_nil. cbn [span]. now rewrite Hc.
  - rewrite append_cons. cbn [span].
    rewrite (Hall x) by (left; reflexivity).
    rewrite IH; [reflexivity|]. intros y Hy. apply Hall. right. exact Hy.
Qed.

Lemma span_all (p : ascii -> bool) (a : string) :
  (forall x, In x (list_ascii_of_string a) -> p x = true) ->
  span p a = (a, "").
Proof.
  induction a as [|x a IH]; intros Hall; [reflexivity|].
  cbn [span]. rewrite (Hall x) by (left; reflexivity).
  rewrite IH; [reflexivity|]. intros y Hy. apply Hall. right. exact Hy.
Qed.

Lemma no_char_all (c : ascii) (s : string) :
  includes s (String c "") = false ->
  forall x, In x (list_ascii_of_string s) -> x <> c.
Proof.
  induction s as [|a s IH]; intros H x Hx; [destruct Hx|].
  apply includes_char_cons in H as [Ha Hs].
  destruct Hx as [<-|Hx]; [exact Ha | now apply IH].
Qed.

Lemma not_slash_of (s : string) :
  includes s "/" = false ->
  forall x, In x (list_ascii_of_string s) -> not_slash x = true.
Proof.
  intros H x Hx. unfold not_slash. apply negb_true_iff, Ascii.eqb_neq.
  now apply (no_char_all "/" s).
Qed.

Lemma not_slash_or_dot_of (s : string) :
  includes s "/" = false -> includes s "." = false ->
  forall x, In x (list_ascii_of_string s) -> not_slash_or_dot x = true.
Proof.
  intros H1 H2 x Hx. unfold not_slash_or_dot.
  apply andb_true_iff; split; apply negb_true_iff, Ascii.eqb_neq.
  - now apply (no_char_all "/" s).
  - now apply (no_char_all "." s).
Qed.

(** ** Splitting at slashes *)

Lemma split_slash_piece (cur : list ascii) (a rest : string) :
  includes a "/" = false ->
  split_from "/" 0 cur (a +:+ String "/" rest) =
  string_of_list_ascii (rev cur ++ list_ascii_of_string a)
  :: split_from "/" 0 [] rest.
Proof.
  revert cur; induction a as [|c a IH]; intros cur H.
  - rewrite append_nil. cbn [split_from list_ascii_of_string].
    rewrite prefix_cons_eq, prefix_nil. cbn. now rewrite app_nil_r.
  - apply includes_char_cons in H as [Hc Ha].
    rewrite append_cons. cbn [split_from].
    rewrite prefix_cons_ne by congruence.
    rewrite IH by exact Ha. cbn [rev list_ascii_of_string].
    now rewrite <- app_assoc.
Qed.

Lemma split_slash_last (cur : list ascii) (a : string) :
  includes a "/" = false ->
  split_from "/" 0 cur a =
  [string_of_list_ascii (rev cur ++ list_ascii_of_string a)].
Proof.
  revert cur; induction a as [|c a IH]; intros cur H.
  - cbn. now rewrite app_nil_r.
  - apply includes_char_cons in H as [Hc Ha].
    cbn [split_from]. rewrite prefix_cons_ne by congruence.
    rewrite IH by exact Ha. cbn [rev list_ascii_of_string].
    now rewrite <- app_assoc.
Qed.

Lemma split_slash_head (a tail : string) :
  includes a "/" = false ->
  tail = "" \/ (exists t, tail = String "/" t) ->
  head (split (a +:+ tail) "/") = Some a.
Proof.
  intros Ha [-> | [t ->]]; unfold split.
  - rewrite append_empty_r_local.
    rewrite split_slash_last by exact Ha. cbn.
    now rewrite string_of_list_ascii_of_string.
  - rewrite split_slash_piece by exact Ha. cbn.
    now rewrite string_of_list_ascii_of_string.
Qed.

(** ** The two regular expressions *)

Lemma slice_from_zero (s : string) : slice_from s 0 = s.
Proof. now destruct s. Qed.

Lemma regex_match_skip (sep c : ascii) (s : string) :
  c <> "g"%char -> regex_match sep (String c s) = regex_match sep s.
Proof.
  intros H. cbn [regex_match]. unfold match_here at 1.
  change ("github.com" +:+ String sep "")
    with (String "g" ("ithub.com" +:+ String sep "")).
  rewrite prefix_cons_ne by congruence. reflexivity.
Qed.

Lemma regex_match_miss (sep : ascii) (c : ascii) (s : string) :
  String.prefix ("github.com" +:+ String sep "") (String c s) = false ->
  regex_match sep (String c s) = regex_match sep s.
Proof. intros H. cbn [regex_match]. unfold match_here at 1. now rewrite H. Qed.

(** A match right here: the literal, a first group up to the next slash,
    and a second group up to the next slash or dot. *)
Lemma match_here_groups (sep : ascii) (group1 group2 tail : string) :
  group1 <> "" -> group2 <> "" ->
  includes group1 "/" = false ->
  includes group2 "/" = false -> includes group2 "." = false ->
  tail = "" \/ (exists t, tail = String "." t) \/ (exists t, tail = String "/" t) ->
  match_here sep
    (("github.com" +:+ String sep "") +:+ group1 +:+ String "/" (group2 +:+ tail))
  = Some (group1, group2).
Proof.
  intros Hn1 Hn2 H1 H2 H3 Ht. unfold match_here.
  rewrite prefix_app_local.
  change (slice_from ((("github.com" +:+ String sep "") +:+ group1
                       +:+ String "/" (group2 +:+ tail))) 11)
    with (slice_from (group1 +:+ String "/" (group2 +:+ tail)) 0).
  rewrite slice_from_zero.
  rewrite span_stops; [|trivial|reflexivity|now apply not_slash_of].
  destruct group1 as [|c1 g1]; [congruence|].
  assert (Hs : span not_slash_or_dot (group2 +:+ tail) = (group2, tail)).
  { destruct Ht as [-> | [[t ->] | [t ->]]].
    - rewrite append_empty_r_local. apply span_all.
      now apply not_slash_or_dot_of.
    - apply span_stops; [trivial|reflexivity|now apply not_slash_or_dot_of].
    - apply span_stops; [trivial|reflexivity|now apply not_slash_or_dot_of]. }
  rewrite Hs. destruct group2; [congruence | reflexivity].
Qed.

(** Without the text github.com there is nothing to match. *)
Lemma regex_match_none (sep : ascii) (s : string) :
  includes s "github.com" = false -> regex_match sep s = None.
Proof.
  induction s as [|c s IH]; intros H.
  - reflexivity.
  - cbn [includes] in H. apply orb_false_iff in H as [Hp Hi].
    cbn [regex_match]. unfold match_here at 1.
    destruct (String.prefix ("github.com" +:+ String sep "") (String c s))
      eqn:E.
    + apply prefix_shorter in E. congruence.
    + now apply IH.
Qed.

(** ** [detectRepo] *)

(** X9. With a github.repo setting of the form owner/repo, where owner and
    repo are not empty and hold no slash, [detectRepo] returns them and runs
    no command; further segments after a second slash are ignored. *)
Theorem detectRepo_override spawnSync projectPath (owner repo tail : string) :
  owner <> "" -> repo <> "" ->
  includes owner "/" = false -> includes repo "/" = false ->
  tail = "" \/ (exists t, tail = String "/" t) ->
  detectRepo spawnSync projectPath
    (Some (owner +:+ String "/" (repo +:+ tail)))
  = ([], inr {| Remote.owner := owner; Remote.repo := repo |}).
Proof.
  intros Hno Hnr Ho Hr Ht.
  assert (Hparts : split (owner +:+ String "/" (repo +:+ tail)) "/" =
                   owner :: split (repo +:+ tail) "/").
  { unfold split. rewrite split_slash_piece by exact Ho. cbn [rev app].
    now rewrite string_of_list_ascii_of_string. }
  pose proof (split_slash_head repo tail Hr Ht) as Hhead.
  unfold detectRepo.
  destruct (owner +:+ String "/" (repo +:+ tail)) as [|c0 s0] eqn:E.
  { destruct owner; discriminate. }
  rewrite Hparts. cbn [lookup list_lookup].
  destruct (split (repo +:+ tail) "/") as [|p ps]; [discriminate|].
  injection Hhead as ->. cbn [lookup list_lookup].
  destruct owner; [congruence|]. destruct repo; [congruence|]. reflexivity.
Qed.

Lemma detectRepo_override_witness :
  detectRepo no_repository "/srv/app" (Some "acme/app/extra")
  = ([], inr {| Remote.owner := "acme"; Remote.repo := "app" |}).
Proof.
  apply (detectRepo_override no_repository "/srv/app" "acme" "app" "/extra");
    try discriminate; try reflexivity.
  right. exists "extra". reflexivity.
Defined.

(** X10. A non-empty github.repo setting without a slash, with an empty
    owner, or with an empty repo makes [detectRepo] throw the invalid-config
    error without running a command. *)
Theorem detectRepo_override_invalid spawnSync projectPath (config : string) :
  config <> "" ->
  includes config "/" = false \/
  (exists r, config = String "/" r) \/
  (exists o tail, config = o +:+ String "/" tail /\ includes o "/" = false /\
                  (tail = "" \/ exists t, tail = String "/" t)) ->
  detectRepo spawnSync projectPath (Some config) = ([], inl (InvalidConfig config)).
Proof.
  intros Hne H. unfold detectRepo.
  destruct config as [|c0 s0] eqn:E; [congruence|]. rewrite <- E in *.
  assert (Hcases : split config "/" !! 0%nat = Some "" \/
                   split config "/" !! 1%nat = None \/
                   split config "/" !! 1%nat = Some "").
  { destruct H as [H | [[r ->] | (o & tail & -> & Ho & Ht)]].
    - right; left. unfold split. now rewrite split_slash_last.
    - left. unfold split.
      change (String "/" r) with ("" +:+ String "/" r).
      rewrite split_slash_piece by reflexivity. reflexivity.
    - right; right. unfold split. rewrite split_slash_piece by exact Ho.
      cbn [lookup list_lookup].
      destruct Ht as [-> | [t ->]]; [reflexivity|].
      change (String "/" t) with ("" +:+ String "/" t).
      rewrite split_slash_piece by reflexivity. reflexivity. }
  destruct Hcases as [H0 | [H1 | H1]].
  - rewrite H0. reflexivity.
  - rewrite H1. destruct (split config "/" !! 0%nat) as [[|]|]; reflexivity.
  - rewrite H1. destruct (split config "/" !! 0%nat) as [[|]|]; reflexivity.
Qed.

Lemma detectRepo_override_invalid_witness :
  detectRepo no_repository "/srv/app" (Some "acme")
  = ([], inl (InvalidConfig "acme")).
Proof.
  apply (detectRepo_override_invalid no_repository "/srv/app" "acme");
    [discriminate | left; reflexivity].
Defined.

(** X11. Without a setting (or with an empty one), [detectRepo] runs
    git -C <projectPath> remote get-url origin, and a non-zero exit code
    makes it throw the no-remote error, whatever was printed. *)
Theorem detectRepo_git_failure spawnSync projectPath configOverride :
  configOverride = None \/ configOverride = Some "" ->
  exitCode (spawnSync ["git"; "-C"; projectPath; "remote"; "get-url"; "origin"])
    <> 0 ->
  detectRepo spawnSync projectPath configOverride =
  ([["git"; "-C"; projectPath; "remote"; "get-url"; "origin"]],
   inl (NoRemote projectPath)).
Proof.
  intros Hc He. apply Z.eqb_neq in He.
  destruct Hc as [-> | ->]; unfold detectRepo; now rewrite He.
Qed.

Lemma detectRepo_git_failure_witness :
  detectRepo no_repository "/srv/app" (Some "") =
  ([["git"; "-C"; "/srv/app"; "remote"; "get-url"; "origin"]],
   inl (NoRemote "/srv/app")).
Proof.
  apply (detectRepo_git_failure no_repository "/srv/app" (Some ""));
    [right; reflexivity | discriminate].
Defined.

(** ** Remote URLs *)

Lemma regex_match_hit (sep : ascii) (s : string) groups :
  match_here sep s = Some groups -> regex_match sep s = Some groups.
Proof. intros H. destruct s; cbn [regex_match]; now rewrite H. Qed.

Lemma includes_char_app (c : ascii) (a b : string) :
  includes (a +:+ b) (String c "") =
  includes a (String c "") || includes b (String c "").
Proof.
  induction a as [|x a IH].
  - rewrite append_nil. reflexivity.
  - rewrite append_cons. cbn [includes]. rewrite IH.
    destruct (Ascii.ascii_dec c x) as [->|Hne].
    + rewrite !prefix_cons_eq, !prefix_nil. reflexivity.
    + rewrite !prefix_cons_ne by exact Hne. reflexivity.
Qed.

Lemma first_slash_unique (a1 b1 a2 b2 : string) :
  includes a1 "/" = false -> includes a2 "/" = false ->
  a1 +:+ String "/" b1 = a2 +:+ String "/" b2 -> a1 = a2 /\ b1 = b2.
Proof.
  revert a2; induction a1 as [|x a1 IH]; intros [|y a2] H1 H2 E.
  - rewrite !append_nil in E. injection E as ->. auto.
  - rewrite append_nil, append_cons in E. injection E as <- _.
    apply includes_char_cons in H2 as [Hy _]. congruence.
  - rewrite append_nil, append_cons in E. injection E as -> _.
    apply includes_char_cons in H1 as [Hx _]. congruence.
  - rewrite !append_cons in E. injection E as -> E.
    apply includes_char_cons in H1 as [_ H1].
    apply includes_char_cons in H2 as [_ H2].
    destruct (IH a2 H1 H2 E) as [-> ->]. auto.
Qed.

(** The HTTPS expression needs two slashes. *)
Lemma https_needs_slash (s : string) :
  includes s "/" = false -> regex_match "/" s = None.
Proof.
  induction s as [|c s IH]; intros H; [reflexivity|].
  pose proof H as H'. apply includes_char_cons in H' as [_ Hs].
  cbn [regex_match]. unfold match_here at 1.
  destruct (String.prefix ("github.com" +:+ "/") (String c s)) eqn:E.
  - apply prefix_exact in E as [rest E]. rewrite E in H.
    change (("github.com" +:+ "/") +:+ rest)
      with ("github.com" +:+ String "/" rest) in H.
    rewrite includes_char_app in H. apply orb_false_iff in H as [_ H].
    cbn [includes] in H. rewrite prefix_cons_eq, prefix_nil in H. discriminate.
  - now apply IH.
Qed.

Lemma https_needs_two_slashes (a b : string) :
  includes a "/" = false -> includes b "/" = false ->
  regex_match "/" (a +:+ String "/" b) = None.
Proof.
  intros Ha Hb. induction a as [|c a IH].
  - rewrite append_nil. rewrite regex_match_skip by discriminate.
    now apply https_needs_slash.
  - pose proof Ha as Ha'. apply includes_char_cons in Ha' as [_ Ha'].
    assert (Hhere : match_here "/" (String c a +:+ String "/" b) = None).
    { unfold match_here.
      destruct (String.prefix ("github.com" +:+ "/")
                  (String c a +:+ String "/" b)) eqn:E; [|reflexivity].
      apply prefix_exact in E as [rest E].
      change (("github.com" +:+ "/") +:+ rest)
        with ("github.com" +:+ String "/" rest) in E.
      destruct (first_slash_unique (String c a) b "github.com" rest
                  Ha eq_refl E) as [Ea Eb].
      rewrite Ea. subst rest.
      change (slice_from ("github.com" +:+ String "/" b) 11)
        with (slice_from b 0).
      rewrite slice_from_zero, span_all by now apply not_slash_of.
      destruct b; reflexivity. }
    rewrite append_cons in *. cbn [regex_match]. rewrite Hhere.
    now apply IH.
Qed.

Section Detect.
Variable spawnSync : list string -> SpawnResult.
Variable projectPath : string.

Let cmd := ["git"; "-C"; projectPath; "remote"; "get-url"; "origin"].

(** X12. When git prints an HTTPS remote https://github.com/<owner>/<repo>
    followed by nothing, by a dot or by a slash, [detectRepo] returns owner
    and repo: the repository name ends at its first dot, so the .git suffix
    is dropped and so is everything after a dot inside the name. *)
Theorem detectRepo_https configOverride (owner repo tail : string) :
  configOverride = None \/ configOverride = Some "" ->
  exitCode (spawnSync cmd) = 0 ->
  trim (stdout (spawnSync cmd)) =
    "https://github.com/" +:+ owner +:+ String "/" (repo +:+ tail) ->
  owner <> "" -> repo <> "" ->
  includes owner "/" = false ->
  includes repo "/" = false -> includes repo "." = false ->
  tail = "" \/ (exists t, tail = String "." t) \/ (exists t, tail = String "/" t) ->
  detectRepo spawnSync projectPath configOverride =
  ([cmd], inr {| Remote.owner := owner; Remote.repo := repo |}).
Proof.
  intros Hc He Hu Hno Hnr Ho Hr1 Hr2 Ht.
  assert (Hm : regex_match "/" (trim (stdout (spawnSync cmd)))
               = Some (owner, repo)).
  { rewrite Hu.
    change ("https://github.com/" +:+ owner +:+ String "/" (repo +:+ tail))
      with (String "h" (String "t" (String "t" (String "p" (String "s"
             (String ":" (String "/" (String "/"
               (("github.com" +:+ String "/" "")
                +:+ owner +:+ String "/" (repo +:+ tail)))))))))).
    rewrite !regex_match_skip by discriminate.
    apply regex_match_hit. now apply match_here_groups. }
  destruct Hc as [-> | ->]; unfold detectRepo; fold cmd;
    rewrite He; cbn [Z.eqb negb]; rewrite Hm; reflexivity.
Qed.

(** X13. When git prints an SSH remote git@github.com:<owner>/<repo>
    followed by nothing or by a dot and a suffix without slash, the HTTPS
    expression does not match and the SSH one gives owner and repo. *)
Theorem detectRepo_ssh configOverride (owner repo tail : string) :
  configOverride = None \/ configOverride = Some "" ->
  exitCode (spawnSync cmd) = 0 ->
  trim (stdout (spawnSync cmd)) =
    "git@github.com:" +:+ owner +:+ String "/" (repo +:+ tail) ->
  owner <> "" -> repo <> "" ->
  includes owner "/" = false ->
  includes repo "/" = false -> includes repo "." = false ->
  tail = "" \/ (exists t, tail = String "." t /\ includes t "/" = false) ->
  detectRepo spawnSync projectPath configOverride =
  ([cmd], inr {| Remote.owner := owner; Remote.repo := repo |}).
Proof.
  intros Hc He Hu Hno Hnr Ho Hr1 Hr2 Ht.
  assert (Htail : includes tail "/" = false).
  { destruct Ht as [-> | (t & -> & H)]; [reflexivity|].
    cbn [includes]. rewrite prefix_cons_ne by discriminate. exact H. }
  assert (Hh : regex_match "/" (trim (stdout (spawnSync cmd))) = None).
  { rewrite Hu. rewrite <- append_assoc.
    apply https_needs_two_slashes.
    - rewrite includes_char_app, Ho. reflexivity.
    - rewrite includes_char_app, Hr1, Htail. reflexivity. }
  assert (Hm : regex_match ":" (trim (stdout (spawnSync cmd)))
               = Some (owner, repo)).
  { rewrite Hu.
    change ("git@github.com:" +:+ owner +:+ String "/" (repo +:+ tail))
      with (String "g" (String "i" (String "t" (String "@"
              (("github.com" +:+ String ":" "")
               +:+ owner +:+ String "/" (repo +:+ tail)))))).
    rewrite regex_match_miss.
    2:{ change ("github.com" +:+ String ":" "") with "github.com:".
        rewrite !prefix_cons_eq. apply prefix_cons_ne. discriminate. }
    rewrite !regex_match_skip by discriminate.
    apply regex_match_hit. apply match_here_groups; auto.
    destruct Ht as [-> | (t & -> & _)]; eauto. }
  destruct Hc as [-> | ->]; unfold detectRepo; fold cmd;
    rewrite He; cbn [Z.eqb negb]; rewrite Hh, Hm; reflexivity.
Qed.

(** X14. When git succeeds but what it prints, trimmed, does not contain
    github.com, [detectRepo] throws the unparsable-URL error carrying the
    trimmed text. *)
Theorem detectRepo_unparsable configOverride :
  configOverride = None \/ configOverride = Some "" ->
  exitCode (spawnSync cmd) = 0 ->
  includes (trim (stdout (spawnSync cmd))) "github.com" = false ->
  detectRepo spawnSync projectPath configOverride =
  ([cmd], inl (Unparsable (trim (stdout (spawnSync cmd))))).
Proof.
  intros Hc He Hi.
  destruct Hc as [-> | ->]; unfold detectRepo; fold cmd;
    rewrite He; cbn [Z.eqb negb];
    rewrite !(regex_match_none _ _ Hi); reflexivity.
Qed.

End Detect.

Lemma detectRepo_https_witness :
  detectRepo (origin_is "https://github.com/acme/web.app.git") "/srv/app" None =
  ([["git"; "-C"; "/srv/app"; "remote"; "get-url"; "origin"]],
   inr {| Remote.owner := "acme"; Remote.repo := "web" |}).
Proof.
  apply (detectRepo_https (origin_is "https://github.com/acme/web.app.git")
           "/srv/app" None "acme" "web" ".app.git");
    try discriminate; try reflexivity.
  - left; reflexivity.
  - right; left. exists "app.git". reflexivity.
Defined.

Lemma detectRepo_ssh_witness :
  detectRepo (origin_is "git@github.com:acme/app.git") "/srv/app" None =
  ([["git"; "-C"; "/srv/app"; "remote"; "get-url"; "origin"]],
   inr {| Remote.owner := "acme"; Remote.repo := "app" |}).
Proof.
  apply (detectRepo_ssh (origin_is "git@github.com:acme/app.git")
           "/srv/app" None "acme" "app" ".git");
    try discriminate; try reflexivity.
  - left; reflexivity.
  - right. exists "git". split; reflexivity.
Defined.

Lemma detectRepo_unparsable_witness :
  detectRepo (origin_is "https://gitlab.com/acme/app.git") "/srv/app" None =
  ([["git"; "-C"; "/srv/app"; "remote"; "get-url"; "origin"]],
   inl (Unparsable "https://gitlab.com/acme/app.git")).
Proof.
  apply (detectRepo_unparsable (origin_is "https://gitlab.com/acme/app.git")
           "/srv/app" None); try reflexivity.
  left; reflexivity.
Defined.

End RemoteProps.

(* ================================================================== *)
(** * Further properties of the message translator *)
(* ================================================================== *)

Module ActivityMore.
Import JS Activity ActivitySamples ActivityProps.

(** ** Stepping through code that may throw *)

Lemma bind_Ok {A B} (m : JS.result A) (f : A -> JS.result B) (b : B) :
  m ≫= f = Ok b -> exists a, m = Ok a /\ f a = Ok b.
Proof. destruct m as [a|e]; cbn; [eauto | discriminate]. Qed.

Ltac step H :=
  match type of H with
  | (?m ≫= _) = Ok _ =>
      let a := fresh "a" in
      let E := fresh "E" in
      apply bind_Ok in H as (a & E & H)
  | Ok _ = Ok _ => injection H as H
  end.

(** ** The loop over content blocks *)

Section Loop.
Context {E : Engine} (Date_now : nat -> Z).

(** A loop whose body leaves the list alone or pushes one entry: the list
    grows by at most one entry per element, at its end, and the new entries
    are stamped by the successive readings of the clock. *)
Lemma for_of_pushes {A} (ok : ActivityEntry -> Prop)
    (body : list ActivityEntry -> A -> JS.result (list ActivityEntry))
    (l : list A) :
  (forall acc x acc', body acc x = Ok acc' ->
     acc' = acc \/
     exists ty s d f,
       acc' = push Date_now acc ty s d f /\
       ok {| timestamp := Date_now (length acc); type := ty; summary := s;
             detail := d; isSubagent := f |}) ->
  forall acc acc', for_of l acc body = Ok acc' ->
  exists new,
    acc' = acc ++ new /\ (length new <= length l)%nat /\
    Forall ok new /\
    map timestamp new = map Date_now (seq (length acc) (length new)).
Proof.
  intros Hbody. induction l as [|x l IH]; intros acc acc' H.
  - cbn in H. injection H as <-. exists []. rewrite app_nil_r.
    repeat split; auto.
  - cbn [for_of] in H. apply bind_Ok in H as (mid & Hx & H).
    destruct (IH mid acc' H) as (new & -> & Hlen & Hok & Hts).
    destruct (Hbody acc x mid Hx) as [-> | (ty & s & d & f & -> & Hnew)].
    + exists new. repeat split; auto. cbn [length]. lia.
    + unfold push in *. rewrite length_app in Hts. cbn [length] in Hts.
      eexists (_ :: new). rewrite <- app_assoc. split; [reflexivity|].
      split; [cbn [length]; lia|]. split; [constructor; assumption|].
      cbn [length map seq]. f_equal.
      replace (Datatypes.S (length acc)) with (length acc + 1)%nat by lia.
      exact Hts.
Qed.

End Loop.

(** ** What a returned result can be *)

Lemma andb_strict {E : Engine} (a b : value) (x y : string) :
  strict_eq_string a x && strict_eq_string b y = true ->
  a = VString x /\ b = VString y.
Proof.
  intros [H1 H2]%andb_true_iff. split; now apply strict_eq_string_true.
Qed.

(** Every way [processAgentMessage] can return, by the shape of the
    message. *)
Lemma processAgentMessage_Ok {E : Engine} (Date_now : nat -> Z)
    (message : value) (cwd : option string) (r : AgentMessageResult) :
  processAgentMessage Date_now message cwd = Ok r ->
  exists t st,
    get message "type" = Ok t /\ get message "subtype" = Ok st /\
    ((t = VString "system" /\ st = VString "init" /\
      exists sid, get message "session_id" = Ok sid /\
        r = {| activities :=
                 push Date_now [] Status (VString "Agent started") None None;
               sessionId := Some sid; successResult := None;
               errorMessage := None |}) \/
     (t = VString "system" /\ st = VString "task_started" /\
      exists what,
        r = {| activities :=
                 push Date_now [] Status (VString ("Spawned: " +:+ what))
                   None (Some true);
               sessionId := None; successResult := None;
               errorMessage := None |}) \/
     (t = VString "system" /\ st = VString "task_notification" /\
      exists ty text d, (ty = Result \/ ty = Error) /\
        r = {| activities := push Date_now [] ty (VString text) d (Some true);
               sessionId := None; successResult := None;
               errorMessage := None |}) \/
     (t = VString "assistant" /\
      exists m content parent new,
        get message "message" = Ok m /\ ToBoolean m = true /\
        get m "content" = Ok content /\
        get message "parent_tool_use_id" = Ok parent /\
        r = {| activities := new; sessionId := None; successResult := None;
               errorMessage := None |} /\
        (length new <= match content with
                       | VArray blocks => length blocks
                       | _ => 0
                       end)%nat /\
        Forall (fun a => (type a = ToolUse \/ type a = Text) /\
                         isSubagent a =
                           if nullish parent then None else Some true) new /\
        map timestamp new = map Date_now (seq 0 (length new))) \/
     (t = VString "result" /\ st = VString "success" /\
      exists sr,
        r = {| activities :=
                 push Date_now [] Result
                   (VString "Agent completed successfully") None None;
               sessionId := None; successResult := Some sr;
               errorMessage := None |}) \/
     (t = VString "result" /\ st <> VString "success" /\
      exists text em,
        r = {| activities :=
                 push Date_now [] Error (VString ("Agent error: " +:+ text))
                   None None;
               sessionId := None; successResult := None;
               errorMessage := Some em |}) \/
     (~ recognized message /\ r = ignored)).
Proof.
  unfold processAgentMessage. intros H.
  apply bind_Ok in H as (t & Ht & H).
  apply bind_Ok in H as (st & Hst & H).
  exists t, st. split; [exact Ht|]. split; [exact Hst|].
  destruct (strict_eq_string t "system" && strict_eq_string st "init") eqn:B1.
  { apply andb_strict in B1 as [-> ->]. left.
    apply bind_Ok in H as (sid & Hsid & H). injection H as <-.
    repeat split. eauto. }
  destruct (strict_eq_string t "system" && strict_eq_string st "task_started")
    eqn:B2.
  { apply andb_strict in B2 as [-> ->]. right; left.
    repeat step H. subst r. repeat split. eauto. }
  destruct (strict_eq_string t "system"
            && strict_eq_string st "task_notification") eqn:B3.
  { apply andb_strict in B3 as [-> ->]. right; right; left.
    repeat split.
    apply bind_Ok in H as (usage & _ & H).
    apply bind_Ok in H as (durationStr & _ & H).
    apply bind_Ok in H as (task_status & _ & H).
    apply bind_Ok in H as (task_summary & _ & H).
    destruct (strict_eq_string task_status "completed").
    - injection H as <-. eexists Result, _, _. split; [left|]; reflexivity.
    - apply bind_Ok in H as (shown & _ & H). injection H as <-.
      eexists Error, _, _. split; [right|]; reflexivity. }
  apply bind_Ok in H as (m & Hm & H).
  destruct (strict_eq_string t "assistant" && ToBoolean m) eqn:B4.
  { apply andb_true_iff in B4 as [Ha Hb].
    apply strict_eq_string_true in Ha. subst t.
    right; right; right; left. split; [reflexivity|].
    apply bind_Ok in H as (parent & Hp & H).
    apply bind_Ok in H as (content & Hc & H).
    apply bind_Ok in H as (new & Hloop & H). injection H as <-.
    exists m, content, parent, new.
    repeat (split; [first [eassumption | reflexivity]|]).
    destruct content as [| | | | |blocks|];
      try (injection Hloop as <-; repeat split; [cbn; lia | constructor]).
    eapply (for_of_pushes Date_now
              (fun a => (type a = ToolUse \/ type a = Text) /\
                        isSubagent a =
                          if nullish parent then None else Some true))
      in Hloop.
    - destruct Hloop as (new' & -> & Hlen & Hok & Hts).
      cbn [app length] in *. auto.
    - clear. intros acc x acc' H.
      apply bind_Ok in H as (block_type & _ & H).
      apply bind_Ok in H as (is_tool & _ & H).
      destruct is_tool.
      + apply bind_Ok in H as (name & _ & H).
        apply bind_Ok in H as (input & _ & H).
        apply bind_Ok in H as (shown & _ & H). injection H as <-.
        right. eexists ToolUse, _, _, _. split; [reflexivity|].
        cbn. split; [auto|]. now destruct (nullish parent).
      + apply bind_Ok in H as (is_text & _ & H).
        destruct is_text.
        * apply bind_Ok in H as (block_text & _ & H).
          apply bind_Ok in H as (hd & _ & H). injection H as <-.
          right. eexists Text, _, _, _. split; [reflexivity|].
          cbn. split; [auto|]. now destruct (nullish parent).
        * injection H as <-. left. reflexivity. }
  destruct (strict_eq_string t "result") eqn:B5.
  { apply strict_eq_string_true in B5. subst t.
    destruct (strict_eq_string st "success") eqn:B6.
    - apply strict_eq_string_true in B6. subst st.
      right; right; right; right; left. repeat split.
      repeat step H. subst r. eauto.
    - right; right; right; right; right; left.
      split; [reflexivity|]. split.
      { intros ->. cbn in B6. discriminate. }
      apply bind_Ok in H as (errors & _ & H).
      apply bind_Ok in H as (len & _ & H).
      apply bind_Ok in H as (em & _ & H).
      apply bind_Ok in H as (hd & _ & H).
      apply bind_Ok in H as (shown & _ & H). injection H as <-. eauto. }
  right; right; right; right; right; right.
  injection H as <-. split; [|reflexivity].
  intros [[Hty [Hs|[Hs|Hs]]] | [[Hty (m' & Hm' & Hb)] | Hty]];
    rewrite Ht in Hty; injection Hty as ->.
  - rewrite Hst in Hs. injection Hs as ->. discriminate.
  - rewrite Hst in Hs. injection Hs as ->. discriminate.
  - rewrite Hst in Hs. injection Hs as ->. discriminate.
  - rewrite Hm in Hm'. injection Hm' as ->. rewrite Hb in B4. discriminate.
  - discriminate.
Qed.

(** ** Invariants of every returned result *)

(** X16. The terminal fields of a returned result follow the tag of the
    message: a sessionId is present exactly for system/init, a
    successResult exactly for result/success, an errorMessage exactly for a
    result with any other subtype; no result carries two of them. *)
Theorem processAgentMessage_terminal_fields {E : Engine} (Date_now : nat -> Z)
    (message : value) (cwd : option string) (r : AgentMessageResult) :
  processAgentMessage Date_now message cwd = Ok r ->
  (is_Some (sessionId r) <->
   get message "type" = Ok (VString "system") /\
   get message "subtype" = Ok (VString "init")) /\
  (is_Some (successResult r) <->
   get message "type" = Ok (VString "result") /\
   get message "subtype" = Ok (VString "success")) /\
  (is_Some (errorMessage r) <->
   get message "type" = Ok (VString "result") /\
   get message "subtype" <> Ok (VString "success")).
Proof.
  intros H. apply processAgentMessage_Ok in H as (t & st & Ht & Hst & H).
  rewrite Ht, Hst.
  destruct H as [(-> & -> & sid & _ & ->)
               | [(-> & -> & what & ->)
               | [(-> & -> & ty & text & d & _ & ->)
               | [(-> & m & content & parent & new & _ & _ & _ & _ & -> & _)
               | [(-> & -> & sr & ->)
               | [(-> & Hne & text & em & ->)
               | (Hnot & ->)]]]]]]; cbn [sessionId successResult errorMessage ignored].
  all: split; [|split].
  all: (split;
        [ intros Hs;
          first [ destruct Hs as [x Hx]; discriminate Hx
                | split; [reflexivity | first [reflexivity | congruence]] ]
        | intros [H1 H2];
          first [ eexists; reflexivity
                | discriminate H1 | discriminate H2 | congruence
                | exfalso; apply Hnot ] ]).
  - left. rewrite Ht, Hst. injection H1 as ->. injection H2 as ->. auto.
  - right; right. congruence.
  - right; right. congruence.
Qed.

Lemma processAgentMessage_terminal_fields_witness :
  let r := {| activities :=
                [ {| timestamp := 1700000000000; type := Status;
                     summary := VString "Agent started";
                     detail := None; isSubagent := None |} ];
              sessionId := Some (VString "sess-41");
              successResult := None; errorMessage := None |} in
  (is_Some (sessionId r) <->
   get sample_init "type" = Ok (VString "system") /\
   get sample_init "subtype" = Ok (VString "init")) /\
  (is_Some (successResult r) <->
   get sample_init "type" = Ok (VString "result") /\
   get sample_init "subtype" = Ok (VString "success")) /\
  (is_Some (errorMessage r) <->
   get sample_init "type" = Ok (VString "result") /\
   get sample_init "subtype" <> Ok (VString "success")).
Proof.
  intros r.
  apply (processAgentMessage_terminal_fields (E := integer_engine)
           sample_clock sample_init None r eq_refl).
Defined.

(** X17. An assistant message with a message body yields at most one
    activity per content block (none when content is not an array), only
    tool_use and text activities, all of them flagged as sub-agent exactly
    when parent_tool_use_id is neither null nor undefined, and no terminal
    field. *)
Theorem processAgentMessage_assistant {E : Engine} (Date_now : nat -> Z)
    (message : value) (cwd : option string) (r : AgentMessageResult)
    (m content parent : value) :
  get message "type" = Ok (VString "assistant") ->
  get message "message" = Ok m -> ToBoolean m = true ->
  get m "content" = Ok content ->
  get message "parent_tool_use_id" = Ok parent ->
  processAgentMessage Date_now message cwd = Ok r ->
  (length (activities r) <= match content with
                            | VArray blocks => length blocks
                            | _ => 0
                            end)%nat /\
  Forall (fun a => (type a = ToolUse \/ type a = Text) /\
                   isSubagent a = if nullish parent then None else Some true)
    (activities r) /\
  sessionId r = None /\ successResult r = None /\ errorMessage r = None.
Proof.
  intros Ht Hm Hb Hc Hp H.
  apply processAgentMessage_Ok in H as (t & st & Ht' & Hst & H).
  rewrite Ht in Ht'. injection Ht' as <-.
  destruct H as [(? & _) | [(? & _) | [(? & _)
               | [(_ & m' & content' & parent' & new & Hm' & _ & Hc' & Hp' & -> & Hlen & Hok & _)
               | [(? & _) | [(? & _) | (Hnot & _)]]]]]]; try discriminate.
  - rewrite Hm in Hm'. injection Hm' as <-.
    rewrite Hc in Hc'. injection Hc' as <-.
    rewrite Hp in Hp'. injection Hp' as <-.
    cbn. auto.
  - exfalso. apply Hnot. right; left. eauto.
Qed.

Lemma processAgentMessage_assistant_witness :
  let r := {| activities :=
                [ {| timestamp := 1700000000000; type := Text;
                     summary := VString "Reading the code";
                     detail := Some (VString "Reading the code");
                     isSubagent := Some true |};
                  {| timestamp := 1700000000001; type := Text;
                     summary := VString "Running the tests";
                     detail := Some (VString "Running the tests");
                     isSubagent := Some true |} ];
              sessionId := None; successResult := None;
              errorMessage := None |} in
  (length (activities r) <= 2)%nat /\
  Forall (fun a => (type a = ToolUse \/ type a = Text) /\
                   isSubagent a = Some true) (activities r) /\
  sessionId r = None /\ successResult r = None /\ errorMessage r = None.
Proof.
  intros r.
  apply (processAgentMessage_assistant (E := integer_engine) sample_clock
           (sample_assistant sample_text_blocks (VString "toolu_9")) None r
           (VObject [("role", VString "assistant");
                     ("content", VArray sample_text_blocks)])
           (VArray sample_text_blocks) (VString "toolu_9")
           eq_refl eq_refl eq_refl eq_refl eq_refl eq_refl).
Defined.

(** X18. Except for assistant messages, a message yields at most one
    activity. *)
Theorem processAgentMessage_at_most_one {E : Engine} (Date_now : nat -> Z)
    (message : value) (cwd : option string) (r : AgentMessageResult) :
  get message "type" <> Ok (VString "assistant") ->
  processAgentMessage Date_now message cwd = Ok r ->
  (length (activities r) <= 1)%nat.
Proof.
  intros Hna H.
  apply processAgentMessage_Ok in H as (t & st & Ht & _ & H).
  destruct H as [(_ & _ & sid & _ & ->)
               | [(_ & _ & what & ->)
               | [(_ & _ & ty & text & d & _ & ->)
               | [(-> & _)
               | [(_ & _ & sr & ->)
               | [(_ & _ & text & em & ->)
               | (_ & ->)]]]]]]; cbn; try lia.
  contradiction.
Qed.

Lemma processAgentMessage_at_most_one_witness :
  (length [ {| timestamp := 1700000000000; type := Status;
               summary := VString "Agent started";
               detail := None; isSubagent := None |} ] <= 1)%nat.
Proof.
  apply (processAgentMessage_at_most_one (E := integer_engine)
           sample_clock sample_init None
           {| activities :=
                [ {| timestamp := 1700000000000; type := Status;
                     summary := VString "Agent started";
                     detail := None; isSubagent := None |} ];
              sessionId := Some (VString "sess-41");
              successResult := None; errorMessage := None |}).
  - discriminate.
  - reflexivity.
Defined.

(** ** Assistant turns *)

Lemma for_of_throws {A B} (body : B -> A -> JS.result B) (bad : A) (l : list A) :
  (forall acc, exists e, body acc bad = Throw e) ->
  In bad l -> forall acc, exists e, for_of l acc body = Throw e.
Proof.
  intros Hbad. induction l as [|x l IH]; intros Hin acc; [destruct Hin|].
  cbn [for_of]. destruct (body acc x) as [acc'|e] eqn:Hx.
  - destruct Hin as [->|Hin].
    + destruct (Hbad acc) as [e He]. congruence.
    + cbn. now apply IH.
  - cbn. eauto.
Qed.

(** The start of [processAgentMessage] on an assistant message with a
    body. *)
Lemma processAgentMessage_assistant_unfold {E : Engine} (Date_now : nat -> Z)
    (message : value) (cwd : option string) (m content parent : value) :
  get message "type" = Ok (VString "assistant") ->
  get message "message" = Ok m -> ToBoolean m = true ->
  get m "content" = Ok content ->
  get message "parent_tool_use_id" = Ok parent ->
  processAgentMessage Date_now message cwd =
  (acts ← match content with
          | VArray blocks =>
              for_of blocks [] (fun activities block =>
                block_type ← get block "type";
                is_tool ←
                  (if strict_eq_string block_type "tool_use"
                   then has_property "name" block else Ok false);
                if (is_tool : bool) then
                  name ← get block "name";
                  input ← get block "input";
                  shown ← summarizeToolUse name input cwd;
                  Ok (push Date_now activities ToolUse (VString shown) None
                        (if negb (nullish parent) then Some true else None))
                else
                  is_text ←
                    (if strict_eq_string block_type "text"
                     then has_property "text" block else Ok false);
                  if (is_text : bool) then
                    block_text ← get block "text";
                    head ← slice_to block_text 200;
                    Ok (push Date_now activities Text head (Some block_text)
                          (if negb (nullish parent) then Some true else None))
                  else Ok activities)
          | _ => Ok []
          end;
   Ok {| activities := acts; sessionId := None; successResult := None;
         errorMessage := None |}).
Proof.
  intros Ht Hm Hb Hc Hp.
  destruct (get_total message "subtype" (get_not_nullish _ _ _ Ht)) as [st Hst].
  unfold processAgentMessage.
  rewrite Ht; cbn [mbind result_bind]. rewrite Hst; cbn [mbind result_bind].
  cbn [strict_eq_string String.eqb Ascii.eqb Bool.eqb andb].
  rewrite Hm; cbn [mbind result_bind]. rewrite Hb.
  rewrite Hp; cbn [mbind result_bind]. rewrite Hc; cbn [mbind result_bind].
  reflexivity.
Qed.

(** X19. A [null] or [undefined] entry anywhere in the content array of an
    assistant message makes [processAgentMessage] raise: the activities of
    the blocks before it are lost with it. *)
Theorem processAgentMessage_null_block {E : Engine} (Date_now : nat -> Z)
    (message : value) (cwd : option string) (m parent : value)
    (blocks : list value) :
  get message "type" = Ok (VString "assistant") ->
  get message "message" = Ok m -> ToBoolean m = true ->
  get m "content" = Ok (VArray blocks) ->
  get message "parent_tool_use_id" = Ok parent ->
  In VNull blocks \/ In VUndefined blocks ->
  exists e, processAgentMessage Date_now message cwd = Throw e.
Proof.
  intros Ht Hm Hb Hc Hp Hin.
  rewrite (processAgentMessage_assistant_unfold Date_now message cwd
             m (VArray blocks) parent Ht Hm Hb Hc Hp).
  destruct Hin as [Hin|Hin];
    eapply for_of_throws in Hin as [e He];
    try (rewrite He; cbn; eauto);
    intros acc; eexists; reflexivity.
Qed.

Lemma processAgentMessage_null_block_witness :
  exists e,
    processAgentMessage sample_clock
      (sample_assistant [sample_text_block "Reading the code"; VNull] VNull)
      None = Throw e.
Proof.
  apply (processAgentMessage_null_block (E := integer_engine) sample_clock
           (sample_assistant [sample_text_block "Reading the code"; VNull] VNull)
           None
           (VObject [("role", VString "assistant");
                     ("content",
                      VArray [sample_text_block "Reading the code"; VNull])])
           VNull [sample_text_block "Reading the code"; VNull]
           eq_refl eq_refl eq_refl eq_refl eq_refl).
  left. right. left. reflexivity.
Defined.

(** X20. An assistant message whose content is a list of text blocks with
    string texts yields one text activity per block, in order: the summary
    is the first 200 code units of the text, the detail is the whole text,
    activity number k is stamped with clock reading k. *)
Theorem processAgentMessage_text_blocks {E : Engine} (Date_now : nat -> Z)
    (message : value) (cwd : option string) (m parent : value)
    (blocks : list value) (texts : list string) :
  get message "type" = Ok (VString "assistant") ->
  get message "message" = Ok m -> ToBoolean m = true ->
  get m "content" = Ok (VArray blocks) ->
  get message "parent_tool_use_id" = Ok parent ->
  Forall2 (fun block text =>
             get block "type" = Ok (VString "text") /\
             has_property "text" block = Ok true /\
             get block "text" = Ok (VString text)) blocks texts ->
  processAgentMessage Date_now message cwd =
  Ok {| activities :=
          imap (fun k text =>
                  {| timestamp := Date_now k; type := Text;
                     summary := VString (substring 0 200 text);
                     detail := Some (VString text);
                     isSubagent := if nullish parent then None else Some true |})
            texts;
        sessionId := None; successResult := None; errorMessage := None |}.
Proof.
  intros Ht Hm Hb Hc Hp Hall.
  rewrite (processAgentMessage_assistant_unfold Date_now message cwd
             m (VArray blocks) parent Ht Hm Hb Hc Hp).
  match goal with
  | |- (_ ← for_of blocks [] ?body; _) = _ =>
      assert (Hloop : forall acc,
                for_of blocks acc body =
                Ok (acc ++ imap (fun k text =>
                        {| timestamp := Date_now (length acc + k)%nat; type := Text;
                           summary := VString (substring 0 200 text);
                           detail := Some (VString text);
                           isSubagent :=
                             if nullish parent then None else Some true |})
                      texts))
  end.
  { clear Hc.
    induction Hall as [|block text blocks texts (Hbt & Hbh & Hbx) Hall IH];
      intros acc.
    - cbn. now rewrite app_nil_r.
    - cbn [for_of]. rewrite Hbt; cbn [mbind result_bind].
      cbn [strict_eq_string String.eqb Ascii.eqb Bool.eqb].
      cbn [mbind result_bind]. rewrite Hbh; cbn [mbind result_bind].
      rewrite Hbx; cbn [mbind result_bind slice_to].
      rewrite IH. unfold push. rewrite <- app_assoc. cbn [app imap].
      rewrite length_app. cbn [length]. rewrite Nat.add_0_r.
      replace (if negb (nullish parent) then Some true else None)
        with (if nullish parent then @None bool else Some true)
        by now destruct (nullish parent).
      do 3 f_equal.
      apply imap_ext. intros k text' _. cbn.
      replace (length acc + 1 + k)%nat with (length acc + Datatypes.S k)%nat
        by lia.
      reflexivity. }
  rewrite Hloop. cbn [mbind result_bind app length]. reflexivity.
Qed.

Lemma processAgentMessage_text_blocks_witness :
  processAgentMessage sample_clock
    (sample_assistant sample_text_blocks VNull) (Some "/w") =
  Ok {| activities :=
          [ {| timestamp := 1700000000000; type := Text;
               summary := VString "Reading the code";
               detail := Some (VString "Reading the code");
               isSubagent := None |};
            {| timestamp := 1700000000001; type := Text;
               summary := VString "Running the tests";
               detail := Some (VString "Running the tests");
               isSubagent := None |} ];
        sessionId := None; successResult := None; errorMessage := None |}.
Proof.
  apply (processAgentMessage_text_blocks (E := integer_engine) sample_clock
           (sample_assistant sample_text_blocks VNull) (Some "/w")
           (VObject [("role", VString "assistant");
                     ("content", VArray sample_text_blocks)])
           VNull sample_text_blocks
           ["Reading the code"; "Running the tests"]
           eq_refl eq_refl eq_refl eq_refl eq_refl).
  repeat constructor.
Defined.

(** ** Session start and success *)

(** X21. A system/init message never makes the translator raise: it yields
    the single status activity Agent started and the sessionId read from
    the message, whatever that value is. *)
Theorem processAgentMessage_init {E : Engine} (Date_now : nat -> Z)
    (message : value) (cwd : option string) :
  get message "type" = Ok (VString "system") ->
  get message "subtype" = Ok (VString "init") ->
  exists session_id,
    get message "session_id" = Ok session_id /\
    processAgentMessage Date_now message cwd =
    Ok {| activities :=
            [ {| timestamp := Date_now 0%nat; type := Status;
                 summary := VString "Agent started";
                 detail := None; isSubagent := None |} ];
          sessionId := Some session_id;
          successResult := None; errorMessage := None |}.
Proof.
  intros Ht Hst.
  destruct (get_total message "session_id" (get_not_nullish _ _ _ Ht))
    as [sid Hsid].
  exists sid. split; [exact Hsid|].
  unfold processAgentMessage.
  rewrite Ht; cbn [mbind result_bind]. rewrite Hst; cbn [mbind result_bind].
  cbn [strict_eq_string String.eqb Ascii.eqb Bool.eqb andb].
  rewrite Hsid. reflexivity.
Qed.

Lemma processAgentMessage_init_witness :
  exists session_id,
    get sample_init "session_id" = Ok session_id /\
    processAgentMessage sample_clock sample_init None =
    Ok {| activities :=
            [ {| timestamp := sample_clock 0%nat; type := Status;
                 summary := VString "Agent started";
                 detail := None; isSubagent := None |} ];
          sessionId := Some session_id;
          successResult := None; errorMessage := None |}.
Proof.
  apply (processAgentMessage_init (E := integer_engine) sample_clock
           sample_init None eq_refl eq_refl).
Defined.

(** X22. A result/success message never makes the translator raise: it
    yields the single result activity Agent completed successfully and a
    successResult holding the message's result, total_cost_usd, duration_ms
    and num_turns as they are. *)
Theorem processAgentMessage_success {E : Engine} (Date_now : nat -> Z)
    (message : value) (cwd : option string) :
  get message "type" = Ok (VString "result") ->
  get message "subtype" = Ok (VString "success") ->
  exists res cost duration turns,
    get message "result" = Ok res /\
    get message "total_cost_usd" = Ok cost /\
    get message "duration_ms" = Ok duration /\
    get message "num_turns" = Ok turns /\
    processAgentMessage Date_now message cwd =
    Ok {| activities :=
            [ {| timestamp := Date_now 0%nat; type := Result;
                 summary := VString "Agent completed successfully";
                 detail := None; isSubagent := None |} ];
          sessionId := None;
          successResult :=
            Some {| result := res; costUsd := cost;
                    durationMs := duration; numTurns := turns |};
          errorMessage := None |}.
Proof.
  intros Ht Hst.
  pose proof (get_not_nullish _ _ _ Ht) as Hn.
  destruct (get_total message "result" Hn) as [res Hres].
  destruct (get_total message "total_cost_usd" Hn) as [cost Hcost].
  destruct (get_total message "duration_ms" Hn) as [duration Hd].
  destruct (get_total message "num_turns" Hn) as [turns Hturns].
  destruct (get_total message "message" Hn) as [m Hm].
  exists res, cost, duration, turns. repeat (split; [assumption|]).
  unfold processAgentMessage.
  rewrite Ht; cbn [mbind result_bind]. rewrite Hst; cbn [mbind result_bind].
  cbn [strict_eq_string String.eqb Ascii.eqb Bool.eqb andb].
  rewrite Hm; cbn [mbind result_bind].
  rewrite Hres; cbn [mbind result_bind]. rewrite Hcost; cbn [mbind result_bind].
  rewrite Hd; cbn [mbind result_bind]. rewrite Hturns. reflexivity.
Qed.

Lemma processAgentMessage_success_witness :
  exists res cost duration turns,
    get sample_success "result" = Ok res /\
    get sample_success "total_cost_usd" = Ok cost /\
    get sample_success "duration_ms" = Ok duration /\
    get sample_success "num_turns" = Ok turns /\
    processAgentMessage sample_clock sample_success None =
    Ok {| activities :=
            [ {| timestamp := sample_clock 0%nat; type := Result;
                 summary := VString "Agent completed successfully";
                 detail := None; isSubagent := None |} ];
          sessionId := None;
          successResult :=
            Some {| result := res; costUsd := cost;
                    durationMs := duration; numTurns := turns |};
          errorMessage := None |}.
Proof.
  apply (processAgentMessage_success (E := integer_engine) sample_clock
           sample_success None eq_refl eq_refl).
Defined.

(** ** Sub-agent lifecycle *)

(** X23. A system/task_started message yields one status activity flagged
    as sub-agent, labelled Spawned: followed by the description when it is
    a non-empty string, else by the task type when that is a non-empty
    string, else by the word subagent when both are falsy. *)
Theorem processAgentMessage_task_started {E : Engine} (Date_now : nat -> Z)
    (message : value) (cwd : option string)
    (description task_type : value) (label : string) :
  get message "type" = Ok (VString "system") ->
  get message "subtype" = Ok (VString "task_started") ->
  get message "description" = Ok description ->
  get message "task_type" = Ok task_type ->
  (description = VString label /\ label <> "") \/
  (ToBoolean description = false /\ task_type = VString label /\ label <> "") \/
  (ToBoolean description = false /\ ToBoolean task_type = false /\
   label = "subagent") ->
  processAgentMessage Date_now message cwd =
  Ok {| activities :=
          [ {| timestamp := Date_now 0%nat; type := Status;
               summary := VString ("Spawned: " +:+ label);
               detail := None; isSubagent := Some true |} ];
        sessionId := None; successResult := None; errorMessage := None |}.
Proof.
  intros Ht Hst Hd Htt Hcase.
  unfold processAgentMessage.
  rewrite Ht; cbn [mbind result_bind]. rewrite Hst; cbn [mbind result_bind].
  cbn [strict_eq_string String.eqb Ascii.eqb Bool.eqb andb].
  rewrite Hd; cbn [mbind result_bind]. rewrite Htt; cbn [mbind result_bind].
  assert (Hlabel : ToString (or_else (or_else description task_type)
                               (VString "subagent")) = Ok label).
  { unfold or_else.
    destruct Hcase as [[-> Hl] | [(Hf & -> & Hl) | (Hf & Hf' & ->)]].
    - cbn [ToBoolean]. rewrite (eqb_empty_false _ Hl). cbn [negb ToBoolean].
      now rewrite (eqb_empty_false _ Hl).
    - rewrite Hf. cbn [ToBoolean]. now rewrite (eqb_empty_false _ Hl).
    - rewrite Hf, Hf'. reflexivity. }
  rewrite Hlabel. reflexivity.
Qed.

Lemma processAgentMessage_task_started_witness :
  processAgentMessage sample_clock sample_task_started None =
  Ok {| activities :=
          [ {| timestamp := 1700000000000; type := Status;
               summary := VString "Spawned: Explore";
               detail := None; isSubagent := Some true |} ];
        sessionId := None; successResult := None; errorMessage := None |}.
Proof.
  apply (processAgentMessage_task_started (E := integer_engine) sample_clock
           sample_task_started None (VString "") (VString "Explore") "Explore"
           eq_refl eq_refl eq_refl eq_refl).
  right; left. repeat split. discriminate.
Defined.

(** X24. A system/task_notification message whose status is a string
    yields one activity flagged as sub-agent: a result activity Subagent
    completed when the status is completed, an error activity Subagent
    <status> otherwise. With usage data whose duration and tool count are
    numbers, the summary ends with the elapsed time (the duration divided by
    1000 and rounded) and the number of tools in parentheses; without usage
    data it has no such suffix. The detail is the summary of the message
    when that is truthy. *)
Theorem processAgentMessage_task_notification {E : Engine}
    (Date_now : nat -> Z) (message : value) (cwd : option string)
    (usage task_summary : value) (task_status suffix : string) :
  get message "type" = Ok (VString "system") ->
  get message "subtype" = Ok (VString "task_notification") ->
  get message "usage" = Ok usage ->
  get message "status" = Ok (VString task_status) ->
  get message "summary" = Ok task_summary ->
  (ToBoolean usage = false /\ suffix = "") \/
  (exists duration_ms tool_uses,
     ToBoolean usage = true /\
     get usage "duration_ms" = Ok (VNumber duration_ms) /\
     get usage "tool_uses" = Ok (VNumber tool_uses) /\
     suffix = " (" +:+ Number_toString
                        (Math_round
                           (Number_divide duration_ms (Number_of_nat 1000)))
              +:+ "s, " +:+ Number_toString tool_uses +:+ " tools" +:+ ")") ->
  processAgentMessage Date_now message cwd =
  Ok {| activities :=
          [ {| timestamp := Date_now 0%nat;
               type := if (task_status =? "completed")%string
                       then Result else Error;
               summary := VString ("Subagent " +:+ task_status +:+ suffix);
               detail := if ToBoolean task_summary
                         then Some task_summary else None;
               isSubagent := Some true |} ];
        sessionId := None; successResult := None; errorMessage := None |}.
Proof.
  intros Ht Hst Hu Hs Hsum Hcase.
  unfold processAgentMessage.
  rewrite Ht; cbn [mbind result_bind]. rewrite Hst; cbn [mbind result_bind].
  cbn [strict_eq_string String.eqb Ascii.eqb Bool.eqb andb].
  rewrite Hu; cbn [mbind result_bind].
  assert (Hsuffix :
    exists durationStr,
      (if ToBoolean usage then
         duration_ms ← get usage "duration_ms";
         ms ← ToNumber duration_ms;
         tool_uses ← get usage "tool_uses";
         tools ← ToString tool_uses;
         Ok (Number_toString
               (Math_round (Number_divide ms (Number_of_nat 1000)))
             +:+ "s, " +:+ tools +:+ " tools")
       else Ok "") = Ok durationStr /\
      (if negb (durationStr =? "")%string
       then " (" +:+ durationStr +:+ ")" else "") = suffix).
  { destruct Hcase as [[Hf ->] | (d & n & Hf & Hd & Hn & ->)]; rewrite Hf.
    - exists "". split; reflexivity.
    - rewrite Hd; cbn [mbind result_bind ToNumber].
      rewrite Hn; cbn [mbind result_bind ToString].
      eexists. split; [reflexivity|].
      set (x := Number_toString _).
      assert (Hne : (x +:+ "s, " +:+ Number_toString n +:+ " tools" =? "")%string
                    = false).
      { apply String.eqb_neq. destruct x; discriminate. }
      rewrite Hne. cbn [negb].
      now rewrite !RemoteProps.append_assoc. }
  destruct Hsuffix as (durationStr & -> & Hsfx). cbn [mbind result_bind].
  rewrite Hsfx. rewrite Hs; cbn [mbind result_bind].
  rewrite Hsum; cbn [mbind result_bind strict_eq_string].
  unfold truthy_or_undefined.
  destruct (task_status =? "completed")%string eqn:Hc.
  - apply String.eqb_eq in Hc. subst task_status. reflexivity.
  - reflexivity.
Qed.

Lemma processAgentMessage_task_notification_witness :
  processAgentMessage sample_clock sample_task_notification None =
  Ok {| activities :=
          [ {| timestamp := 1700000000000; type := Error;
               summary := VString "Subagent failed (5s, 3 tools)";
               detail := Some (VString "ran out of turns");
               isSubagent := Some true |} ];
        sessionId := None; successResult := None; errorMessage := None |}.
Proof.
  apply (processAgentMessage_task_notification (E := integer_engine)
           sample_clock sample_task_notification None
           sample_usage (VString "ran out of turns") "failed" " (5s, 3 tools)"
           eq_refl eq_refl eq_refl eq_refl eq_refl).
  right. exists (Some 5400), (Some 3). repeat split.
Defined.

(** ** Tools outside the summary-field table *)

(** No tool of the table is an MCP tool or the Task tool. *)
Lemma listed_tool_plain (name field : string) :
  TOOL_SUMMARY_FIELDS !! name = Some field ->
  startsWith name "mcp__" = false /\ name <> "Task".
Proof.
  intros H. unfold TOOL_SUMMARY_FIELDS in H.
  apply elem_of_list_to_map_2 in H.
  repeat (apply elem_of_cons in H as [H|H];
          [injection H as -> _; split; [reflexivity | discriminate]|]).
  now apply elem_of_nil in H.
Qed.

(** X25. For a tool name that is a string outside the table, not inherited
    from [Object.prototype], not Task and without the mcp__ prefix, the
    summary is the bare name followed by a colon and a space: input and
    working directory play no part, and nothing is raised. *)
Theorem summarizeToolUse_unlisted {E : Engine}
    (name : string) (input : value) (cwd : option string) :
  TOOL_SUMMARY_FIELDS !! name = None ->
  prototype_member_key name = None ->
  name <> "Task" ->
  startsWith name "mcp__" = false ->
  summarizeToolUse (VString name) input cwd = Ok (name +:+ ": ").
Proof.
  intros Ht Hp Hn Hs. unfold summarizeToolUse.
  cbn [ToString mbind result_bind]. rewrite Ht, Hp.
  cbn [strict_eq_string]. rewrite (proj2 (String.eqb_neq _ _) Hn).
  cbn [shortToolName]. rewrite Hs. reflexivity.
Qed.

Lemma summarizeToolUse_unlisted_witness :
  summarizeToolUse (E := integer_engine) (VString "LSP")
    (VObject [("file_path", VString "/w/a.ts")]) (Some "/w") = Ok "LSP: ".
Proof.
  apply (summarizeToolUse_unlisted (E := integer_engine) "LSP");
    try reflexivity. discriminate.
Defined.

(** X26. The summary of the Task tool shows the description of the input
    when it is neither null nor undefined (an empty description is shown as
    it is), else its subagent_type, else the word subagent; the working
    directory plays no part. *)
Theorem summarizeToolUse_Task {E : Engine}
    (input : value) (cwd : option string)
    (description subagent_type : value) (shown : string) :
  prototype_member_key "Task" = None ->
  get (if is_object input then input else VObject []) "description"
    = Ok description ->
  get (if is_object input then input else VObject []) "subagent_type"
    = Ok subagent_type ->
  (description = VString shown) \/
  (nullish description = true /\ subagent_type = VString shown) \/
  (nullish description = true /\ nullish subagent_type = true /\
   shown = "subagent") ->
  summarizeToolUse (VString "Task") input cwd = Ok ("Task: " +:+ shown).
Proof.
  intros Hp Hd Hs Hcase. unfold summarizeToolUse.
  cbn [ToString mbind result_bind].
  assert (Ht : TOOL_SUMMARY_FIELDS !! "Task" = None) by reflexivity.
  rewrite Ht, Hp. cbn [strict_eq_string String.eqb Ascii.eqb Bool.eqb].
  rewrite Hd; cbn [mbind result_bind]. rewrite Hs; cbn [mbind result_bind].
  assert (Hshown : ToString (coalesce (coalesce description subagent_type)
                               (VString "subagent")) = Ok shown).
  { unfold coalesce.
    destruct Hcase as [-> | [(Hn & ->) | (Hn & Hn' & ->)]].
    - reflexivity.
    - rewrite Hn. reflexivity.
    - rewrite Hn, Hn'. reflexivity. }
  rewrite Hshown. reflexivity.
Qed.

Lemma summarizeToolUse_Task_witness :
  summarizeToolUse (E := integer_engine) (VString "Task")
    (VObject [("subagent_type", VString "scout")]) None = Ok "Task: scout".
Proof.
  apply (summarizeToolUse_Task (E := integer_engine)
           (VObject [("subagent_type", VString "scout")]) None
           VUndefined (VString "scout") "scout" eq_refl eq_refl eq_refl).
  right; left. split; reflexivity.
Defined.

(** ** MCP tool names *)

Lemma prefix2_same (c : ascii) (a x y : string) :
  String.prefix "__" (String c (a +:+ String "_" x)) =
  String.prefix "__" (String c (a +:+ String "_" y)).
Proof.
  destruct (Ascii.ascii_dec "_" c) as [<-|Hc].
  2: now rewrite !RemoteProps.prefix_cons_ne.
  rewrite !RemoteProps.prefix_cons_eq. destruct a as [|d a].
  - rewrite !RemoteProps.append_nil.
    now rewrite !RemoteProps.prefix_cons_eq, !RemoteProps.prefix_nil.
  - rewrite !RemoteProps.append_cons.
    destruct (Ascii.ascii_dec "_" d) as [<-|Hd].
    + now rewrite !RemoteProps.prefix_cons_eq, !RemoteProps.prefix_nil.
    + now rewrite !RemoteProps.prefix_cons_ne.
Qed.

Lemma split2_piece (cur : list ascii) (a rest : string) :
  Remote.includes (a +:+ "_") "__" = false ->
  split_from "__" 0 cur (a +:+ String "_" (String "_" rest)) =
  string_of_list_ascii (rev cur ++ list_ascii_of_string a)
  :: split_from "__" 0 [] rest.
Proof.
  revert cur; induction a as [|c a IH]; intros cur H.
  - rewrite RemoteProps.append_nil. cbn [split_from list_ascii_of_string].
    rewrite !RemoteProps.prefix_cons_eq, RemoteProps.prefix_nil.
    cbn. now rewrite app_nil_r.
  - rewrite RemoteProps.append_cons in *. cbn [Remote.includes] in H.
    apply orb_false_iff in H as [Hp Hi].
    cbn [split_from].
    rewrite (prefix2_same c a (String "_" rest) ""), Hp.
    rewrite IH by exact Hi. cbn [rev list_ascii_of_string].
    now rewrite <- app_assoc.
Qed.

Lemma split2_last (cur : list ascii) (a : string) :
  Remote.includes a "__" = false ->
  split_from "__" 0 cur a =
  [string_of_list_ascii (rev cur ++ list_ascii_of_string a)].
Proof.
  revert cur; induction a as [|c a IH]; intros cur H.
  - cbn. now rewrite app_nil_r.
  - cbn [Remote.includes] in H. apply orb_false_iff in H as [Hp Hi].
    cbn [split_from]. rewrite Hp. rewrite IH by exact Hi.
    cbn [rev list_ascii_of_string]. now rewrite <- app_assoc.
Qed.

(** X27. An MCP tool name mcp__<server>__<tool>, where neither part holds
    two underscores in a row and the server does not end with one, is
    shortened to <server>/<tool>; such a name is never in the table, so its
    summary is server/tool followed by a colon and a space. *)
Theorem summarizeToolUse_mcp {E : Engine}
    (server tool : string) (input : value) (cwd : option string) :
  Remote.includes (server +:+ "_") "__" = false ->
  Remote.includes tool "__" = false ->
  prototype_member_key ("mcp__" +:+ server +:+ "__" +:+ tool) = None ->
  shortToolName (VString ("mcp__" +:+ server +:+ "__" +:+ tool))
    = Ok (server +:+ "/" +:+ tool) /\
  summarizeToolUse (VString ("mcp__" +:+ server +:+ "__" +:+ tool)) input cwd
    = Ok (server +:+ "/" +:+ tool +:+ ": ").
Proof.
  intros Hs Ht Hp.
  assert (Hpre : startsWith ("mcp__" +:+ server +:+ "__" +:+ tool) "mcp__"
                 = true) by apply prefix_app.
  assert (Hshort : shortToolName (VString ("mcp__" +:+ server +:+ "__" +:+ tool))
                   = Ok (server +:+ "/" +:+ tool)).
  { cbn [shortToolName]. rewrite Hpre.
    change (slice_from ("mcp__" +:+ server +:+ "__" +:+ tool) 5)
      with (slice_from (server +:+ "__" +:+ tool) 0).
    rewrite RemoteProps.slice_from_zero. unfold split.
    change (server +:+ "__" +:+ tool)
      with (server +:+ String "_" (String "_" tool)).
    rewrite split2_piece by exact Hs. rewrite split2_last by exact Ht.
    cbn [rev app]. rewrite !string_of_list_ascii_of_string. reflexivity. }
  split; [exact Hshort|].
  unfold summarizeToolUse. cbn [ToString mbind result_bind].
  destruct (TOOL_SUMMARY_FIELDS !! ("mcp__" +:+ server +:+ "__" +:+ tool))
    as [field|] eqn:Hl.
  { apply listed_tool_plain in Hl as [Hl _]. congruence. }
  rewrite Hp.
  assert (Hn : strict_eq_string
                 (VString ("mcp__" +:+ server +:+ "__" +:+ tool)) "Task"
               = false) by reflexivity.
  rewrite Hn, Hshort. cbn [mbind result_bind].
  now rewrite RemoteProps.append_assoc, RemoteProps.append_assoc.
Qed.

Lemma summarizeToolUse_mcp_witness :
  summarizeToolUse (E := integer_engine)
    (VString "mcp__linear__create_issue") VNull (Some "/w")
  = Ok "linear/create_issue: ".
Proof.
  apply (proj2 (summarizeToolUse_mcp (E := integer_engine)
                  "linear" "create_issue" VNull (Some "/w")
                  eq_refl eq_refl eq_refl)).
Defined.

End ActivityMore.

(* ================================================================== *)
(** * Further properties of the worktree manager *)
(* ================================================================== *)

Module WorktreeMore.
Import JS Worktree WorktreeProps.

(** The commands of a removal on a host where git starts, by the keepBranch
    option. *)
Lemma removeWorktree_started {H : Host}
    (projectPath name : string) (opts : option RemoveOptions)
    (m : machine) (journal : list entry) :
  (forall cmd cwd m, exists outcome m1, spawnSync cmd cwd m = (Ok outcome, m1)) ->
  exists m1 added,
    removeWorktree projectPath name opts (m, journal)
      = (Ok tt, (m1, journal ++ added)) /\
    commands added =
      [ (["git"; "worktree"; "remove"; worktreePath projectPath name; "--force"],
         projectPath);
        (["git"; "worktree"; "prune"], projectPath) ]
      ++ (if keepBranch_set opts then []
          else [(["git"; "branch"; "-D"; "worktree-" +:+ name], projectPath)]).
Proof.
  intros Hstart.
  destruct (Hstart ["git"; "worktree"; "remove"; worktreePath projectPath name;
                    "--force"] projectPath m) as (o1 & m1 & E1).
  destruct (Hstart ["git"; "worktree"; "prune"] projectPath m1)
    as (o2 & m2 & E2).
  destruct (Hstart ["git"; "branch"; "-D"; "worktree-" +:+ name] projectPath m2)
    as (o3 & m3 & E3).
  eexists _, _. split.
  - apply (removeWorktree_run projectPath name opts m journal o1 o2 o3 m1 m2 m3
             E1 E2 (fun _ => E3)).
  - change (?a :: ?b :: ?l) with ([a; b] ++ l) at 1.
    rewrite !commands_app.
    destruct (negb (exitCode o1 =? 0) && negb (trim (stderr o1) =? "")%string);
      destruct (keepBranch_set opts); try reflexivity;
      destruct (negb (exitCode o3 =? 0) && negb (trim (stderr o3) =? "")%string);
      reflexivity.
Qed.

(** The cleanup of a stale worktree adds the commands of a removal. *)
Lemma stale_cleanup_run {H : Host} (stale fixer : bool)
    (projectPath name line : string) (m : machine) (journal : list entry) :
  (forall cmd cwd m, exists outcome m1, spawnSync cmd cwd m = (Ok outcome, m1)) ->
  exists m1 added,
    (if stale then
       _ ← warn line;
       removeWorktree projectPath name (Some {| keepBranch := Some fixer |})
     else mret tt) (m, journal) = (Ok tt, (m1, journal ++ added)) /\
    commands added =
      if stale then
        [ (["git"; "worktree"; "remove"; worktreePath projectPath name; "--force"],
           projectPath);
          (["git"; "worktree"; "prune"], projectPath) ]
        ++ (if fixer then []
            else [(["git"; "branch"; "-D"; "worktree-" +:+ name], projectPath)])
      else [].
Proof.
  intros Hstart. destruct stale.
  - destruct (removeWorktree_started projectPath name
                (Some {| keepBranch := Some fixer |}) m
                (journal ++ [Warned line]) Hstart) as (m1 & added & Hrun & Hc).
    exists m1, (Warned line :: added). split.
    + erewrite io_bind_Ok by reflexivity. rewrite Hrun.
      now rewrite <- app_assoc.
    + change (Warned line :: added) with ([Warned line] ++ added).
      rewrite commands_app, Hc. reflexivity.
  - exists m, []. split; [|reflexivity]. cbn. now rewrite app_nil_r.
Qed.

(** The last step of [createWorktree]. *)
Lemma createWorktree_last {H : Host} (name wtPath : string)
    (outcome : SyncSubprocess) (st : machine * list entry) :
  (if truthy (if negb (exitCode outcome =? 0)
              then Some (trim (stderr outcome)) else None)
   then throw (PlainError ("Failed to create worktree '" +:+ name +:+ "': "
                           +:+ default "" (if negb (exitCode outcome =? 0)
                                           then Some (trim (stderr outcome))
                                           else None)))
   else mret wtPath) st =
  ((if negb (exitCode outcome =? 0) && negb (trim (stderr outcome) =? "")%string
    then Throw (PlainError ("Failed to create worktree '" +:+ name +:+ "': "
                            +:+ trim (stderr outcome)))
    else Ok wtPath), st).
Proof.
  rewrite truthy_gitSync_error.
  destruct (negb (exitCode outcome =? 0)
            && negb (trim (stderr outcome) =? "")%string) eqn:R; [|reflexivity].
  now rewrite default_gitSync_error.
Qed.

(** X28. On a host where git can always be started, [createWorktree]
    prunes first; when the worktree directory exists after the prune it runs
    the commands of a removal, keeping the branch exactly in fixer mode; then
    it fetches the branch (fixer mode) or deletes the branch worktree-<name>
    (executor mode, also for an empty fromBranch) and adds the worktree,
    which is its last command. On such a host it throws exactly when that
    last command exits non-zero with a stderr that is not blank, and returns
    the worktree path otherwise: the exit codes of the earlier commands, and
    a failing last command that prints nothing, go unnoticed. *)
Theorem createWorktree_run {H : Host}
    (projectPath name : string) (fromBranch : option string)
    (m : machine) (journal : list entry) :
  (forall cmd cwd m, exists outcome m1, spawnSync cmd cwd m = (Ok outcome, m1)) ->
  let wtPath := worktreePath projectPath name in
  let fixer := match fromBranch with
               | Some b => negb (b =? "")%string
               | None => false
               end in
  let branch := "worktree-" +:+ name in
  let prune := (["git"; "worktree"; "prune"], projectPath) in
  let stale :=
    existsSync wtPath (snd (spawnSync ["git"; "worktree"; "prune"] projectPath m)) in
  let cleanup :=
    if stale then
      [ (["git"; "worktree"; "remove"; wtPath; "--force"], projectPath); prune ]
      ++ (if fixer then [] else [(["git"; "branch"; "-D"; branch], projectPath)])
    else [] in
  let setup :=
    if fixer then (["git"; "fetch"; "origin"; default "" fromBranch], projectPath)
    else (["git"; "branch"; "-D"; branch], projectPath) in
  let add :=
    if fixer then ["git"; "worktree"; "add"; wtPath; default "" fromBranch]
    else ["git"; "worktree"; "add"; wtPath; "-b"; branch] in
  exists m0 m1 before outcome,
    spawnSync add projectPath m0 = (Ok outcome, m1) /\
    createWorktree projectPath name fromBranch (m, journal) =
      ((if negb (exitCode outcome =? 0)
           && negb (trim (stderr outcome) =? "")%string
        then Throw (PlainError ("Failed to create worktree '" +:+ name +:+ "': "
                                +:+ trim (stderr outcome)))
        else Ok wtPath),
       (m1, journal ++ before ++ [Ran add projectPath outcome])) /\
    commands before = prune :: cleanup ++ [setup].
Proof.
  intros Hstart wtPath fixer branch prune stale cleanup setup add.
  unfold createWorktree. cbv zeta. fold wtPath. fold fixer.
  destruct (Hstart ["git"; "worktree"; "prune"] projectPath m)
    as (o0 & mp & E0).
  assert (Hstale : stale = existsSync wtPath mp).
  { unfold stale. now rewrite E0. }
  erewrite io_bind_Ok by (apply gitPrune_run; exact E0).
  erewrite io_bind_Ok by reflexivity.
  rewrite <- Hstale.
  match goal with
  | |- context [mbind _ (if stale then ?a else ?b) (?mm, ?jj)] =>
      destruct (stale_cleanup_run stale fixer projectPath name
                  ("Stale worktree found at " +:+ wtPath +:+ ", removing...")
                  mm jj Hstart) as (mc & added & Hrun & Hc)
  end.
  fold wtPath in Hc.
  erewrite io_bind_Ok by exact Hrun.
  unfold add, setup, cleanup. clear add setup cleanup.
  destruct fixer.
  - destruct (Hstart ["git"; "fetch"; "origin"; default "" fromBranch]
                projectPath mc) as (o2 & m2 & E2).
    destruct (Hstart ["git"; "worktree"; "add"; wtPath; default "" fromBranch]
                projectPath m2) as (o3 & m3 & E3).
    erewrite io_bind_Ok by (apply gitSync_run; exact E2).
    erewrite io_bind_Ok by reflexivity.
    erewrite io_bind_Ok by (apply gitSync_run; exact E3).
    rewrite createWorktree_last.
    exists m2, m3,
      ([Ran ["git"; "worktree"; "prune"] projectPath o0] ++ added
       ++ [Ran ["git"; "fetch"; "origin"; default "" fromBranch] projectPath o2;
           Info ("Creating worktree: " +:+ name +:+ " (from branch "
                 +:+ default "" fromBranch +:+ ")")]),
      o3.
    split; [exact E3|]. split.
    + f_equal. f_equal. rewrite <- !app_assoc. reflexivity.
    + rewrite !commands_app, Hc. reflexivity.
  - destruct (Hstart ["git"; "branch"; "-D"; "worktree-" +:+ name]
                projectPath mc) as (o2 & m2 & E2).
    destruct (Hstart ["git"; "worktree"; "add"; wtPath; "-b"; "worktree-" +:+ name]
                projectPath m2) as (o3 & m3 & E3).
    erewrite io_bind_Ok by (apply gitSync_run; exact E2).
    erewrite io_bind_Ok by reflexivity.
    erewrite io_bind_Ok by (apply gitSync_run; exact E3).
    rewrite createWorktree_last.
    exists m2, m3,
      ([Ran ["git"; "worktree"; "prune"] projectPath o0] ++ added
       ++ [Ran ["git"; "branch"; "-D"; "worktree-" +:+ name] projectPath o2;
           Info ("Creating worktree: " +:+ name)]),
      o3.
    split; [exact E3|]. split.
    + f_equal. f_equal. rewrite <- !app_assoc. reflexivity.
    + rewrite !commands_app, Hc. reflexivity.
Qed.

Lemma createWorktree_run_witness :
  exists m0 m1 before outcome,
    spawnSync
      (Host := stale_host "/repo/.claude/worktrees/eng-12" 5 128
                 ("fatal: a branch named 'worktree-eng-12' already exists" +:+ nl))
      ["git"; "worktree"; "add"; "/repo/.claude/worktrees/eng-12"; "-b";
       "worktree-eng-12"] "/repo" m0 = (Ok outcome, m1) /\
    createWorktree
      (H := stale_host "/repo/.claude/worktrees/eng-12" 5 128
              ("fatal: a branch named 'worktree-eng-12' already exists" +:+ nl))
      "/repo" "eng-12" None (0%nat, []) =
      ((if negb (exitCode outcome =? 0)
           && negb (trim (stderr outcome) =? "")%string
        then Throw (PlainError ("Failed to create worktree 'eng-12': "
                                +:+ trim (stderr outcome)))
        else Ok "/repo/.claude/worktrees/eng-12"),
       (m1, [] ++ before
            ++ [Ran ["git"; "worktree"; "add"; "/repo/.claude/worktrees/eng-12";
                     "-b"; "worktree-eng-12"] "/repo" outcome])) /\
    commands before =
      [ (["git"; "worktree"; "prune"], "/repo");
        (["git"; "worktree"; "remove"; "/repo/.claude/worktrees/eng-12"; "--force"],
         "/repo");
        (["git"; "worktree"; "prune"], "/repo");
        (["git"; "branch"; "-D"; "worktree-eng-12"], "/repo");
        (["git"; "branch"; "-D"; "worktree-eng-12"], "/repo") ].
Proof.
  apply (createWorktree_run
           (H := stale_host "/repo/.claude/worktrees/eng-12" 5 128
                   ("fatal: a branch named 'worktree-eng-12' already exists" +:+ nl))
           "/repo" "eng-12" None 0%nat []).
  intros cmd cwd n. eexists _, _. reflexivity.
Defined.

(** The same creation, run: the leftover worktree is removed with its
    branch, and the failure of the last command is the error thrown. *)
Example createWorktree_on_stale_host :
  createWorktree
    (H := stale_host "/repo/.claude/worktrees/eng-12" 5 128
            ("fatal: a branch named 'worktree-eng-12' already exists" +:+ nl))
    "/repo" "eng-12" None (0%nat, []) =
  (Throw (PlainError
            "Failed to create worktree 'eng-12': fatal: a branch named 'worktree-eng-12' already exists"),
   (6%nat,
    [ Ran ["git"; "worktree"; "prune"] "/repo" {| exitCode := 0; stderr := "" |};
      Warned "Stale worktree found at /repo/.claude/worktrees/eng-12, removing...";
      Info "Removing worktree: eng-12";
      Ran ["git"; "worktree"; "remove"; "/repo/.claude/worktrees/eng-12"; "--force"]
        "/repo" {| exitCode := 0; stderr := "" |};
      Ran ["git"; "worktree"; "prune"] "/repo" {| exitCode := 0; stderr := "" |};
      Ran ["git"; "branch"; "-D"; "worktree-eng-12"] "/repo"
        {| exitCode := 0; stderr := "" |};
      Ran ["git"; "branch"; "-D"; "worktree-eng-12"] "/repo"
        {| exitCode := 0; stderr := "" |};
      Info "Creating worktree: eng-12";
      Ran ["git"; "worktree"; "add"; "/repo/.claude/worktrees/eng-12"; "-b";
           "worktree-eng-12"] "/repo"
        {| exitCode := 128;
           stderr := "fatal: a branch named 'worktree-eng-12' already exists"
                     +:+ nl |} ])).
Proof. reflexivity. Qed.

End WorktreeMore.

(* ================================================================== *)
(** * Further properties of the template renderer *)
(* ================================================================== *)

Module PromptMore.
Import JS Prompt.

(** ** Sanitized values *)

(** Each step of the sanitizer keeps a string free of carriage returns and
    line feeds, and the first step makes it so. *)
Lemma collapse_newlines_from_one_line (inside : bool) (s : string) :
  Forall (fun c => is_newline c = false)
    (list_ascii_of_string (collapse_newlines_from inside s)).
Proof.
  revert inside. induction s as [|c s IH]; intros inside; cbn.
  - constructor.
  - destruct (is_newline c) eqn:Hc.
    + destruct inside; [apply IH|]. cbn. constructor; [reflexivity | apply IH].
    + cbn. constructor; [exact Hc | apply IH].
Qed.

Lemma trimStart_one_line (s : string) :
  Forall (fun c => is_newline c = false) (list_ascii_of_string s) ->
  Forall (fun c => is_newline c = false) (list_ascii_of_string (trimStart s)).
Proof.
  induction s as [|c s IH]; intros Hs; cbn; [constructor|].
  destruct (is_whitespace c); [|exact Hs].
  apply IH. now inversion Hs.
Qed.

Lemma trimEnd_one_line (s : string) :
  Forall (fun c => is_newline c = false) (list_ascii_of_string s) ->
  Forall (fun c => is_newline c = false) (list_ascii_of_string (trimEnd s)).
Proof.
  induction s as [|c s IH]; intros Hs; cbn; [constructor|].
  inversion Hs as [|? ? Hc Hrest]; subst.
  specialize (IH Hrest).
  destruct (trimEnd s) as [|d kept].
  - destruct (is_whitespace c); cbn; repeat constructor; exact Hc.
  - cbn. constructor; assumption.
Qed.

Lemma drop_hashes_one_line (s : string) :
  Forall (fun c => is_newline c = false) (list_ascii_of_string s) ->
  Forall (fun c => is_newline c = false) (list_ascii_of_string (drop_hashes s)).
Proof.
  induction s as [|c s IH]; intros Hs; [constructor|].
  inversion Hs as [|? ? Hc Hrest]; subst.
  assert (Hcase : drop_hashes (String c s) = drop_hashes s \/
                  drop_hashes (String c s) = String c s).
  { destruct c as [[] [] [] [] [] [] [] []]; cbn; auto. }
  destruct Hcase as [-> | ->]; auto.
Qed.

Lemma strip_leading_heading_one_line (s : string) :
  Forall (fun c => is_newline c = false) (list_ascii_of_string s) ->
  Forall (fun c => is_newline c = false)
    (list_ascii_of_string (strip_leading_heading s)).
Proof.
  intros Hs. unfold strip_leading_heading.
  pose proof (trimStart_one_line s Hs) as Ht.
  destruct (trimStart s) as [|c rest]; [exact Hs|].
  inversion Ht as [|? ? Hc Hrest]; subst.
  assert (Hcase :
    match String c rest with
    | String "#" rest => trimStart (drop_hashes rest)
    | _ => s
    end = trimStart (drop_hashes rest) \/
    match String c rest with
    | String "#" rest => trimStart (drop_hashes rest)
    | _ => s
    end = s).
  { destruct c as [[] [] [] [] [] [] [] []]; cbn; auto. }
  destruct Hcase as [-> | ->]; [|exact Hs].
  now apply trimStart_one_line, drop_hashes_one_line.
Qed.

(** X29. Whatever the value, the string [sanitizePromptValue] returns holds
    no carriage return and no line feed. *)
Theorem sanitizePromptValue_one_line (value : string) :
  Forall (fun c => c <> CR /\ c <> LF)
    (list_ascii_of_string (sanitizePromptValue value)).
Proof.
  assert (H : Forall (fun c => is_newline c = false)
                (list_ascii_of_string (sanitizePromptValue value))).
  { unfold sanitizePromptValue, trim.
    apply trimEnd_one_line, trimStart_one_line, strip_leading_heading_one_line.
    apply collapse_newlines_from_one_line. }
  eapply Forall_impl; [exact H|].
  intros c Hc. unfold is_newline in Hc. apply orb_false_iff in Hc as [H1 H2].
  split; intros ->; discriminate.
Qed.

(** ** Placeholders that do not occur *)

Lemma replaceAll_from_absent (str pattern replacement : string) (pos : nat)
    (s : string) :
  Remote.includes s pattern = false ->
  replaceAll_from str pattern replacement pos O s = s.
Proof.
  revert pos. induction s as [|c s IH]; intros pos Hs; [reflexivity|].
  cbn [Remote.includes] in Hs. apply orb_false_iff in Hs as [Hp Hrest].
  cbn [replaceAll_from]. rewrite Hp. now rewrite IH.
Qed.

(** X30. Leading entries whose placeholders do not occur in the template
    are skipped: rendering goes on with the entries after them as if they
    were not there. In particular a template that holds none of the
    placeholders is returned unchanged. *)
Theorem renderPrompt_unused_keys (template : string)
    (unused vars : list (string * string)) :
  Forall (fun '(key, _) =>
            Remote.includes template ("{{" +:+ key +:+ "}}") = false) unused ->
  renderPrompt template (unused ++ vars) = renderPrompt template vars.
Proof.
  intros Hall. induction Hall as [|[key value] unused Habs _ IH].
  - reflexivity.
  - rewrite <- IH. unfold renderPrompt. cbn [app fold_left].
    unfold replaceAll. now rewrite replaceAll_from_absent.
Qed.

Lemma renderPrompt_unused_keys_witness :
  renderPrompt "Hello {{NAME}}" ([("MISSING", "x")] ++ [("NAME", "World")]) =
  renderPrompt "Hello {{NAME}}" [("NAME", "World")].
Proof.
  apply (renderPrompt_unused_keys "Hello {{NAME}}"
           [("MISSING", "x")] [("NAME", "World")]).
  repeat constructor.
Defined.

End PromptMore.
